(** * Auto-Claude: command validators, review state, QA loop and spec phases

    A shallow embedding of the safety-critical core of Auto-Claude:

    - [security/validator.py]: the per-command validators and their registry;
    - [review/state.py]: the human-approval record and its content hash;
    - [qa/report.py] and [qa/loop.py]: recurring-issue detection and the
      reviewer/fixer loop;
    - [spec/phases.py]: the phase executor of the spec-creation pipeline;
    - [spec/pipeline.py]: the name and the directory of a new spec.

    Python [str] values are Rocq strings; a character stands for the code
    point of the same number (0..255).  Character classes and case mapping
    follow CPython on that range. *)

From Stdlib Require Import Bool List Arith ZArith NArith QArith Lia Btauto.
From Stdlib Require Import Ascii String DecimalString.
From Stdlib Require Import Strings.Byte.
From Stdlib Require Import Permutation.
Import ListNotations.
Open Scope string_scope.
Open Scope nat_scope.

(* ================================================================= *)
(** ** Python string primitives *)

Module PyStr.

Definition code (c : ascii) : nat := nat_of_ascii c.

Definition in_range (lo hi : nat) (c : ascii) : bool :=
  (lo <=? code c) && (code c <=? hi).

(** [str.isspace] on one character. *)
Definition isspace (c : ascii) : bool :=
  in_range 9 13 c || in_range 28 32 c
  || (code c =? 133) || (code c =? 160).

(** The class [\w] of [re] for [str] patterns: alphanumerics and [_]. *)
Definition isword (c : ascii) : bool :=
  in_range 48 57 c || in_range 65 90 c || (code c =? 95)
  || in_range 97 122 c
  || (code c =? 170) || in_range 178 179 c || (code c =? 181)
  || in_range 185 186 c || in_range 188 190 c
  || in_range 192 214 c || in_range 216 246 c || in_range 248 255 c.

(** [str.lower] on one character. *)
Definition lower_char (c : ascii) : ascii :=
  if in_range 65 90 c || in_range 192 214 c || in_range 216 222 c
  then ascii_of_nat (code c + 32) else c.

(** [str.upper] on one character; the result is a string because the
    upper case of code point 223 is the two letters SS.  Code points 181
    and 255, whose upper-case forms lie beyond code point 255, are kept. *)
Definition upper_char (c : ascii) : string :=
  if in_range 97 122 c || in_range 224 246 c || in_range 248 254 c
  then String (ascii_of_nat (code c - 32)) ""
  else if code c =? 223 then "SS"
  else String c "".

Fixpoint lower (s : string) : string :=
  match s with
  | "" => ""
  | String c r => String (lower_char c) (lower r)
  end.

Fixpoint upper (s : string) : string :=
  match s with
  | "" => ""
  | String c r => upper_char c ++ upper r
  end.

(** [s.startswith(p)] *)
Definition startswith (s p : string) : bool := String.prefix p s.

Fixpoint rev (s acc : string) : string :=
  match s with
  | "" => acc
  | String c r => rev r (String c acc)
  end.

(** [s.endswith(p)] *)
Definition endswith (s p : string) : bool :=
  String.prefix (rev p "") (rev s "").

(** [c in s] for a one-character string [c]. *)
Fixpoint contains_char (c : ascii) (s : string) : bool :=
  match s with
  | "" => false
  | String d r => Ascii.eqb c d || contains_char c r
  end.

(** [s[n:]] *)
Fixpoint drop (n : nat) (s : string) : string :=
  match n, s with
  | O, _ => s
  | S n', String _ r => drop n' r
  | S _, "" => ""
  end.

(** [s[:n]] *)
Fixpoint take (n : nat) (s : string) : string :=
  match n, s with
  | S n', String c r => String c (take n' r)
  | _, _ => ""
  end.

(** [s.split()]: maximal runs of non-whitespace characters.
    [cur] is the word being read, kept in reverse. *)
Fixpoint split_ws_aux (s : string) (cur : string) : list string :=
  match s with
  | "" => match cur with "" => [] | _ => [rev cur ""] end
  | String c r =>
      if isspace c
      then match cur with
           | "" => split_ws_aux r ""
           | _ => rev cur "" :: split_ws_aux r ""
           end
      else split_ws_aux r (String c cur)
  end.

Definition split (s : string) : list string := split_ws_aux s "".

(** [s.lstrip()], [s.rstrip()] and [s.strip()] *)
Fixpoint lstrip (s : string) : string :=
  match s with
  | String c r => if isspace c then lstrip r else s
  | "" => ""
  end.

Definition rstrip (s : string) : string := rev (lstrip (rev s "")) "".

Definition strip (s : string) : string := rstrip (lstrip s).

(** [x in xs] for a collection of strings. *)
Definition mem (x : string) (xs : list string) : bool :=
  existsb (String.eqb x) xs.

(** [sorted(xs)] on strings: insertion into an ordered list, by code
    point order. *)
Fixpoint insert_sorted (x : string) (xs : list string) : list string :=
  match xs with
  | [] => [x]
  | y :: ys => if String.leb x y then x :: xs else y :: insert_sorted x ys
  end.

Definition sorted (xs : list string) : list string :=
  fold_right insert_sorted [] xs.

(** [repr] of a string without quotes, backslashes or control
    characters, and of a list of such strings. *)
Definition repr_str (s : string) : string := "'" ++ s ++ "'".

Definition repr_list (xs : list string) : string :=
  "[" ++ String.concat ", " (map repr_str xs) ++ "]".

(** [str(n)] for a non-negative integer. *)
Definition of_N (n : N) : string := NilEmpty.string_of_uint (N.to_uint n).

(** Truthiness of a string: non-empty. *)
Definition truthy (s : string) : bool :=
  match s with "" => false | _ => true end.

End PyStr.

(** Python lists. *)
Module PyList.

(** [xs.append(x)] *)
Definition append {A} (xs : list A) (x : A) : list A := (xs ++ [x])%list.

End PyList.

(* ================================================================= *)
(** ** [shlex.split]: POSIX-mode shell-word splitting

    The token reader of the standard library, with [posix = True],
    [whitespace_split = True], no comment characters and no punctuation
    characters, as [shlex.split] sets it up.  The lexer state is the
    character CPython keeps in [self.state]. *)

Module Shlex.

Definition whitespace : string :=
  String " " (String "009" (String "013" (String "010" ""))).
Definition quotes : string := String "'" (String "034" "").
Definition escape : string := String "092" "".
Definition escapedquotes : string := String "034" "".

Definition is_in (c : ascii) (set : string) : bool :=
  PyStr.contains_char c set.

Definition st_blank : ascii := " ".
Definition st_word : ascii := "a".

(** One pass over the input.  [token] is the token being built,
    [quoted] and [escapedstate] the locals of [read_token]; [None] is
    the [ValueError] of the reader. *)
Fixpoint read_tokens (input : string) (state escapedstate : ascii)
    (token : string) (quoted : bool) : option (list string) :=
  match input with
  | "" =>
      (* end of input *)
      if is_in state quotes then None            (* No closing quotation *)
      else if is_in state escape then None       (* No escaped character *)
      else if quoted || PyStr.truthy token then Some [token]
      else Some []
  | String nextchar rest =>
      if Ascii.eqb state st_blank then
        if is_in nextchar whitespace then
          if PyStr.truthy token || quoted
          then option_map (cons token)
                 (read_tokens rest state " " "" false)
          else read_tokens rest state escapedstate token quoted
        else if is_in nextchar escape then
          read_tokens rest nextchar st_word token quoted
        else if is_in nextchar quotes then
          read_tokens rest nextchar escapedstate token quoted
        else
          read_tokens rest st_word escapedstate (String nextchar "") quoted
      else if is_in state quotes then
        if Ascii.eqb nextchar state then
          read_tokens rest st_word escapedstate token true
        else if is_in nextchar escape && is_in state escapedquotes then
          read_tokens rest nextchar state token true
        else
          read_tokens rest state escapedstate
            (token ++ String nextchar "") true
      else if is_in state escape then
        let token' :=
          if is_in escapedstate quotes
             && negb (Ascii.eqb nextchar state)
             && negb (Ascii.eqb nextchar escapedstate)
          then token ++ String state ""
          else token in
        read_tokens rest escapedstate escapedstate
          (token' ++ String nextchar "") quoted
      else if Ascii.eqb state st_word then
        if is_in nextchar whitespace then
          if PyStr.truthy token || quoted
          then option_map (cons token)
                 (read_tokens rest st_blank " " "" false)
          else read_tokens rest st_blank escapedstate token quoted
        else if is_in nextchar quotes then
          read_tokens rest nextchar escapedstate token quoted
        else if is_in nextchar escape then
          read_tokens rest nextchar st_word token quoted
        else
          read_tokens rest state escapedstate
            (token ++ String nextchar "") quoted
      else
        read_tokens rest state escapedstate token quoted
  end.

(** [shlex.split(s)]; [None] when the reader raises [ValueError]. *)
Definition split (s : string) : option (list string) :=
  read_tokens s st_blank " " "" false.

End Shlex.

(* ================================================================= *)
(** ** The [re] module: the pattern syntax the validators use

    A backtracking matcher with CPython's priorities: alternatives are
    tried left to right and repetitions are greedy.  [prev] is the
    character before the current position ([None] at the start of the
    subject), which [^] and [\b] look at. *)

Module Re.

Inductive regex : Type :=
| Eps
| Chr (c : ascii)
| Cls (p : ascii -> bool)
| Bol
| Eol
| WordB
| Seq (r1 r2 : regex)
| Alt (r1 r2 : regex)
| Star (r : regex).

(** *** Pattern syntax *)

(** Characters up to the closing bracket of a class. *)
Fixpoint class_body (s : string) (acc : string) : option (string * string) :=
  match s with
  | "" => None
  | String "]" rest => Some (PyStr.rev acc "", rest)
  | String c rest => class_body rest (String c acc)
  end.

Definition escape_atom (c : ascii) : option regex :=
  if Ascii.eqb c "s" then Some (Cls PyStr.isspace)
  else if Ascii.eqb c "w" then Some (Cls PyStr.isword)
  else if Ascii.eqb c "b" then Some WordB
  else if PyStr.isword c then None
  else Some (Chr c).

Definition postfix (a : regex) (s : string) : regex * string :=
  match s with
  | String "*" rest => (Star a, rest)
  | String "+" rest => (Seq a (Star a), rest)
  | String "?" rest => (Alt a Eps, rest)
  | _ => (a, s)
  end.

Fixpoint parse_alt (fuel : nat) (s : string) : option (regex * string) :=
  match fuel with
  | O => None
  | S f =>
      match parse_seq f s with
      | Some (r1, String "|" rest) =>
          match parse_alt f rest with
          | Some (r2, rest') => Some (Alt r1 r2, rest')
          | None => None
          end
      | other => other
      end
  end
with parse_seq (fuel : nat) (s : string) : option (regex * string) :=
  match fuel with
  | O => None
  | S f =>
      match s with
      | "" => Some (Eps, s)
      | String ")" _ => Some (Eps, s)
      | String "|" _ => Some (Eps, s)
      | _ =>
          match parse_atom f s with
          | Some (a, rest) =>
              let (a', rest') := postfix a rest in
              match parse_seq f rest' with
              | Some (Eps, rest'') => Some (a', rest'')
              | Some (r, rest'') => Some (Seq a' r, rest'')
              | None => None
              end
          | None => None
          end
      end
  end
with parse_atom (fuel : nat) (s : string) : option (regex * string) :=
  match fuel with
  | O => None
  | S f =>
      match s with
      | "" => None
      | String "(" rest =>
          match parse_alt f rest with
          | Some (r, String ")" rest') => Some (r, rest')
          | _ => None
          end
      | String "[" rest =>
          match class_body rest "" with
          | Some (chars, rest') =>
              Some (Cls (fun c => PyStr.contains_char c chars), rest')
          | None => None
          end
      | String "\" (String c rest) =>
          match escape_atom c with
          | Some a => Some (a, rest)
          | None => None
          end
      | String "\" "" => None
      | String "^" rest => Some (Bol, rest)
      | String "$" rest => Some (Eol, rest)
      | String "." rest => Some (Cls (fun c => negb (Ascii.eqb c "010")), rest)
      | String "*" _ => None
      | String "+" _ => None
      | String "?" _ => None
      | String c rest => Some (Chr c, rest)
      end
  end.

(** [re.compile]; [None] for a pattern outside the supported syntax. *)
Definition compile (pattern : string) : option regex :=
  match parse_alt (3 * String.length pattern + 3) pattern with
  | Some (r, "") => Some r
  | _ => None
  end.

(** *** Matching *)

Section Matcher.

(** [re.IGNORECASE] *)
Variable icase : bool.

Definition chr_eq (c d : ascii) : bool :=
  if icase then Ascii.eqb (PyStr.lower_char c) (PyStr.lower_char d)
  else Ascii.eqb c d.

(** [$]: at the end, or just before a newline that ends the subject. *)
Definition at_eol (s : string) : bool :=
  match s with
  | "" => true
  | String c "" => Ascii.eqb c "010"
  | _ => false
  end.

Definition word_before (prev : option ascii) : bool :=
  match prev with Some c => PyStr.isword c | None => false end.

Definition word_after (s : string) : bool :=
  match s with String c _ => PyStr.isword c | "" => false end.

Definition is_start (prev : option ascii) : bool :=
  match prev with None => true | Some _ => false end.

(** [run r fuel prev s k]: match [r] at the head of [s], then hand the
    rest to [k]; the answer is the text left after the whole match.
    [fuel] bounds the iterations of a repetition and is at least the
    length of the subject. *)
Fixpoint run (r : regex) (fuel : nat) (prev : option ascii) (s : string)
    (k : option ascii -> string -> option string) : option string :=
  match r with
  | Eps => k prev s
  | Chr c =>
      match s with
      | String d rest => if chr_eq c d then k (Some d) rest else None
      | "" => None
      end
  | Cls p =>
      match s with
      | String d rest => if p d then k (Some d) rest else None
      | "" => None
      end
  | Bol => if is_start prev then k prev s else None
  | Eol => if at_eol s then k prev s else None
  | WordB => if xorb (word_before prev) (word_after s) then k prev s else None
  | Seq r1 r2 =>
      run r1 fuel prev s (fun prev' s' => run r2 fuel prev' s' k)
  | Alt r1 r2 =>
      match run r1 fuel prev s k with
      | Some e => Some e
      | None => run r2 fuel prev s k
      end
  | Star r1 =>
      (fix loop (n : nat) (prev : option ascii) (s : string) : option string :=
         match n with
         | O => k prev s
         | S n' =>
             match
               run r1 fuel prev s
                 (fun prev' s' =>
                    if String.length s' <? String.length s
                    then loop n' prev' s' else None)
             with
             | Some e => Some e
             | None => k prev s
             end
         end) fuel prev s
  end.

Definition matched_text (s rest : string) : string :=
  PyStr.take (String.length s - String.length rest) s.

(** A match that starts exactly at [s]; the result is [group(0)]. *)
Definition match_here (r : regex) (fuel : nat) (prev : option ascii)
    (s : string) : option string :=
  option_map (matched_text s) (run r fuel prev s (fun _ rest => Some rest)).

(** The leftmost match at or after [s]. *)
Fixpoint search_from (r : regex) (fuel : nat) (prev : option ascii)
    (s : string) : option string :=
  match match_here r fuel prev s with
  | Some m => Some m
  | None =>
      match s with
      | "" => None
      | String c rest => search_from r fuel (Some c) rest
      end
  end.

End Matcher.

(** [re.match(pattern, s, flags)]: [group(0)] of the match, if any. *)
Definition re_match (icase : bool) (pattern s : string) : option string :=
  match compile pattern with
  | Some r => match_here icase r (S (String.length s)) None s
  | None => None
  end.

(** [re.search(pattern, s, flags)]: [group(0)] of the leftmost match. *)
Definition re_search (icase : bool) (pattern s : string) : option string :=
  match compile pattern with
  | Some r => search_from icase r (S (String.length s)) None s
  | None => None
  end.

Definition is_some {A} (o : option A) : bool :=
  match o with Some _ => true | None => false end.

End Re.

(* ================================================================= *)
(** ** security/validator.py *)

Module Validator.

Import PyStr.

(** What a call of a validator does: it returns the pair
    [(allowed, reason)], or an exception leaves it. *)
Inductive outcome : Type :=
| Returns (allowed : bool) (reason : string)
| Raises (exn : string).

Definition allowed_of (o : outcome) : option bool :=
  match o with Returns a _ => Some a | Raises _ => None end.

Definition eqs (a b : string) : bool := String.eqb a b.

(** *** Process management *)

Definition allowed_process_names : list string :=
  [ (* Node.js ecosystem *)
    "node"; "npm"; "npx"; "yarn"; "pnpm"; "bun"; "deno"; "vite"; "next";
    "nuxt"; "webpack"; "esbuild"; "rollup"; "tsx"; "ts-node";
    (* Python ecosystem *)
    "python"; "python3"; "flask"; "uvicorn"; "gunicorn"; "django";
    "celery"; "streamlit"; "gradio"; "pytest"; "mypy"; "ruff";
    (* Other languages *)
    "cargo"; "rustc"; "go"; "ruby"; "rails"; "php";
    (* Databases (local dev) *)
    "postgres"; "mysql"; "mongod"; "redis-server" ].

Definition is_flag (token : string) : bool := startswith token "-".

Definition pkill_check (target : string) : outcome :=
  if mem target allowed_process_names then Returns true ""
  else Returns false
         ("pkill only allowed for dev processes: "
          ++ repr_list (firstn 10 (sorted allowed_process_names)) ++ "...").

Definition validate_pkill_command (command_string : string) : outcome :=
  match Shlex.split command_string with
  | None => Returns false "Could not parse pkill command"
  | Some [] => Returns false "Empty pkill command"
  | Some (_ :: rest) =>
      (* Separate flags from arguments *)
      let args := filter (fun token => negb (is_flag token)) rest in
      match args with
      | [] => Returns false "pkill requires a process name"
      | _ =>
          (* The target is typically the last non-flag argument *)
          let target := last args "" in
          (* For -f flag (full command line match), extract the first word *)
          if contains_char " " target then
            match split target with
            | [] => Raises "IndexError"
            | word :: _ => pkill_check word
            end
          else pkill_check target
      end
  end.

Definition validate_kill_command (command_string : string) : outcome :=
  match Shlex.split command_string with
  | None => Returns false "Could not parse kill command"
  | Some tokens =>
      if existsb (fun token => eqs token "-1" || eqs token "0" || eqs token "-0")
           (tl tokens)
      then Returns false
             "kill -1 and kill 0 are not allowed (affects all processes)"
      else Returns true ""
  end.

Definition validate_killall_command (command_string : string) : outcome :=
  validate_pkill_command command_string.

(** *** File system *)

Definition safe_modes : list string :=
  ["+x"; "a+x"; "u+x"; "g+x"; "o+x"; "ug+x";
   "755"; "644"; "700"; "600"; "775"; "664"].

(** The loop of [validate_chmod_command] over [tokens[1:]]: the first
    refused flag, or the mode and the files. *)
Fixpoint chmod_scan (tokens : list string) (mode : option string)
    (files : list string) (skip_next : bool)
    : string + (option string * list string) :=
  match tokens with
  | [] => inr (mode, files)
  | token :: rest =>
      if skip_next then chmod_scan rest mode files false
      else if eqs token "-R" || eqs token "--recursive"
      then chmod_scan rest mode files skip_next
      else if is_flag token
      then inl ("chmod flag '" ++ token ++ "' is not allowed")
      else match mode with
           | None => chmod_scan rest (Some token) files skip_next
           | Some _ => chmod_scan rest mode (files ++ [token])%list skip_next
           end
  end.

Definition validate_chmod_command (command_string : string) : outcome :=
  match Shlex.split command_string with
  | None => Returns false "Could not parse chmod command"
  | Some tokens =>
      if match tokens with
         | [] => true
         | t0 :: _ => negb (eqs t0 "chmod")
         end
      then Returns false "Not a chmod command"
      else
        match chmod_scan (tl tokens) None [] false with
        | inl reason => Returns false reason
        | inr (None, _) => Returns false "chmod requires a mode"
        | inr (Some mode, []) =>
            Returns false "chmod requires at least one file"
        | inr (Some mode, _ :: _) =>
            if negb (mem mode safe_modes)
               && negb (Re.is_some (Re.re_match false "^[ugoa]*\+x$" mode))
            then Returns false
                   ("chmod only allowed with executable modes (+x, 755, etc.), got: "
                    ++ mode)
            else Returns true ""
        end
  end.

Definition dangerous_patterns : list string :=
  [ "^/$";        (* Root *)
    "^\.\.$";     (* Parent directory *)
    "^~$";        (* Home directory *)
    "^\*$";       (* Wildcard only *)
    "^/\*$";      (* Root wildcard *)
    "^\.\./";     (* Escaping current directory *)
    "^/home$";
    "^/usr$";
    "^/etc$";
    "^/var$";
    "^/bin$";
    "^/lib$";
    "^/opt$" ].

Definition rm_dangerous (token : string) : bool :=
  existsb (fun pattern => Re.is_some (Re.re_match false pattern token))
    dangerous_patterns.

(** The loop of [validate_rm_command] over [tokens[1:]]: the first
    target that is refused. *)
Fixpoint rm_scan (tokens : list string) : option string :=
  match tokens with
  | [] => None
  | token :: rest =>
      if is_flag token then rm_scan rest
      else if rm_dangerous token then Some token
      else rm_scan rest
  end.

Definition validate_rm_command (command_string : string) : outcome :=
  match Shlex.split command_string with
  | None => Returns false "Could not parse rm command"
  | Some [] => Returns false "Empty rm command"
  | Some (_ :: rest) =>
      match rm_scan rest with
      | Some token =>
          Returns false ("rm target '" ++ token ++ "' is not allowed for safety")
      | None => Returns true ""
      end
  end.

Definition validate_init_script (command_string : string) : outcome :=
  match Shlex.split command_string with
  | None => Returns false "Could not parse init script command"
  | Some [] => Returns false "Empty command"
  | Some (script :: _) =>
      if eqs script "./init.sh" || endswith script "/init.sh"
      then Returns true ""
      else Returns false ("Only ./init.sh is allowed, got: " ++ script)
  end.

(** *** Git: the secret scan before a commit *)

(** A match of the secret scanner ([scan_secrets]). *)
Record SecretMatch : Type := {
  file_path : string;
  line_number : N;
  pattern_name : string;
  matched_text : string
}.

(** The interface of the scanner module that [validate_git_commit]
    imports: the staged files, the scan of a list of files, and the
    masking of a secret. *)
Record Scanner : Type := {
  get_staged_files : list string;
  scan_files : list string -> list SecretMatch;
  mask_secret : string -> nat -> string
}.

(** [files_with_secrets]: the matches grouped by file, in the order in
    which the files are first seen. *)
Fixpoint group_add (m : SecretMatch)
    (groups : list (string * list SecretMatch))
    : list (string * list SecretMatch) :=
  match groups with
  | [] => [(file_path m, [m])]
  | (f, ms) :: rest =>
      if eqs f (file_path m) then (f, (ms ++ [m])%list) :: rest
      else (f, ms) :: group_add m rest
  end.

Definition group_by_file (matches : list SecretMatch)
    : list (string * list SecretMatch) :=
  fold_left (fun groups m => group_add m groups) matches [].

Definition newline : string := String "010" "".

Definition secret_lines (sc : Scanner) (m : SecretMatch) : list string :=
  [ "  Line " ++ of_N (line_number m) ++ ": " ++ pattern_name m;
    "    Found: " ++ mask_secret sc (matched_text m) 12 ].

Definition file_lines (sc : Scanner) (g : string * list SecretMatch)
    : list string :=
  ("File: " ++ fst g) :: (flat_map (secret_lines sc) (snd g) ++ [""])%list.

Definition action_lines : list string :=
  [ "ACTION REQUIRED:";
    "";
    "1. Move secrets to environment variables:";
    "   - Add the secret value to .env (create if needed)";
    "   - Update the code to use os.environ.get('VAR_NAME') or process.env.VAR_NAME";
    "   - Add the variable name (not value) to .env.example";
    "";
    "2. Example fix:";
    "   BEFORE: api_key = 'sk-abc123...'";
    "   AFTER:  api_key = os.environ.get('API_KEY')";
    "";
    "3. If this is a FALSE POSITIVE (test data, example, mock):";
    "   - Add the file pattern to .secretsignore";
    "   - Example: echo 'tests/fixtures/' >> .secretsignore";
    "";
    "After fixing, stage the changes with 'git add .' and retry the commit." ].

Definition secrets_message (sc : Scanner) (matches : list SecretMatch)
    : string :=
  String.concat newline
    ([ "SECRETS DETECTED - COMMIT BLOCKED";
       "";
       "The following potential secrets were found in staged files:";
       "" ]
     ++ flat_map (file_lines sc) (group_by_file matches)
     ++ action_lines)%list.

(** [scan_secrets] is [None] when the import of the scanner fails. *)
Definition validate_git_commit (scan_secrets : option Scanner)
    (command_string : string) : outcome :=
  match Shlex.split command_string with
  | None => Returns false "Could not parse git command"
  | Some tokens =>
      match tokens with
      | t0 :: t1 :: _ =>
          if negb (eqs t0 "git") then Returns true ""
          else if negb (eqs t1 "commit") then Returns true ""
          else
            match scan_secrets with
            | None => Returns true ""
            | Some sc =>
                match get_staged_files sc with
                | [] => Returns true ""
                | staged_files =>
                    match scan_files sc staged_files with
                    | [] => Returns true ""
                    | matches => Returns false (secrets_message sc matches)
                    end
                end
            end
      | _ => Returns true ""
      end
  end.

(** *** Databases *)

Definition DESTRUCTIVE_SQL_PATTERNS : list string :=
  [ "\bDROP\s+(DATABASE|SCHEMA|TABLE|INDEX|VIEW|FUNCTION|PROCEDURE|TRIGGER)\b";
    "\bTRUNCATE\s+(TABLE\s+)?\w+";
    "\bDELETE\s+FROM\s+\w+\s*(;|$)";
    "\bDROP\s+ALL\b";
    "\bDESTROY\b" ].

Definition SAFE_DATABASE_PATTERNS : list string :=
  [ "^test"; "_test$"; "^dev"; "_dev$"; "^local"; "_local$"; "^tmp";
    "_tmp$"; "^temp"; "_temp$"; "^scratch"; "^sandbox"; "^mock"; "_mock$" ].

Definition _is_safe_database_name (db_name : string) : bool :=
  let db_lower := lower db_name in
  existsb (fun pattern => Re.is_some (Re.re_search false pattern db_lower))
    SAFE_DATABASE_PATTERNS.

(** The first pattern that matches decides the matched text. *)
Fixpoint first_search (icase : bool) (patterns : list string) (s : string)
    : option (string * string) :=
  match patterns with
  | [] => None
  | pattern :: rest =>
      match Re.re_search icase pattern s with
      | Some m => Some (pattern, m)
      | None => first_search icase rest s
      end
  end.

Definition _contains_destructive_sql (sql : string) : bool * string :=
  let sql_upper := upper sql in
  match first_search true DESTRUCTIVE_SQL_PATTERNS sql_upper with
  | Some (_, m) => (true, m)
  | None => (false, "")
  end.

(** The loop shared by [dropdb] and [dropuser]: the last token that is
    neither a flag nor the argument of a flag in [with_arg]. *)
Fixpoint last_name (with_arg : list string) (tokens : list string)
    (name : option string) (skip_next : bool) : option string :=
  match tokens with
  | [] => name
  | token :: rest =>
      if skip_next then last_name with_arg rest name false
      else if mem token with_arg then last_name with_arg rest name true
      else if is_flag token then last_name with_arg rest name skip_next
      else last_name with_arg rest (Some token) skip_next
  end.

Definition connection_flags : list string :=
  ["-h"; "--host"; "-p"; "--port"; "-U"; "--username"; "-w";
   "--no-password"; "-W"; "--password"].

Definition validate_dropdb_command (command_string : string) : outcome :=
  match Shlex.split command_string with
  | None => Returns false "Could not parse dropdb command"
  | Some [] => Returns false "Empty dropdb command"
  | Some (_ :: rest) =>
      match last_name (connection_flags ++ ["--maintenance-db"])%list
              rest None false with
      | None | Some "" => Returns false "dropdb requires a database name"
      | Some db_name =>
          if _is_safe_database_name db_name then Returns true ""
          else Returns false
                 ("dropdb '" ++ db_name
                  ++ "' blocked for safety. Only test/dev databases can be dropped autonomously. "
                  ++ "Safe patterns: test*, *_test, dev*, *_dev, local*, tmp*, temp*, scratch*, sandbox*, mock*")
      end
  end.

Definition safe_user_patterns : list string :=
  ["^test"; "_test$"; "^dev"; "_dev$"; "^tmp"; "^temp"; "^mock"].

Definition validate_dropuser_command (command_string : string) : outcome :=
  match Shlex.split command_string with
  | None => Returns false "Could not parse dropuser command"
  | Some [] => Returns false "Empty dropuser command"
  | Some (_ :: rest) =>
      match last_name connection_flags rest None false with
      | None | Some "" => Returns false "dropuser requires a username"
      | Some username =>
          let username_lower := lower username in
          if existsb
               (fun pattern =>
                  Re.is_some (Re.re_search false pattern username_lower))
               safe_user_patterns
          then Returns true ""
          else Returns false
                 ("dropuser '" ++ username
                  ++ "' blocked for safety. Only test/dev users can be dropped autonomously. "
                  ++ "Safe patterns: test*, *_test, dev*, *_dev, tmp*, temp*, mock*")
      end
  end.

(** The [-c] loop of [validate_psql_command], over all the tokens. *)
Fixpoint psql_sql_command (tokens : list string) : option string :=
  match tokens with
  | [] => None
  | token :: rest =>
      match rest with
      | next :: _ =>
          if eqs token "-c" then Some next
          else if startswith token "-c" then Some (drop 2 token)
          else psql_sql_command rest
      | [] =>
          if startswith token "-c" then Some (drop 2 token)
          else psql_sql_command rest
      end
  end.

(** What both SQL clients do with the inline SQL they found. *)
Definition check_sql (client : string) (sql_command : option string)
    : outcome :=
  match sql_command with
  | Some sql =>
      if truthy sql then
        let (is_destructive, matched) := _contains_destructive_sql sql in
        if is_destructive
        then Returns false
               (client ++ " command contains destructive SQL: '" ++ matched
                ++ "'. "
                ++ "DROP/TRUNCATE/DELETE operations require manual confirmation.")
        else Returns true ""
      else Returns true ""
  | None => Returns true ""
  end.

Definition validate_psql_command (command_string : string) : outcome :=
  match Shlex.split command_string with
  | None => Returns false "Could not parse psql command"
  | Some [] => Returns false "Empty psql command"
  | Some tokens => check_sql "psql" (psql_sql_command tokens)
  end.

(** The [-e] / [--execute] loop of [validate_mysql_command]. *)
Fixpoint mysql_sql_command (tokens : list string) : option string :=
  match tokens with
  | [] => None
  | token :: rest =>
      match rest with
      | next :: _ =>
          if eqs token "-e" then Some next
          else if startswith token "-e" then Some (drop 2 token)
          else if eqs token "--execute" then Some next
          else mysql_sql_command rest
      | [] =>
          if startswith token "-e" then Some (drop 2 token)
          else mysql_sql_command rest
      end
  end.

Definition validate_mysql_command (command_string : string) : outcome :=
  match Shlex.split command_string with
  | None => Returns false "Could not parse mysql command"
  | Some [] => Returns false "Empty mysql command"
  | Some tokens => check_sql "mysql" (mysql_sql_command tokens)
  end.

Definition dangerous_redis_commands : list string :=
  [ "FLUSHALL";     (* Deletes ALL data from ALL databases *)
    "FLUSHDB";      (* Deletes all data from current database *)
    "DEBUG";        (* Can crash the server *)
    "SHUTDOWN";     (* Shuts down the server *)
    "SLAVEOF";      (* Can change replication *)
    "REPLICAOF";    (* Can change replication *)
    "CONFIG";       (* Can modify server config *)
    "BGSAVE";       (* Can cause disk issues *)
    "BGREWRITEAOF"; (* Can cause disk issues *)
    "CLUSTER" ].    (* Can modify cluster topology *)

(** The loop of [validate_redis_cli_command]: the first token that is
    neither a flag nor the argument of a flag. *)
Fixpoint redis_command (tokens : list string) (skip_next : bool)
    : option string :=
  match tokens with
  | [] => None
  | token :: rest =>
      if skip_next then redis_command rest false
      else if mem token ["-h"; "-p"; "-a"; "-n"; "--pass"; "--user"; "-u"]
      then redis_command rest true
      else if is_flag token then redis_command rest skip_next
      else Some token
  end.

Definition validate_redis_cli_command (command_string : string) : outcome :=
  match Shlex.split command_string with
  | None => Returns false "Could not parse redis-cli command"
  | Some [] => Returns false "Empty redis-cli command"
  | Some (_ :: rest) =>
      match redis_command rest false with
      | Some token =>
          let redis_cmd := upper token in
          if mem redis_cmd dangerous_redis_commands
          then Returns false
                 ("redis-cli command '" ++ redis_cmd
                  ++ "' is blocked for safety. "
                  ++ "Destructive Redis operations require manual confirmation.")
          else Returns true ""
      | None => Returns true ""
      end
  end.

Definition dangerous_mongo_patterns : list string :=
  [ "\.dropDatabase\s*\(";
    "\.drop\s*\(";
    "\.deleteMany\s*\(\s*\{\s*\}\s*\)";  (* deletes all *)
    "\.remove\s*\(\s*\{\s*\}\s*\)";      (* deletes all (deprecated) *)
    "db\.dropAllUsers\s*\(";
    "db\.dropAllRoles\s*\(" ].

(** The [--eval] loop of [validate_mongosh_command]. *)
Fixpoint eval_script (tokens : list string) : option string :=
  match tokens with
  | [] => None
  | token :: rest =>
      match rest with
      | next :: _ => if eqs token "--eval" then Some next else eval_script rest
      | [] => None
      end
  end.

Definition validate_mongosh_command (command_string : string) : outcome :=
  match Shlex.split command_string with
  | None => Returns false "Could not parse mongosh command"
  | Some [] => Returns false "Empty mongosh command"
  | Some tokens =>
      match eval_script tokens with
      | Some script =>
          if truthy script then
            match first_search true dangerous_mongo_patterns script with
            | Some (pattern, _) =>
                Returns false
                  ("mongosh command contains destructive operation matching '"
                   ++ pattern ++ "'. "
                   ++ "Database drop/delete operations require manual confirmation.")
            | None => Returns true ""
            end
          else Returns true ""
      | None => Returns true ""
      end
  end.

Definition dangerous_mysqladmin_ops : list string :=
  ["drop"; "shutdown"; "kill"].

Definition validate_mysqladmin_command (command_string : string) : outcome :=
  match Shlex.split command_string with
  | None => Returns false "Could not parse mysqladmin command"
  | Some [] => Returns false "Empty mysqladmin command"
  | Some (_ :: rest) =>
      match find (fun token => mem (lower token) dangerous_mysqladmin_ops) rest with
      | Some token =>
          Returns false
            ("mysqladmin '" ++ token ++ "' is blocked for safety. "
             ++ "Destructive operations require manual confirmation.")
      | None => Returns true ""
      end
  end.

(** *** The registry *)

(** [VALIDATORS]: command names and their validation functions, in the
    order of the dictionary literal. *)
Definition VALIDATORS (scan_secrets : option Scanner)
    : list (string * (string -> outcome)) :=
  [ ("pkill", validate_pkill_command);
    ("kill", validate_kill_command);
    ("killall", validate_killall_command);
    ("chmod", validate_chmod_command);
    ("rm", validate_rm_command);
    ("init.sh", validate_init_script);
    ("git", validate_git_commit scan_secrets);
    (* Database validators *)
    ("dropdb", validate_dropdb_command);
    ("dropuser", validate_dropuser_command);
    ("psql", validate_psql_command);
    ("mysql", validate_mysql_command);
    ("mariadb", validate_mysql_command);
    ("redis-cli", validate_redis_cli_command);
    ("mongosh", validate_mongosh_command);
    ("mongo", validate_mongosh_command);
    ("mysqladmin", validate_mysqladmin_command) ].

End Validator.

(* ================================================================= *)
(** ** MD5 ([hashlib.md5]), on 32-bit words kept in [Z] *)

Module Md5.

Open Scope Z_scope.

Definition wrap (x : Z) : Z := Z.land x 0xffffffff.

Definition rotl (x c : Z) : Z :=
  Z.lor (wrap (Z.shiftl x c)) (Z.shiftr x (32 - c)).

Definition lnot32 (x : Z) : Z := Z.lxor x 0xffffffff.

(** Per-round shift amounts. *)
Definition shifts : list Z :=
  [ 7; 12; 17; 22; 7; 12; 17; 22; 7; 12; 17; 22; 7; 12; 17; 22;
    5; 9; 14; 20; 5; 9; 14; 20; 5; 9; 14; 20; 5; 9; 14; 20;
    4; 11; 16; 23; 4; 11; 16; 23; 4; 11; 16; 23; 4; 11; 16; 23;
    6; 10; 15; 21; 6; 10; 15; 21; 6; 10; 15; 21; 6; 10; 15; 21 ].

(** The integer parts of the sines, times two to the 32. *)
Definition K : list Z :=
  [ 0xd76aa478; 0xe8c7b756; 0x242070db; 0xc1bdceee;
    0xf57c0faf; 0x4787c62a; 0xa8304613; 0xfd469501;
    0x698098d8; 0x8b44f7af; 0xffff5bb1; 0x895cd7be;
    0x6b901122; 0xfd987193; 0xa679438e; 0x49b40821;
    0xf61e2562; 0xc040b340; 0x265e5a51; 0xe9b6c7aa;
    0xd62f105d; 0x02441453; 0xd8a1e681; 0xe7d3fbc8;
    0x21e1cde6; 0xc33707d6; 0xf4d50d87; 0x455a14ed;
    0xa9e3e905; 0xfcefa3f8; 0x676f02d9; 0x8d2a4c8a;
    0xfffa3942; 0x8771f681; 0x6d9d6122; 0xfde5380c;
    0xa4beea44; 0x4bdecfa9; 0xf6bb4b60; 0xbebfbc70;
    0x289b7ec6; 0xeaa127fa; 0xd4ef3085; 0x04881d05;
    0xd9d4d039; 0xe6db99e5; 0x1fa27cf8; 0xc4ac5665;
    0xf4292244; 0x432aff97; 0xab9423a7; 0xfc93a039;
    0x655b59c3; 0x8f0ccc92; 0xffeff47d; 0x85845dd1;
    0x6fa87e4f; 0xfe2ce6e0; 0xa3014314; 0x4e0811a1;
    0xf7537e82; 0xbd3af235; 0x2ad7d2bb; 0xeb86d391 ].

Definition state : Type := (Z * Z * Z * Z)%type.

Definition init : state :=
  (0x67452301, 0xefcdab89, 0x98badcfe, 0x10325476).

Definition nthZ (l : list Z) (i : Z) : Z := nth (Z.to_nat i) l 0.

(** One of the 64 operations on the words [M] of a block. *)
Definition step (M : list Z) (st : state) (i : Z) : state :=
  let '(a, b, c, d) := st in
  let '(f, g) :=
    if i <? 16 then (Z.lor (Z.land b c) (Z.land (lnot32 b) d), i)
    else if i <? 32
    then (Z.lor (Z.land d b) (Z.land (lnot32 d) c), (5 * i + 1) mod 16)
    else if i <? 48 then (Z.lxor b (Z.lxor c d), (3 * i + 5) mod 16)
    else (Z.lxor c (Z.lor b (lnot32 d)), (7 * i) mod 16) in
  let f' := wrap (f + a + nthZ K i + nthZ M g) in
  (d, wrap (b + rotl f' (nthZ shifts i)), b, c).

Definition rounds : list Z := map Z.of_nat (seq 0 64).

(** Little-endian 32-bit words of a list of byte values. *)
Fixpoint words (bs : list Z) : list Z :=
  match bs with
  | b0 :: b1 :: b2 :: b3 :: rest =>
      (b0 + Z.shiftl b1 8 + Z.shiftl b2 16 + Z.shiftl b3 24) :: words rest
  | _ => []
  end.

Definition block (st : state) (bs : list Z) : state :=
  let '(a0, b0, c0, d0) := st in
  let '(a, b, c, d) := fold_left (step (words bs)) rounds st in
  (wrap (a0 + a), wrap (b0 + b), wrap (c0 + c), wrap (d0 + d)).

(** The blocks of 64 bytes, one per unit of [fuel]. *)
Fixpoint blocks (fuel : nat) (st : state) (bs : list Z) : state :=
  match fuel, bs with
  | S f, _ :: _ => blocks f (block st (firstn 64 bs)) (skipn 64 bs)
  | _, _ => st
  end.

Definition le_bytes (n : nat) (x : Z) : list Z :=
  map (fun k => Z.land (Z.shiftr x (8 * Z.of_nat k)) 0xff) (seq 0 n).

(** The message, a one bit, zeros up to 56 modulo 64, and the length in
    bits on 64 bits. *)
Definition pad (bs : list Z) : list Z :=
  let len := Z.of_nat (List.length bs) in
  let zeros := Z.to_nat ((55 - len) mod 64) in
  (bs ++ [0x80] ++ repeat 0 zeros ++ le_bytes 8 (Z.land (8 * len) 0xffffffffffffffff))%list.

Definition digest_state (bs : list Z) : state :=
  let p := pad bs in blocks (List.length p) init p.

Definition hex_digit (x : Z) : ascii :=
  if x <? 10 then ascii_of_nat (48 + Z.to_nat x)
  else ascii_of_nat (87 + Z.to_nat x).

Definition hex_byte (x : Z) (tail : string) : string :=
  String (hex_digit (Z.shiftr x 4)) (String (hex_digit (Z.land x 0xf)) tail).

Definition hex_word (w : Z) (tail : string) : string :=
  fold_right hex_byte tail (le_bytes 4 w).

Definition of_bytes (bs : list Byte.byte) : list Z :=
  map (fun b => Z.of_N (Byte.to_N b)) bs.

(** [hashlib.md5(data).hexdigest()] *)
Definition hexdigest (data : list Byte.byte) : string :=
  let '(a, b, c, d) := digest_state (of_bytes data) in
  hex_word a (hex_word b (hex_word c (hex_word d ""))).

(** [s.encode()] for a string of code points below 128. *)
Definition encode (s : string) : list Byte.byte := list_byte_of_string s.

End Md5.

(* ================================================================= *)
(** ** review/state.py: the human-approval record *)

Module Review.

(** Modelled from the spec: the record [ReviewState] of review/state.py
    (section 3 and the schema of review_state.json in section 6). *)
Record ReviewState : Type := {
  approved : bool;
  approved_by : string;
  approved_at : string;
  feedback : list string;
  spec_hash : string;
  review_count : nat
}.

(** Modelled from the spec: the state of review_state.json on disk,
    which [load] reads: absent, unreadable (unparsable or empty), or a
    stored record. *)
Inductive StateFile : Type :=
| Missing
| Unreadable
| Stored (st : ReviewState).

(** The files of a spec directory that the review state machine looks
    at; a file is its bytes, or [None] when it does not exist. *)
Record SpecDir : Type := {
  spec_md : option (list Byte.byte);
  implementation_plan_json : option (list Byte.byte);
  review_state_json : StateFile
}.

(** Modelled from the spec: the defaults of a new [ReviewState]
    (unapproved, zero counters). *)
Definition default_state : ReviewState :=
  {| approved := false; approved_by := ""; approved_at := "";
     feedback := []; spec_hash := ""; review_count := 0 |}.

(** Modelled from the spec: [_compute_file_hash] of review/state.py,
    the MD5 digest of a file, and the empty string for a missing file. *)
Definition _compute_file_hash (file : option (list Byte.byte)) : string :=
  match file with
  | None => ""
  | Some content => Md5.hexdigest content
  end.

(** Modelled from the spec: [_compute_spec_hash] of review/state.py, a
    digest combining the digests of spec.md and of
    implementation_plan.json. *)
Definition _compute_spec_hash (spec_dir : SpecDir) : string :=
  let spec_hash := _compute_file_hash (spec_md spec_dir) in
  let plan_hash := _compute_file_hash (implementation_plan_json spec_dir) in
  Md5.hexdigest (Md5.encode (spec_hash ++ ":" ++ plan_hash)).

(** Modelled from the spec: [ReviewState.load]; never raises. *)
Definition load (spec_dir : SpecDir) : ReviewState :=
  match review_state_json spec_dir with
  | Stored st => st
  | Missing | Unreadable => default_state
  end.

(** Modelled from the spec: [ReviewState.save], a whole-file overwrite. *)
Definition save (self : ReviewState) (spec_dir : SpecDir) : SpecDir :=
  {| spec_md := spec_md spec_dir;
     implementation_plan_json := implementation_plan_json spec_dir;
     review_state_json := Stored self |}.

Definition save_if (auto_save : bool) (self : ReviewState)
    (spec_dir : SpecDir) : ReviewState * SpecDir :=
  (self, if auto_save then save self spec_dir else spec_dir).

(** Modelled from the spec: [ReviewState.approve] of review/state.py;
    [now] is the current timestamp. *)
Definition approve (self : ReviewState) (spec_dir : SpecDir)
    (approved_by : string) (now : string) (auto_save : bool)
    : ReviewState * SpecDir :=
  save_if auto_save
    {| approved := true;
       approved_by := approved_by;
       approved_at := now;
       feedback := feedback self;
       spec_hash := _compute_spec_hash spec_dir;
       review_count := review_count self + 1 |}
    spec_dir.

(** Modelled from the spec: [ReviewState.reject] of review/state.py. *)
Definition reject (self : ReviewState) (spec_dir : SpecDir)
    (auto_save : bool) : ReviewState * SpecDir :=
  save_if auto_save
    {| approved := false;
       approved_by := "";
       approved_at := "";
       feedback := feedback self;
       spec_hash := "";
       review_count := review_count self + 1 |}
    spec_dir.

(** Modelled from the spec: [ReviewState.invalidate] of review/state.py. *)
Definition invalidate (self : ReviewState) (spec_dir : SpecDir)
    (auto_save : bool) : ReviewState * SpecDir :=
  save_if auto_save
    {| approved := false;
       approved_by := approved_by self;
       approved_at := "";
       feedback := feedback self;
       spec_hash := "";
       review_count := review_count self |}
    spec_dir.

(** Modelled from the spec: [ReviewState.is_approved]. *)
Definition is_approved (self : ReviewState) : bool := approved self.

(** Modelled from the spec: [ReviewState.is_approval_valid] of
    review/state.py. *)
Definition is_approval_valid (self : ReviewState) (spec_dir : SpecDir)
    : bool :=
  if negb (approved self) then false
  else if String.eqb (spec_hash self) "" then true
  else String.eqb (spec_hash self) (_compute_spec_hash spec_dir).

(** Modelled from the spec: [ReviewState.add_feedback]; the entry is
    the text behind its timestamp. *)
Definition add_feedback (self : ReviewState) (text : string)
    (spec_dir : SpecDir) (now : string) (auto_save : bool)
    : ReviewState * SpecDir :=
  save_if auto_save
    {| approved := approved self;
       approved_by := approved_by self;
       approved_at := approved_at self;
       feedback := List.app (feedback self) ["[" ++ now ++ "] " ++ text];
       spec_hash := spec_hash self;
       review_count := review_count self |}
    spec_dir.

(** A write of new bytes to spec.md or to implementation_plan.json. *)
Definition write_spec_md (content : list Byte.byte) (d : SpecDir) : SpecDir :=
  {| spec_md := Some content;
     implementation_plan_json := implementation_plan_json d;
     review_state_json := review_state_json d |}.

Definition write_plan (content : list Byte.byte) (d : SpecDir) : SpecDir :=
  {| spec_md := spec_md d;
     implementation_plan_json := Some content;
     review_state_json := review_state_json d |}.

End Review.

(* ================================================================= *)
(** ** State passing

    The orchestration code reads and writes files and calls agents; it
    is written here as functions from a world to a result and the next
    world. *)

Module St.

Definition M (W A : Type) : Type := W -> A * W.

Definition ret {W A} (a : A) : M W A := fun w => (a, w).

Definition bind {W A B} (m : M W A) (k : A -> M W B) : M W B :=
  fun w => let (a, w') := m w in k a w'.

Definition get {W} : M W W := fun w => (w, w).

Definition modify {W} (f : W -> W) : M W unit := fun w => (tt, f w).

Definition when {W} (b : bool) (m : M W unit) : M W unit :=
  if b then m else ret tt.

End St.

Declare Scope st_scope.
Delimit Scope st_scope with st.
Notation "x <- m ;; k" := (St.bind m (fun x => k))
  (at level 61, m at next level, right associativity) : st_scope.
Notation "' p <- m ;; k" := (St.bind m (fun p => k))
  (at level 61, p pattern, m at next level, right associativity) : st_scope.
Notation "m ;;; k" := (St.bind m (fun _ => k))
  (at level 61, right associativity) : st_scope.

(* ================================================================= *)
(** ** qa/report.py, qa/criteria.py, qa/reviewer.py, qa/fixer.py and
       qa/loop.py *)

Module QA.

Import St.
Open Scope st_scope.

(** An issue of a QA report: at least a title; file, line and type are
    optional, and an error record carries a description. *)
Record Issue : Type := {
  title : option string;
  description : option string;
  file : option string;
  line : option N;
  issue_type : option string
}.

(** One entry of [qa_iteration_history].  The duration and the
    timestamp of an entry are left out. *)
Record IterationRecord : Type := {
  iteration : nat;
  status : string;
  issues : list Issue
}.

(** [qa_signoff] of implementation_plan.json. *)
Record Signoff : Type := {
  signoff_status : string;
  qa_session : nat;
  issues_found : list Issue;
  ready_for_qa_revalidation : bool
}.

(** The QA part of implementation_plan.json. *)
Record Plan : Type := {
  qa_signoff : option Signoff;
  qa_iteration_history : list IterationRecord
}.

Definition MAX_QA_ITERATIONS : nat := 50.

(** *** qa/report.py: recurring issues *)

Definition RECURRING_ISSUE_THRESHOLD : nat := 3.
Definition ISSUE_SIMILARITY_THRESHOLD : Q := 8 # 10.

Definition or_empty (o : option string) : string :=
  match o with Some s => s | None => "" end.

Definition strip_prefix (prefix title : string) : string :=
  if PyStr.startswith title prefix
  then PyStr.strip (PyStr.drop (String.length prefix) title) else title.

(** Modelled from the spec: [_normalize_issue_key] of qa/report.py,
    which strips a diagnostic prefix word from the lower-cased title
    and combines it with file and line. *)
Definition _normalize_issue_key (issue : Issue) : string :=
  let title :=
    fold_left (fun t prefix => strip_prefix prefix t)
      ["error:"; "issue:"; "bug:"; "fix:"]
      (PyStr.strip (PyStr.lower (or_empty (title issue)))) in
  title ++ "|" ++ PyStr.lower (or_empty (file issue)) ++ "|"
  ++ match line issue with Some n => PyStr.of_N n | None => "" end.

Section Recurrence.

(** The similarity ratio of two normalized keys, a number between 0
    and 1 computed by the sequence matcher of the standard library. *)
Variable key_similarity : string -> string -> Q.

(** Modelled from the spec: [_issue_similarity] of qa/report.py. *)
Definition _issue_similarity (issue1 issue2 : Issue) : Q :=
  key_similarity (_normalize_issue_key issue1) (_normalize_issue_key issue2).

(** Two issues are the same when their similarity exceeds the
    threshold. *)
Definition same_issue (issue1 issue2 : Issue) : bool :=
  negb (Qle_bool (_issue_similarity issue1 issue2) ISSUE_SIMILARITY_THRESHOLD).

Definition historical_issues (history : list IterationRecord)
    : list Issue :=
  flat_map issues history.

(** The current occurrence plus the occurrences in the history. *)
Definition occurrence_count (current : Issue)
    (history : list IterationRecord) : nat :=
  1 + List.length (filter (same_issue current) (historical_issues history)).

(** Modelled from the spec: [has_recurring_issues] of qa/report.py.
    An issue recurs when its occurrences, the current one and the
    historical ones together, reach the threshold; a recurring issue
    is returned with its [occurrence_count]. *)
Definition has_recurring_issues (current_issues : list Issue)
    (history : list IterationRecord) (threshold : nat)
    : bool * list (Issue * nat) :=
  let recurring :=
    flat_map
      (fun issue =>
         let n := occurrence_count issue history in
         if threshold <=? n then [(issue, n)] else [])
      current_issues in
  (negb (Nat.eqb (List.length recurring) 0), recurring).

End Recurrence.

(** *** The world of the QA loop *)

Section Loop.

(** Everything on disk and outside the process that the loop does not
    read itself: the project, the agent runtime, the issue tracker. *)
Variable Ext : Type.

Record Disk : Type := {
  plan : Plan;
  fix_request_file : bool;       (* QA_FIX_REQUEST.md exists *)
  outside : Ext
}.

(** What the loop does besides changing the plan. *)
Inductive Event : Type :=
| ReviewerSession (qa_session : nat)
| FixerSession (fix_session : nat)
| ManualTestPlan
| Escalation (recurring : list (Issue * nat)) (iteration : nat)
| LinearStarted
| LinearApproved
| LinearRejected (issues_count iteration : nat)
| LinearMaxIterations (iteration : nat).

Record World : Type := {
  disk : Disk;
  events : list Event
}.

Definition emit (e : Event) : M World unit :=
  modify (fun w => {| disk := disk w; events := (events w ++ [e])%list |}).

Definition with_plan (f : Plan -> Plan) : M World unit :=
  modify (fun w =>
    {| disk := {| plan := f (plan (disk w));
                  fix_request_file := fix_request_file (disk w);
                  outside := outside (disk w) |};
       events := events w |}).

(** The collaborators of the loop.  An agent session changes the disk
    as it pleases and ends with its response text ([inl]) or with an
    exception ([inr]). *)
Variable key_similarity : string -> string -> Q.
Variable is_build_complete : Disk -> bool.
Variable is_no_test_project : Disk -> bool.
Variable linear_task_id : Disk -> option string.
Variable reviewer_agent : nat -> Disk -> (string + string) * Disk.
Variable fixer_agent : nat -> Disk -> (string + string) * Disk.

Definition run_agent (agent : Disk -> (string + string) * Disk) (e : Event)
    : M World (string + string) :=
  fun w =>
    let (r, d) := agent (disk w) in
    (r, {| disk := d; events := (events w ++ [e])%list |}).

(** *** qa/criteria.py *)

(** Modelled from the spec: [get_qa_signoff_status] of qa/criteria.py,
    the [qa_signoff] field of the plan. *)
Definition get_qa_signoff_status : M World (option Signoff) :=
  w <- get ;; ret (qa_signoff (plan (disk w))).

(** Modelled from the spec: [is_qa_approved] of qa/criteria.py, which
    holds when the status of the sign-off is approved. *)
Definition is_qa_approved : M World bool :=
  s <- get_qa_signoff_status ;;
  ret match s with
      | Some s => String.eqb (signoff_status s) "approved"
      | None => false
      end.

(** Modelled from the spec: [get_qa_iteration_count] of
    qa/criteria.py, the session number of the sign-off. *)
Definition get_qa_iteration_count : M World nat :=
  s <- get_qa_signoff_status ;;
  ret match s with Some s => qa_session s | None => 0 end.

(** *** qa/report.py: the iteration history *)

(** Modelled from the spec: [get_iteration_history] of qa/report.py. *)
Definition get_iteration_history : M World (list IterationRecord) :=
  w <- get ;; ret (qa_iteration_history (plan (disk w))).

(** Modelled from the spec: [record_iteration] of qa/report.py, which
    appends one entry to the history of the plan. *)
Definition record_iteration (iteration : nat) (status : string)
    (issues : list Issue) : M World unit :=
  with_plan (fun p =>
    {| qa_signoff := qa_signoff p;
       qa_iteration_history :=
         (qa_iteration_history p
          ++ [{| iteration := iteration; status := status;
                 issues := issues |}])%list |}).

(** Modelled from the spec: [create_manual_test_plan] and
    [escalate_to_human] of qa/report.py write a document each. *)
Definition create_manual_test_plan : M World unit := emit ManualTestPlan.

Definition escalate_to_human (recurring : list (Issue * nat))
    (iteration : nat) : M World unit :=
  emit (Escalation recurring iteration).

(** *** qa/reviewer.py and qa/fixer.py *)

Definition run_qa_agent_session (qa_session : nat)
    : M World (string * string) :=
  r <- run_agent (reviewer_agent qa_session) (ReviewerSession qa_session) ;;
  match r with
  | inl response_text =>
      status <- get_qa_signoff_status ;;
      ret match status with
          | Some s =>
              if String.eqb (signoff_status s) "approved"
              then ("approved", response_text)
              else if String.eqb (signoff_status s) "rejected"
              then ("rejected", response_text)
              else ("error", "QA agent did not update implementation_plan.json")
          | None =>
              ("error", "QA agent did not update implementation_plan.json")
          end
  | inr e => ret ("error", e)
  end.

Definition run_qa_fixer_session (fix_session : nat)
    : M World (string * string) :=
  w <- get ;;
  if negb (fix_request_file (disk w))
  then ret ("error", "QA_FIX_REQUEST.md not found")
  else
    r <- run_agent (fixer_agent fix_session) (FixerSession fix_session) ;;
    match r with
    | inl response_text => ret ("fixed", response_text)
    | inr e => ret ("error", e)
    end.

(** *** qa/loop.py *)

Definition error_issue (title description : string) : Issue :=
  {| title := Some title; description := Some description;
     file := None; line := None; issue_type := None |}.

(** The code after the [while] loop: the run ends without approval. *)
Definition incomplete (linear : bool) (qa_iteration : nat) : M World bool :=
  when linear (emit (LinearMaxIterations qa_iteration)) ;;;
  ret false.

(** The [while] loop; [fuel] bounds the number of iterations. *)
Fixpoint qa_loop (fuel : nat) (linear : bool) (qa_iteration : nat)
    : M World bool :=
  match fuel with
  | O => incomplete linear qa_iteration
  | S fuel' =>
      if negb (qa_iteration <? MAX_QA_ITERATIONS)
      then incomplete linear qa_iteration
      else
        let qa_iteration := qa_iteration + 1 in
        '(status, response) <- run_qa_agent_session qa_iteration ;;
        if String.eqb status "approved" then
          record_iteration qa_iteration "approved" [] ;;;
          when linear (emit LinearApproved) ;;;
          ret true
        else if String.eqb status "rejected" then
          qa_status <- get_qa_signoff_status ;;
          let current_issues :=
            match qa_status with
            | Some s => issues_found s
            | None => []
            end in
          record_iteration qa_iteration "rejected" current_issues ;;;
          history <- get_iteration_history ;;
          let (has_recurring, recurring_issues) :=
            has_recurring_issues key_similarity current_issues history
              RECURRING_ISSUE_THRESHOLD in
          if has_recurring then
            escalate_to_human recurring_issues qa_iteration ;;;
            when linear (emit (LinearMaxIterations qa_iteration)) ;;;
            ret false
          else
            when linear
              (emit (LinearRejected (List.length current_issues) qa_iteration)) ;;;
            if MAX_QA_ITERATIONS <=? qa_iteration
            then incomplete linear qa_iteration
            else
              '(fix_status, fix_response) <- run_qa_fixer_session qa_iteration ;;
              if String.eqb fix_status "error" then
                record_iteration qa_iteration "error"
                  [error_issue "Fixer error" fix_response] ;;;
                incomplete linear qa_iteration
              else qa_loop fuel' linear qa_iteration
        else if String.eqb status "error" then
          record_iteration qa_iteration "error"
            [error_issue "QA error" response] ;;;
          qa_loop fuel' linear qa_iteration
        else qa_loop fuel' linear qa_iteration
  end.

Definition run_qa_validation_loop : M World bool :=
  w <- get ;;
  (* Verify build is complete *)
  if negb (is_build_complete (disk w)) then ret false
  else
    (* Check if already approved *)
    approved <- is_qa_approved ;;
    if approved then ret true
    else
      (* Check for no-test projects *)
      when (is_no_test_project (disk w)) create_manual_test_plan ;;;
      (* Check Linear integration status *)
      let linear :=
        match linear_task_id (disk w) with
        | Some task_id => PyStr.truthy task_id
        | None => false
        end in
      when linear (emit LinearStarted) ;;;
      qa_iteration <- get_qa_iteration_count ;;
      qa_loop MAX_QA_ITERATIONS linear qa_iteration.

End Loop.

End QA.

(* ================================================================= *)
(** ** spec/phases.py: the phase executor *)

Module Phases.

Import St.
Open Scope st_scope.

(** *** The spec directory *)

(** JSON values, as far as the phases look into them. *)
Inductive Json : Type :=
| JNull
| JBool (b : bool)
| JNum (n : N)
| JStr (s : string)
| JList (l : list string).

(** The content of a file: a JSON object, another JSON value, or text
    that is not JSON. *)
Inductive Content : Type :=
| Object (fields : list (string * Json))
| NonObject
| Text.

(** A directory maps a file name to the content of the file, if the
    file exists. *)
Definition Dir : Type := string -> option Content.

Definition file_exists (d : Dir) (name : string) : bool :=
  match d name with Some _ => true | None => false end.

Definition write (name : string) (c : Content) (d : Dir) : Dir :=
  fun n => if String.eqb n name then Some c else d n.

Fixpoint lookup (key : string) (fields : list (string * Json)) : option Json :=
  match fields with
  | [] => None
  | (k, v) :: rest => if String.eqb k key then Some v else lookup key rest
  end.

(** Truthiness of a JSON value read into Python. *)
Definition truthy (v : Json) : bool :=
  match v with
  | JNull => false
  | JBool b => b
  | JNum n => negb (N.eqb n 0)
  | JStr s => PyStr.truthy s
  | JList l => match l with [] => false | _ => true end
  end.

(** [d.get(key, False)], read as a condition. *)
Definition get_flag (fields : list (string * Json)) (key : string) : bool :=
  match lookup key fields with Some v => truthy v | None => false end.

(** *** Results *)

Record PhaseResult : Type := {
  phase : string;
  success : bool;
  output_files : list string;
  errors : list string;
  retries : nat
}.

Definition MAX_RETRIES : nat := 3.

(** A phase returns its result, or an exception leaves it. *)
Inductive outcome : Type :=
| Done (r : PhaseResult)
| Raised (exn : string).

(** The record a validator of the spec files returns. *)
Record ValidationResult : Type := {
  checkpoint : string;
  valid : bool;
  verrors : list string;
  fixes : list string
}.

(** *** The world of a phase *)

Section Executor.

(** What lies outside the spec directory: the project, the agent
    runtime, the knowledge graph, the user at the terminal. *)
Variable Ext : Type.

Record Disk : Type := {
  dir : Dir;
  outside : Ext
}.

(** The agents and scripts a phase invokes. *)
Inductive Call : Type :=
| Agent (prompt_file : string)
| Script (script : string)
| DiscoveryScript
| ContextDiscovery
| GraphQuery
| InteractivePrompt.

Record World : Type := {
  disk : Disk;
  task_description : string;     (* [self.task_description] *)
  calls : list Call
}.

Definition with_dir (f : Dir -> Dir) : M World unit :=
  modify (fun w =>
    {| disk := {| dir := f (dir (disk w)); outside := outside (disk w) |};
       task_description := task_description w;
       calls := calls w |}).

Definition write_file (name : string) (c : Content) : M World unit :=
  with_dir (write name c).

Definition exists_ (name : string) : M World bool :=
  w <- get ;; ret (file_exists (dir (disk w)) name).

(** An invocation of a collaborator: it is logged, and it changes the
    disk as it pleases. *)
Definition invoke {A} (c : Call) (f : Disk -> A * Disk) : M World A :=
  fun w =>
    let (a, d) := f (disk w) in
    (a, {| disk := d; task_description := task_description w;
           calls := (calls w ++ [c])%list |}).

Variable spec_dir : string.

(** [str(self.spec_dir / name)] *)
Definition path (name : string) : string := spec_dir ++ "/" ++ name.

(** The collaborators.  [run_agent_fn] is [SpecOrchestrator._run_agent],
    which turns every exception of the agent into [(False, message)]. *)
Variable run_agent_fn : string -> Disk -> (bool * string) * Disk.
Variable script_exists : Ext -> string -> bool.
Variable run_script : string -> Disk -> (bool * string) * Disk.
Variable run_discovery_script : Disk -> (bool * string) * Disk.
Variable run_context_discovery :
  string -> list string -> Disk -> (bool * string) * Disk.
Variable is_graphiti_enabled : Ext -> bool.
Variable get_graph_hints : string -> Disk -> (list string + string) * Disk.
Variable gather_requirements_interactively :
  Disk -> option (string * list (string * Json)) * Disk.
Variable validate_spec_document : Dir -> ValidationResult.
Variable validate_implementation_plan : Dir -> ValidationResult.
Variable validate_all : Dir -> list ValidationResult.
Variable auto_fix_plan : Dir -> bool * Dir.

Definition agent (prompt_file : string) : M World (bool * string) :=
  invoke (Agent prompt_file) (run_agent_fn prompt_file).

Definition check (validator : Dir -> ValidationResult)
    : M World ValidationResult :=
  w <- get ;; ret (validator (dir (disk w))).

(** *** The helper modules of the package *)

(** Modelled from the spec: the placeholder writers
    [create_empty_hints], [create_minimal_research] and
    [create_minimal_critique] of spec/validator.py,
    [create_minimal_context] of spec/context.py and
    [create_minimal_plan] of spec/writer.py, which persist a minimal
    artifact that carries the reason of the degradation. *)
Definition create_empty_hints (enabled : bool) (reason : string)
    : M World unit :=
  write_file "graph_hints.json"
    (Object [("enabled", JBool enabled); ("reason", JStr reason)]).

Definition create_minimal_research (reason : string) : M World unit :=
  write_file "research.json" (Object [("reason", JStr reason)]).

Definition create_minimal_critique (reason : string) : M World unit :=
  write_file "critique_report.json" (Object [("reason", JStr reason)]).

Definition create_minimal_context (task : string) (services : list string)
    : M World unit :=
  write_file "context.json"
    (Object [("task_description", JStr task);
             ("services_involved", JList services)]).

Definition create_minimal_plan (task : string) : M World unit :=
  write_file "implementation_plan.json"
    (Object [("task_description", JStr task)]).

(** Modelled from the spec: [create_requirements_from_task],
    [save_requirements] and [load_requirements] of
    spec/requirements.py; requirements.json holds at least a task
    description. *)
Definition create_requirements_from_task (task : string)
    : list (string * Json) :=
  [("task_description", JStr task)].

Definition save_requirements (req : list (string * Json)) : M World unit :=
  write_file "requirements.json" (Object req).

Definition load_requirements : M World (option (list (string * Json))) :=
  w <- get ;;
  ret match dir (disk w) "requirements.json" with
      | Some (Object fields) => Some fields
      | _ => None
      end.

(** [req.get(key, default)] for a text field. *)
Definition get_str (req : list (string * Json)) (key default : string)
    : string :=
  match lookup key req with Some (JStr s) => s | _ => default end.

(** [req.get(key, [])] for a list field. *)
Definition get_list (req : list (string * Json)) (key : string)
    : list string :=
  match lookup key req with Some (JList l) => l | _ => [] end.

Definition attempt_no (attempt : nat) : string :=
  PyStr.of_N (N.of_nat (attempt + 1)).

Definition result (phase : string) (success : bool)
    (output_files errors : list string) (retries : nat) : PhaseResult :=
  {| phase := phase; success := success; output_files := output_files;
     errors := errors; retries := retries |}.

(** [range(MAX_RETRIES)] *)
Definition attempts : list nat := seq 0 MAX_RETRIES.

(** *** discovery *)

Fixpoint discovery_loop (attempts : list nat) (errors : list string)
    (retries : nat) : M World PhaseResult :=
  match attempts with
  | [] => ret (result "discovery" false [] errors retries)
  | attempt :: rest =>
      '(ok, output) <- invoke DiscoveryScript run_discovery_script ;;
      if ok : bool
      then ret (result "discovery" true [path "project_index.json"] [] attempt)
      else discovery_loop rest
             (PyList.append errors
                ("Attempt " ++ attempt_no attempt ++ ": " ++ output))
             attempt
  end.

Definition phase_discovery : M World PhaseResult :=
  discovery_loop attempts [] 0.

(** *** historical_context *)

Definition phase_historical_context : M World PhaseResult :=
  let hints_file := "graph_hints.json" in
  let done errs := ret (result "historical_context" true [path hints_file] errs 0) in
  present <- exists_ hints_file ;;
  if present : bool then done []
  else
    w <- get ;;
    if negb (is_graphiti_enabled (outside (disk w))) then
      create_empty_hints false "Graphiti not configured" ;;;
      done []
    else
      req <- load_requirements ;;
      let task_query :=
        match req with
        | Some (f :: fs) => get_str (f :: fs) "task_description" (task_description w)
        | _ => task_description w
        end in
      if negb (PyStr.truthy task_query) then
        create_empty_hints true "No task description available" ;;;
        done []
      else
        r <- invoke GraphQuery (get_graph_hints task_query) ;;
        match r with
        | inl hints =>
            write_file hints_file
              (Object [("enabled", JBool true); ("query", JStr task_query);
                       ("hints", JList hints);
                       ("hint_count", JNum (N.of_nat (List.length hints)))]) ;;;
            done []
        | inr e =>
            create_empty_hints true ("Error: " ++ e) ;;;
            done [e]
        end.

(** *** requirements *)

Definition set_task_description (task : string) : M World unit :=
  modify (fun w =>
    {| disk := disk w; task_description := task; calls := calls w |}).

(** [gather_requirements_interactively] answers with the task
    description and the other fields of the requirements, or with
    nothing when the user interrupts the prompt. *)
Definition phase_requirements (interactive : bool) : M World PhaseResult :=
  let requirements_file := "requirements.json" in
  let done := ret (result "requirements" true [path requirements_file] [] 0) in
  present <- exists_ requirements_file ;;
  if present : bool then done
  else
    w <- get ;;
    if PyStr.truthy (task_description w) && negb interactive then
      save_requirements (create_requirements_from_task (task_description w)) ;;;
      done
    else if interactive then
      r <- invoke InteractivePrompt gather_requirements_interactively ;;
      match r with
      | Some (task, fields) =>
          (* Update task description for subsequent phases *)
          set_task_description task ;;;
          save_requirements (("task_description", JStr task) :: fields) ;;;
          done
      | None =>
          ret (result "requirements" false [] ["User cancelled"] 0)
      end
    else
      save_requirements
        (create_requirements_from_task
           (if PyStr.truthy (task_description w)
            then task_description w else "Unknown task")) ;;;
      done.

(** *** quick_spec *)

Fixpoint quick_spec_loop (attempts : list nat) (errors : list string)
    : M World PhaseResult :=
  match attempts with
  | [] => ret (result "quick_spec" false [] errors MAX_RETRIES)
  | attempt :: rest =>
      '(ok, output) <- agent "spec_quick.md" ;;
      spec_there <- exists_ "spec.md" ;;
      if (ok : bool) && spec_there then
        plan_there <- exists_ "implementation_plan.json" ;;
        w <- get ;;
        (* Create minimal plan if agent didn't *)
        when (negb plan_there) (create_minimal_plan (task_description w)) ;;;
        ret (result "quick_spec" true
               [path "spec.md"; path "implementation_plan.json"] [] attempt)
      else
        quick_spec_loop rest
          (PyList.append errors
             ("Attempt " ++ attempt_no attempt ++ ": Quick spec agent failed"))
  end.

Definition phase_quick_spec : M World PhaseResult :=
  spec_there <- exists_ "spec.md" ;;
  plan_there <- exists_ "implementation_plan.json" ;;
  if (spec_there : bool) && plan_there
  then ret (result "quick_spec" true
              [path "spec.md"; path "implementation_plan.json"] [] 0)
  else quick_spec_loop attempts [].

(** *** research *)

Fixpoint research_loop (attempts : list nat) (errors : list string)
    : M World PhaseResult :=
  let research_file := "research.json" in
  match attempts with
  | [] =>
      create_minimal_research "Research agent failed after retries" ;;;
      ret (result "research" true [path research_file] errors MAX_RETRIES)
  | attempt :: rest =>
      '(ok, output) <- agent "spec_researcher.md" ;;
      there <- exists_ research_file ;;
      if (ok : bool) && there then
        ret (result "research" true [path research_file] [] attempt)
      else if ok && negb there then
        create_minimal_research "Agent completed but created no findings" ;;;
        ret (result "research" true [path research_file] [] attempt)
      else
        research_loop rest
          (PyList.append errors
             ("Attempt " ++ attempt_no attempt ++ ": Research agent failed"))
  end.

Definition phase_research : M World PhaseResult :=
  let research_file := "research.json" in
  there <- exists_ research_file ;;
  if there : bool then ret (result "research" true [path research_file] [] 0)
  else
    req_there <- exists_ "requirements.json" ;;
    if negb req_there then
      create_minimal_research "No requirements file available" ;;;
      ret (result "research" true [path research_file] [] 0)
    else research_loop attempts [].

(** *** context *)

Definition or_unknown (task : string) : string :=
  if PyStr.truthy task then task else "unknown task".

Fixpoint context_loop (task : string) (services : list string)
    (attempts : list nat) (errors : list string) : M World PhaseResult :=
  let context_file := "context.json" in
  match attempts with
  | [] =>
      (* Create minimal context if script fails *)
      create_minimal_context (or_unknown task) services ;;;
      ret (result "context" true [path context_file] errors MAX_RETRIES)
  | attempt :: rest =>
      '(ok, output) <-
         invoke ContextDiscovery
           (run_context_discovery (or_unknown task) services) ;;
      if ok : bool then
        ret (result "context" true [path context_file] [] attempt)
      else
        context_loop task services rest
          (PyList.append errors
             ("Attempt " ++ attempt_no attempt ++ ": " ++ output))
  end.

Definition phase_context : M World PhaseResult :=
  let context_file := "context.json" in
  there <- exists_ context_file ;;
  if there : bool then ret (result "context" true [path context_file] [] 0)
  else
    w <- get ;;
    req <- load_requirements ;;
    let '(task, services) :=
      match req with
      | Some (f :: fs) =>
          (get_str (f :: fs) "task_description" (task_description w),
           get_list (f :: fs) "services_involved")
      | _ => (task_description w, [])
      end in
    context_loop task services attempts [].

(** *** spec_writing *)

Fixpoint spec_writing_loop (attempts : list nat) (errors : list string)
    : M World PhaseResult :=
  match attempts with
  | [] => ret (result "spec_writing" false [] errors MAX_RETRIES)
  | attempt :: rest =>
      '(ok, output) <- agent "spec_writer.md" ;;
      there <- exists_ "spec.md" ;;
      if (ok : bool) && there then
        r <- check validate_spec_document ;;
        if valid r then
          ret (result "spec_writing" true [path "spec.md"] [] attempt)
        else
          spec_writing_loop rest
            (PyList.append errors
               ("Attempt " ++ attempt_no attempt ++ ": Spec invalid - "
                ++ PyStr.repr_list (verrors r)))
      else
        spec_writing_loop rest
          (PyList.append errors
             ("Attempt " ++ attempt_no attempt
              ++ ": Agent did not create spec.md"))
  end.

Definition phase_spec_writing : M World PhaseResult :=
  there <- exists_ "spec.md" ;;
  if there : bool then
    r <- check validate_spec_document ;;
    if valid r
    then ret (result "spec_writing" true [path "spec.md"] [] 0)
    else spec_writing_loop attempts []
  else spec_writing_loop attempts [].

(** *** self_critique *)

Fixpoint self_critique_loop (attempts : list nat) (errors : list string)
    : M World PhaseResult :=
  let critique_file := "critique_report.json" in
  match attempts with
  | [] =>
      create_minimal_critique "Critique failed after retries" ;;;
      ret (result "self_critique" true [path critique_file] errors MAX_RETRIES)
  | attempt :: rest =>
      '(ok, output) <- agent "spec_critic.md" ;;
      if ok : bool then
        there <- exists_ critique_file ;;
        when (negb there)
          (create_minimal_critique "Agent completed without explicit issues") ;;;
        r <- check validate_spec_document ;;
        if valid r then
          ret (result "self_critique" true [path critique_file] [] attempt)
        else
          self_critique_loop rest
            (PyList.append errors
               ("Attempt " ++ attempt_no attempt
                ++ ": Spec still invalid after critique"))
      else
        self_critique_loop rest
          (PyList.append errors
             ("Attempt " ++ attempt_no attempt ++ ": Critique agent failed"))
  end.

Definition phase_self_critique : M World outcome :=
  let critique_file := "critique_report.json" in
  let run := r <- self_critique_loop attempts [] ;; ret (Done r) in
  w <- get ;;
  if negb (file_exists (dir (disk w)) "spec.md") then
    ret (Done (result "self_critique" false [] ["spec.md does not exist"] 0))
  else
    match dir (disk w) critique_file with
    | Some (Object critique) =>
        if get_flag critique "issues_fixed"
           || get_flag critique "no_issues_found"
        then ret (Done (result "self_critique" true [path critique_file] [] 0))
        else run
    | Some Text => ret (Raised "JSONDecodeError")
    | Some NonObject => ret (Raised "AttributeError")
    | None => run
    end.

(** *** planning *)

(** [PhaseExecutor._run_script] *)
Definition _run_script (script : string) : M World (bool * string) :=
  w <- get ;;
  if negb (script_exists (outside (disk w)) script)
  then ret (false, "Script not found: " ++ script)
  else invoke (Script script) (run_script script).

Definition run_auto_fix_plan : M World bool :=
  fun w =>
    let (fixed, d) := auto_fix_plan (dir (disk w)) in
    (fixed, {| disk := {| dir := d; outside := outside (disk w) |};
               task_description := task_description w;
               calls := calls w |}).

(** The plan file exists after a run of the planner: validate it,
    and try the automatic fix once.  The answer is the result of the
    phase, or the validation that failed. *)
Definition accept_plan (retries : nat)
    : M World (PhaseResult + ValidationResult) :=
  let plan_file := "implementation_plan.json" in
  let ok := result "planning" true [path plan_file] [] retries in
  r <- check validate_implementation_plan ;;
  if valid r then ret (inl ok)
  else
    fixed <- run_auto_fix_plan ;;
    if fixed : bool then
      r' <- check validate_implementation_plan ;;
      if valid r' then ret (inl ok) else ret (inr r')
    else ret (inr r).

Fixpoint planning_loop (attempts : list nat) (errors : list string)
    : M World PhaseResult :=
  match attempts with
  | [] => ret (result "planning" false [] errors MAX_RETRIES)
  | attempt :: rest =>
      '(ok, output) <- agent "planner.md" ;;
      there <- exists_ "implementation_plan.json" ;;
      if (ok : bool) && there then
        a <- accept_plan attempt ;;
        match a with
        | inl r => ret r
        | inr v =>
            planning_loop rest
              (PyList.append errors
                 ("Agent attempt " ++ attempt_no attempt ++ ": "
                  ++ PyStr.repr_list (verrors v)))
        end
      else
        planning_loop rest
          (PyList.append errors
             ("Agent attempt " ++ attempt_no attempt
              ++ ": Did not create plan file"))
  end.

Definition planning_from_script : M World PhaseResult :=
  (* Try Python script first (deterministic) *)
  '(ok, output) <- _run_script "planner.py" ;;
  there <- exists_ "implementation_plan.json" ;;
  if (ok : bool) && there then
    a <- accept_plan 0 ;;
    match a with
    | inl r => ret r
    | inr v =>
        (* Fall back to agent *)
        planning_loop attempts
          ["Script output invalid: " ++ PyStr.repr_list (verrors v)]
    end
  else planning_loop attempts [].

Definition phase_planning : M World PhaseResult :=
  let plan_file := "implementation_plan.json" in
  there <- exists_ plan_file ;;
  if there : bool then
    r <- check validate_implementation_plan ;;
    if valid r
    then ret (result "planning" true [path plan_file] [] 0)
    else planning_from_script
  else planning_from_script.

(** *** validation *)

Definition validation_errors (results : list ValidationResult)
    : list string :=
  flat_map
    (fun r => map (fun err => checkpoint r ++ ": " ++ err) (verrors r))
    results.

Fixpoint validation_loop (attempts : list nat)
    (results : list ValidationResult) : M World PhaseResult :=
  match attempts with
  | [] =>
      (* All retries exhausted *)
      ret (result "validation" false [] (validation_errors results) MAX_RETRIES)
  | attempt :: rest =>
      w <- get ;;
      let results := validate_all (dir (disk w)) in
      if forallb valid results then
        ret (result "validation" true [] [] attempt)
      else
        (* If not valid, try to auto-fix with AI agent *)
        when (attempt <? MAX_RETRIES - 1)
          (r <- agent "validation_fixer.md" ;; ret tt) ;;;
        validation_loop rest results
  end.

Definition phase_validation : M World PhaseResult :=
  validation_loop attempts [].

End Executor.

End Phases.

(* ================================================================= *)
(** ** spec/pipeline.py: the name and the directory of a spec *)

Module Pipeline.
Import PyStr.

(** [str.isalnum] on one character. *)
Definition isalnum (c : ascii) : bool := isword c && negb (Ascii.eqb c "_").

(** *** [_create_spec_dir] *)

(** The class [[0-9]] of a glob pattern. *)
Definition is_digit (c : ascii) : bool := in_range 48 57 c.

(** [fnmatch] of a name against [[0-9][0-9][0-9]-*]. *)
Definition matches_numbered (name : string) : bool :=
  match name with
  | String a (String b (String c (String d _))) =>
      is_digit a && is_digit b && is_digit c && Ascii.eqb d "-"
  | _ => false
  end.

Definition digit_value (c : ascii) : nat := code c - 48.

(** [int(folder.name[:3])] for a name that matched. *)
Definition number_of (name : string) : nat :=
  match name with
  | String a (String b (String c _)) =>
      100 * digit_value a + 10 * digit_value b + digit_value c
  | _ => 0
  end.

Definition digit (d : nat) : ascii := ascii_of_nat (48 + d).

(** The format [{n:03d}]. *)
Definition format_03d (n : nat) : string :=
  if n <? 1000
  then String (digit (n / 100))
         (String (digit (n / 10 mod 10)) (String (digit (n mod 10)) ""))
  else of_N (N.of_nat n).

(** [SpecOrchestrator._create_spec_dir]: the name of the new
    directory, given the names of the entries of the specs
    directory. *)
Definition _create_spec_dir (entries : list string) : string :=
  let existing := filter matches_numbered entries in
  let next_num :=
    match existing with
    | [] => 1
    | _ =>
        (* Find the HIGHEST folder number *)
        let numbers := map number_of existing in
        match numbers with
        | [] => 1
        | _ => list_max numbers + 1
        end
    end in
  (* Start with placeholder - will be renamed after requirements gathering *)
  let name := "pending" in
  format_03d next_num ++ "-" ++ name.

(** *** [_generate_spec_name] *)

Definition skip_words : list string :=
  [ "a"; "an"; "the"; "to"; "for"; "of"; "in"; "on"; "at"; "by"; "with";
    "and"; "or"; "but"; "is"; "are"; "was"; "were"; "be"; "been"; "being";
    "have"; "has"; "had"; "do"; "does"; "did"; "will"; "would"; "could";
    "should"; "may"; "might"; "must"; "can"; "this"; "that"; "these";
    "those"; "i"; "you"; "we"; "they"; "it"; "add"; "create"; "make";
    "implement"; "build"; "new"; "using"; "use"; "via"; "from" ].

(** [c if c.isalnum() or c == " " else " "], character by character. *)
Fixpoint clean (text : string) : string :=
  match text with
  | "" => ""
  | String c rest =>
      String (if isalnum c || Ascii.eqb c " " then c else " "%char)
        (clean rest)
  end.

(** [SpecOrchestrator._generate_spec_name] *)
Definition _generate_spec_name (task_description : string) : string :=
  (* Clean and tokenize *)
  let text := lower task_description in
  let text := clean text in
  let words := split text in
  (* Filter out skip words and short words *)
  let meaningful :=
    filter (fun w => negb (mem w skip_words) && (2 <? String.length w))
      words in
  (* Take first 4 meaningful words *)
  let name_parts := firstn 4 meaningful in
  let name_parts :=
    match name_parts with
    | [] => firstn 4 words
    | _ => name_parts
    end in
  match name_parts with
  | [] => "spec"
  | _ => String.concat "-" name_parts
  end.

End Pipeline.

(* ================================================================= *)
(** * Properties

    The vocabulary of the statements comes first: what the specification
    says in its own words, and the concrete inputs of the examples. *)


(** ** The specification of [rm], and literal patterns *)

Module ValidatorSpec.
Import PyStr Validator Re.

(** The paths that the specification lists for [rm]. *)
Definition listed_paths : list string :=
  ["/"; ".."; "~"; "*"; "/*";
   "/home"; "/usr"; "/etc"; "/var"; "/bin"; "/lib"; "/opt"].

(** The targets the specification calls dangerous: exactly a listed
    path, or any path that begins with ../ *)
Definition listed_target (token : string) : bool :=
  mem token listed_paths || startswith token "../".

(** A listed path, alone or followed by one newline. *)
Definition path_or_line (token path : string) : bool :=
  eqs token path || eqs token (path ++ newline).

(** The targets the code refuses. *)
Definition refused_target (token : string) : bool :=
  existsb (path_or_line token) listed_paths || startswith token "../".

(** The targets of a command: the tokens after the first that are not
    flags. *)
Definition targets (tokens : list string) : list string :=
  filter (fun token => negb (is_flag token)) (tl tokens).

(** What the specification says of a parsed [rm] command. *)
Definition claimed_rm_allowed (tokens : list string) : bool :=
  negb (existsb listed_target (targets tokens)).
(** A pattern that is a sequence of literal characters before [tail]. *)
Fixpoint lit_seq (l : string) (tail : regex) : regex :=
  match l with
  | "" => tail
  | String c r => Seq (Chr c) (lit_seq r tail)
  end.

(** [strip l prev s]: what follows [l] at the head of [s], with the
    character before it. *)
Fixpoint strip (l : string) (prev : option ascii) (s : string)
    : option (option ascii * string) :=
  match l with
  | "" => Some (prev, s)
  | String c r =>
      match s with
      | String d s' => if Ascii.eqb c d then strip r (Some d) s' else None
      | "" => None
      end
  end.
End ValidatorSpec.

(** ** Files and states of the review examples *)

Module ReviewExamples.
Import Review.

(** Two files of 128 bytes that differ in six bytes and have the same
    MD5 digest. *)
Definition collision_a : list Byte.byte :=
  [
    xd1; x31; xdd; x02; xc5; xe6; xee; xc4; x69; x3d; x9a; x06; x98; xaf; xf9; x5c;
    x2f; xca; xb5; x87; x12; x46; x7e; xab; x40; x04; x58; x3e; xb8; xfb; x7f; x89;
    x55; xad; x34; x06; x09; xf4; xb3; x02; x83; xe4; x88; x83; x25; x71; x41; x5a;
    x08; x51; x25; xe8; xf7; xcd; xc9; x9f; xd9; x1d; xbd; xf2; x80; x37; x3c; x5b;
    xd8; x82; x3e; x31; x56; x34; x8f; x5b; xae; x6d; xac; xd4; x36; xc9; x19; xc6;
    xdd; x53; xe2; xb4; x87; xda; x03; xfd; x02; x39; x63; x06; xd2; x48; xcd; xa0;
    xe9; x9f; x33; x42; x0f; x57; x7e; xe8; xce; x54; xb6; x70; x80; xa8; x0d; x1e;
    xc6; x98; x21; xbc; xb6; xa8; x83; x93; x96; xf9; x65; x2b; x6f; xf7; x2a; x70 ].

Definition collision_b : list Byte.byte :=
  [
    xd1; x31; xdd; x02; xc5; xe6; xee; xc4; x69; x3d; x9a; x06; x98; xaf; xf9; x5c;
    x2f; xca; xb5; x07; x12; x46; x7e; xab; x40; x04; x58; x3e; xb8; xfb; x7f; x89;
    x55; xad; x34; x06; x09; xf4; xb3; x02; x83; xe4; x88; x83; x25; xf1; x41; x5a;
    x08; x51; x25; xe8; xf7; xcd; xc9; x9f; xd9; x1d; xbd; x72; x80; x37; x3c; x5b;
    xd8; x82; x3e; x31; x56; x34; x8f; x5b; xae; x6d; xac; xd4; x36; xc9; x19; xc6;
    xdd; x53; xe2; x34; x87; xda; x03; xfd; x02; x39; x63; x06; xd2; x48; xcd; xa0;
    xe9; x9f; x33; x42; x0f; x57; x7e; xe8; xce; x54; xb6; x70; x80; x28; x0d; x1e;
    xc6; x98; x21; xbc; xb6; xa8; x83; x93; x96; xf9; x65; xab; x6f; xf7; x2a; x70 ].

Definition plan_bytes : list Byte.byte := Md5.encode "{}".

Definition dir_a : SpecDir :=
  {| spec_md := Some collision_a;
     implementation_plan_json := Some plan_bytes;
     review_state_json := Missing |}.

(** Equality of two lists of bytes. *)
Definition bytes_eqb (x y : list Byte.byte) : bool :=
  if list_eq_dec Byte.byte_eq_dec x y then true else false.
End ReviewExamples.

(** ** Issues and worlds of the QA examples *)

Module QAExamples.
Import QA.

(** The similarity of two keys that only tells equal keys from
    different ones. *)
Definition exact_similarity (k1 k2 : string) : Q :=
  if String.eqb k1 k2 then 1%Q else 0%Q.

Definition same_error : Issue :=
  {| title := Some "Same error"; description := None;
     file := Some "app.py"; line := None; issue_type := None |}.

Definition rejected_with (issue : Issue) (n : nat) : IterationRecord :=
  {| iteration := n; status := "rejected"; issues := [issue] |}.

Definition approved_signoff : Signoff :=
  {| signoff_status := "approved"; qa_session := 2; issues_found := [];
     ready_for_qa_revalidation := false |}.

(** A spec directory whose plan is signed off although the build is
    not complete, for instance after subtasks were added to the plan. *)
Definition approved_world : World unit :=
  {| disk := {| plan := {| qa_signoff := Some approved_signoff;
                           qa_iteration_history := [] |};
                fix_request_file := false;
                outside := tt |};
     events := [] |}.

Definition silent_agent (n : nat) (d : Disk unit)
    : (string + string) * Disk unit :=
  (inl "", d).
End QAExamples.

(** ** Re-entrant phases *)

Module PhaseSpec.
Import Phases.

(** What a second run of a phase returns when it skips: the files of
    the first run, no error, no retry. *)
Definition skipped (r : PhaseResult) : PhaseResult :=
  {| phase := phase r; success := true; output_files := output_files r;
     errors := []; retries := 0 |}.

(** A phase is re-entrant when, after a run that succeeded, a second
    run returns the skipped result and leaves the world, the log of
    its calls included, as it is. *)
Definition reentrant {W} (run : St.M W PhaseResult) : Prop :=
  forall w,
    success (fst (run w)) = true ->
    run (snd (run w)) = (skipped (fst (run w)), snd (run w)).

(** The task and the services [phase_context] starts from: those of
    requirements.json when it holds a non-empty object, the task of
    the executor and no service otherwise. *)
Definition context_request {Ext} (w : World Ext) : string * list string :=
  match dir Ext (disk Ext w) "requirements.json" with
  | Some (Object (f :: fs)) =>
      (get_str (f :: fs) "task_description" (task_description Ext w),
       get_list (f :: fs) "services_involved")
  | _ => (task_description Ext w, [])
  end.
End PhaseSpec.

(** ** Collaborators and directories of the phase examples *)

Module PhaseExamples.
Import Phases.

Definition specs : string := "specs/001-login".

(** A validator that accepts every document. *)
Definition always_valid (d : Dir) : ValidationResult :=
  {| checkpoint := "spec"; valid := true; verrors := []; fixes := [] |}.

(** An agent that fails at every call. *)
Definition failing_agent (prompt_file : string) (d : Disk unit)
    : (bool * string) * Disk unit :=
  ((false, "agent failed"), d).

(** A critic that reports issues it did not fix. *)
Definition open_critique : Content :=
  Object [("issues_found", JList ["Package name differs from research"]);
          ("issues_fixed", JBool false);
          ("no_issues_found", JBool false)].

Definition critic_agent (prompt_file : string) (d : Disk unit)
    : (bool * string) * Disk unit :=
  ((true, "critique written"),
   {| dir := write "critique_report.json" open_critique (dir unit d);
      outside := tt |}).

Definition world_of (d : Dir) : World unit :=
  {| disk := {| dir := d; outside := tt |};
     task_description := "Add login"; calls := [] |}.

Definition empty_dir : Dir := fun _ => None.

Definition spec_only : Dir := write "spec.md" Text empty_dir.

Definition requirements_only : Dir :=
  write "requirements.json"
    (Object [("task_description", JStr "Add login")]) empty_dir.
End PhaseExamples.

(** ** The vocabulary of the further properties *)

Module ValidatorProps.
Import PyStr Validator ValidatorSpec Re.

(** The target of [pkill]: the last argument that is not a flag. *)
Definition pkill_target (tokens : list string) : string :=
  last (filter (fun token => negb (is_flag token)) (tl tokens)) "".

(** A flag that [validate_chmod_command] refuses. *)
Definition chmod_bad_flag (token : string) : bool :=
  negb (eqs token "-R" || eqs token "--recursive") && is_flag token.

(** The arguments that are not flags. *)
Definition positional (tokens : list string) : list string :=
  filter (fun token => negb (is_flag token)) tokens.

(** The loop of a repetition, as [run] writes it. *)
Definition star_loop (r1 : regex) (fuel : nat)
    (k : option ascii -> string -> option string) :=
  fix loop (n : nat) (prev : option ascii) (s : string) : option string :=
    match n with
    | O => k prev s
    | S n' =>
        match
          run false r1 fuel prev s
            (fun prev' s' =>
               if String.length s' <? String.length s
               then loop n' prev' s' else None)
        with
        | Some e => Some e
        | None => k prev s
        end
    end.

(** [all_in set who]: every character of [who] is in [set]. *)
Fixpoint all_in (set who : string) : bool :=
  match who with
  | "" => true
  | String c r => contains_char c set && all_in set r
  end.

(** The modes that the pattern of [validate_chmod_command] accepts:
    letters among u, g, o and a, then +x, alone or before one newline. *)
Definition who_plus_x (mode : string) : Prop :=
  exists who rest,
    mode = who ++ rest /\ all_in "ugoa" who = true
    /\ path_or_line rest "+x" = true.

(** Every file has one group, and a group holds matches of its file. *)
Definition well_grouped (groups : list (string * list SecretMatch)) : Prop :=
  NoDup (map fst groups)
  /\ Forall (fun g => snd g <> []
                      /\ Forall (fun m => file_path m = fst g) (snd g)) groups.
End ValidatorProps.

Module NameProps.
Import PyStr Validator ValidatorSpec.

(** [s] ends with [suffix], or with [suffix] and one newline. *)
Definition ends_with_line (s suffix : string) : Prop :=
  exists pre, s = pre ++ suffix \/ s = pre ++ suffix ++ newline.

(** A name that begins with one of [prefixes] or ends with one of
    [suffixes], whatever its case. *)
Definition safe_name (prefixes suffixes : list string) (name : string) : Prop :=
  (exists p, In p prefixes /\ startswith (lower name) p = true)
  \/ (exists q, In q suffixes /\ ends_with_line (lower name) q).

(** The prefixes and suffixes of the safe database and user names. *)
Definition database_prefixes : list string :=
  ["test"; "dev"; "local"; "tmp"; "temp"; "scratch"; "sandbox"; "mock"].

Definition database_suffixes : list string :=
  ["_test"; "_dev"; "_local"; "_tmp"; "_temp"; "_mock"].

Definition user_prefixes : list string := ["test"; "dev"; "tmp"; "temp"; "mock"].

Definition user_suffixes : list string := ["_test"; "_dev"].

(** Some tail of [s] is [suffix], alone or before one newline. *)
Fixpoint has_suffix_line (suffix s : string) : bool :=
  path_or_line s suffix
  || match s with
     | "" => false
     | String _ rest => has_suffix_line suffix rest
     end.
End NameProps.

Module PhaseExtraExamples.
Import Phases.

(** An agent that writes the spec at its first call. *)
Definition spec_writer_agent (prompt_file : string) (d : Disk unit)
    : (bool * string) * Disk unit :=
  ((true, "spec written"),
   {| dir := write "spec.md" Text (dir unit d); outside := tt |}).
End PhaseExtraExamples.

Module QAProps.
Import QA.

(** The numbers of the reviewer sessions among the events. *)
Fixpoint reviewer_sessions (es : list Event) : list nat :=
  match es with
  | [] => []
  | ReviewerSession n :: rest => n :: reviewer_sessions rest
  | _ :: rest => reviewer_sessions rest
  end.

(** The sign-off of the plan says approved. *)
Definition signed_off {Ext} (w : World Ext) : Prop :=
  exists s, qa_signoff (plan Ext (disk Ext w)) = Some s
            /\ signoff_status s = "approved".
End QAProps.

Module QAExtraExamples.
Import QA QAExamples.

(** The sign-off of a reviewer that found [same_error]. *)
Definition rejected_signoff : Signoff :=
  {| signoff_status := "rejected"; qa_session := 1;
     issues_found := [same_error]; ready_for_qa_revalidation := false |}.

(** A reviewer that rejects the build for the same error each time. *)
Definition rejecting_agent (n : nat) (d : Disk unit)
    : (string + string) * Disk unit :=
  (inl "rejected",
   {| plan := {| qa_signoff := Some rejected_signoff;
                 qa_iteration_history :=
                   qa_iteration_history (plan unit d) |};
      fix_request_file := true;
      outside := tt |}).

(** A reviewer that approves. *)
Definition approving_agent (n : nat) (d : Disk unit)
    : (string + string) * Disk unit :=
  (inl "approved",
   {| plan := {| qa_signoff := Some approved_signoff;
                 qa_iteration_history :=
                   qa_iteration_history (plan unit d) |};
      fix_request_file := fix_request_file unit d;
      outside := tt |}).

(** A build that was never reviewed. *)
Definition fresh_world : World unit :=
  {| disk := {| plan := {| qa_signoff := None;
                           qa_iteration_history := [] |};
                fix_request_file := false;
                outside := tt |};
     events := [] |}.

(** The build after one rejection for [same_error]. *)
Definition once_rejected_world : World unit :=
  {| disk := {| plan := {| qa_signoff := Some rejected_signoff;
                           qa_iteration_history :=
                             [rejected_with same_error 1] |};
                fix_request_file := true;
                outside := tt |};
     events := [] |}.
End QAExtraExamples.

Module PipelineProps.
Import PyStr Pipeline.

(** A lower-case letter or digit. *)
Definition name_char (c : ascii) : Prop :=
  isalnum c = true /\ lower_char c = c.

(** Every character of [s] satisfies [p]. *)
Definition chars_in (p : ascii -> Prop) (s : string) : Prop :=
  forall c, contains_char c s = true -> p c.

(** A non-empty run of lower-case letters and digits. *)
Definition word (w : string) : Prop := w <> "" /\ chars_in name_char w.

(** The parts the name is joined from. *)
Definition name_parts (task_description : string) : list string :=
  let words := split (clean (lower task_description)) in
  match firstn 4 (filter (fun w => negb (mem w skip_words)
                                   && (2 <? String.length w)) words) with
  | [] => match firstn 4 words with [] => ["spec"] | parts => parts end
  | parts => parts
  end.

(** The numbers of the entries that match the pattern. *)
Definition numbers (entries : list string) : list nat :=
  map number_of (filter matches_numbered entries).
End PipelineProps.

(* ================================================================= *)
(** ** The validators *)

Module ValidatorFacts.
Import PyStr Validator.

Lemma psql_sql_command_none (tokens : list string) :
  forallb (fun token => negb (startswith token "-c")) tokens = true ->
  psql_sql_command tokens = None.
Proof.
  induction tokens as [|token rest IH]; simpl; [reflexivity|].
  intros H. apply andb_true_iff in H as [Hc Hrest].
  apply negb_true_iff in Hc.
  assert (Heq : eqs token "-c" = false).
  { unfold eqs. destruct (String.eqb_spec token "-c") as [->|]; [discriminate Hc | reflexivity]. }
  rewrite Hc, Heq. destruct rest; auto.
Qed.

Lemma mysql_sql_command_none (tokens : list string) :
  forallb (fun token => negb (startswith token "-e") && negb (eqs token "--execute")) tokens = true ->
  mysql_sql_command tokens = None.
Proof.
  induction tokens as [|token rest IH]; simpl; [reflexivity|].
  intros H. apply andb_true_iff in H as [Hc Hrest].
  apply andb_true_iff in Hc as [He Hx].
  apply negb_true_iff in He. apply negb_true_iff in Hx.
  assert (Heq : eqs token "-e" = false).
  { unfold eqs. destruct (String.eqb_spec token "-e") as [->|]; [discriminate He | reflexivity]. }
  rewrite He, Heq, Hx. destruct rest; auto.
Qed.

(** C10: [validate_psql_command] and [validate_mysql_command] look only
    at inline SQL.  A command that parses to at least one token and has
    no token beginning with -c (psql), or no token beginning with -e or
    equal to --execute (mysql), is allowed with an empty reason, whatever
    else it carries. *)
Theorem sql_clients_allow_without_inline_flag
    (command_string : string) (tokens : list string) :
  Shlex.split command_string = Some tokens ->
  tokens <> [] ->
  (forallb (fun token => negb (startswith token "-c")) tokens = true ->
   validate_psql_command command_string = Returns true "")
  /\ (forallb (fun token => negb (startswith token "-e")
                            && negb (eqs token "--execute")) tokens = true ->
      validate_mysql_command command_string = Returns true "").
Proof.
  intros Hsplit Hne. unfold validate_psql_command, validate_mysql_command.
  rewrite Hsplit. destruct tokens as [|t0 rest]; [contradiction|].
  split; intros H.
  - rewrite (psql_sql_command_none _ H). reflexivity.
  - rewrite (mysql_sql_command_none _ H). reflexivity.
Qed.

Lemma sql_clients_allow_without_inline_flag_witness :
  Shlex.split "psql -f drop_everything.sql" = Some ["psql"; "-f"; "drop_everything.sql"]
  /\ validate_psql_command "psql -f drop_everything.sql" = Returns true ""
  /\ validate_mysql_command "psql -f drop_everything.sql" = Returns true "".
Proof.
  assert (H : Shlex.split "psql -f drop_everything.sql"
              = Some ["psql"; "-f"; "drop_everything.sql"]) by reflexivity.
  split; [exact H|].
  destruct (sql_clients_allow_without_inline_flag
              "psql -f drop_everything.sql"
              ["psql"; "-f"; "drop_everything.sql"] H) as [Hp Hm].
  - discriminate.
  - split; [apply Hp | apply Hm]; reflexivity.
Defined.

(** C6: every validator of the registry rejects a command string that
    [shlex.split] cannot tokenize, with a reason that says the command
    could not be parsed. *)
Theorem validators_reject_unparsable
    (scan_secrets : option Scanner) (name : string)
    (validate : string -> outcome) (command_string : string) :
  In (name, validate) (VALIDATORS scan_secrets) ->
  Shlex.split command_string = None ->
  exists reason,
    validate command_string = Returns false reason
    /\ startswith reason "Could not parse" = true.
Proof.
  intros Hin Hsplit. unfold VALIDATORS in Hin. simpl in Hin.
  repeat (destruct Hin as [Hin|Hin];
          [ injection Hin as _ <-;
            cbv beta delta
              [validate_killall_command validate_pkill_command
               validate_kill_command validate_chmod_command
               validate_rm_command validate_init_script validate_git_commit
               validate_dropdb_command validate_dropuser_command
               validate_psql_command validate_mysql_command
               validate_redis_cli_command validate_mongosh_command
               validate_mysqladmin_command];
            rewrite Hsplit; eexists; split; reflexivity | ]).
  contradiction.
Qed.

Lemma validators_reject_unparsable_witness :
  In ("rm", validate_rm_command) (VALIDATORS None)
  /\ Shlex.split "rm 'unterminated" = None
  /\ exists reason,
       validate_rm_command "rm 'unterminated" = Returns false reason
       /\ startswith reason "Could not parse" = true.
Proof.
  assert (H1 : In ("rm", validate_rm_command) (VALIDATORS None)).
  { unfold VALIDATORS. simpl. tauto. }
  assert (H2 : Shlex.split "rm 'unterminated" = None) by reflexivity.
  split; [exact H1|]. split; [exact H2|].
  exact (validators_reject_unparsable None "rm" validate_rm_command
           "rm 'unterminated" H1 H2).
Defined.

(** C4: the code leaves the claim at a target made of blanks.  The
    target of pkill ' ' contains a space, its list of words is empty, and
    taking the first word raises [IndexError]: the validator neither
    allows nor rejects. *)
Theorem pkill_blank_target_raises :
  Shlex.split "pkill ' '" = Some ["pkill"; " "]
  /\ validate_pkill_command "pkill ' '" = Raises "IndexError"
  /\ validate_killall_command "killall ' '" = Raises "IndexError".
Proof. repeat split. Qed.
End ValidatorFacts.

(** ** The targets of [rm] *)

Module RmFacts.
Import PyStr Validator ValidatorSpec Re.

Lemma run_lit_seq (l : string) (tail : regex) (fuel : nat)
    (k : option ascii -> string -> option string) :
  forall prev s,
    run false (lit_seq l tail) fuel prev s k
    = match strip l prev s with
      | Some (prev', rest) => run false tail fuel prev' rest k
      | None => None
      end.
Proof.
  induction l as [|c r IH]; intros prev s; simpl; [reflexivity|].
  destruct s as [|d s']; [reflexivity|].
  unfold chr_eq. destruct (Ascii.eqb c d); [apply IH | reflexivity].
Qed.

Lemma strip_eol (l : string) :
  forall prev token,
    match strip l prev token with
    | Some (_, rest) => at_eol rest
    | None => false
    end = path_or_line token l.
Proof.
  unfold path_or_line, eqs.
  induction l as [|c r IH]; intros prev token; simpl.
  - destruct token as [|d [|d' s]]; simpl; try reflexivity.
    + destruct (Ascii.eqb d "010"); reflexivity.
    + destruct (Ascii.eqb d "010"); reflexivity.
  - destruct token as [|d s']; simpl; [reflexivity|].
    rewrite (Ascii.eqb_sym d c).
    destruct (Ascii.eqb c d); [apply IH | reflexivity].
Qed.

(** A pattern [^path$] matches the path, alone or before one newline. *)
Lemma match_exact (pattern path token : string) :
  compile pattern = Some (Seq Bol (lit_seq path Eol)) ->
  is_some (re_match false pattern token) = path_or_line token path.
Proof.
  intros Hc. unfold re_match, match_here. rewrite Hc. simpl.
  rewrite run_lit_seq. rewrite <- (strip_eol path None token).
  destruct (strip path None token) as [[p rest]|]; simpl; [|reflexivity].
  destruct (at_eol rest); reflexivity.
Qed.

Lemma prefix_cons (a b : ascii) (p s : string) :
  String.prefix (String a p) (String b s) = Ascii.eqb a b && String.prefix p s.
Proof.
  simpl. destruct (ascii_dec a b) as [->|Hne].
  - rewrite Ascii.eqb_refl. reflexivity.
  - destruct (Ascii.eqb_spec a b); [contradiction | reflexivity].
Qed.

Lemma strip_then_chr (l : string) (c : ascii) :
  forall prev token,
    match strip l prev token with
    | Some (_, String d _) => Ascii.eqb c d
    | _ => false
    end = String.prefix (l ++ String c "") token.
Proof.
  induction l as [|a r IH]; intros prev token.
  - destruct token as [|d s]; [reflexivity|].
    change ("" ++ String c "") with (String c "").
    rewrite prefix_cons. cbn [strip].
    destruct s; simpl; rewrite andb_true_r; reflexivity.
  - destruct token as [|d s]; [reflexivity|].
    change (String a r ++ String c "") with (String a (r ++ String c "")).
    rewrite prefix_cons. cbn [strip].
    destruct (Ascii.eqb a d); [apply IH | reflexivity].
Qed.

(** A pattern [^prefix] matches the paths that begin with the prefix. *)
Lemma match_prefix (pattern l : string) (c : ascii) (token : string) :
  compile pattern = Some (Seq Bol (lit_seq l (Chr c))) ->
  is_some (re_match false pattern token)
  = startswith token (l ++ String c "").
Proof.
  intros Hc. unfold re_match, match_here, startswith. rewrite Hc. simpl.
  rewrite run_lit_seq. rewrite <- (strip_then_chr l c None token).
  destruct (strip l None token) as [[p [|d rest]]|]; simpl; try reflexivity.
  unfold chr_eq. destruct (Ascii.eqb c d); reflexivity.
Qed.

Lemma match_parent_prefix (token : string) :
  is_some (re_match false "^\.\./" token) = startswith token "../".
Proof. apply (match_prefix "^\.\./" ".." "/"). reflexivity. Qed.

(** The thirteen patterns refuse the listed paths, alone or before one
    newline, and every path that begins with ../ *)
Lemma rm_dangerous_refused (token : string) :
  rm_dangerous token = refused_target token.
Proof.
  unfold rm_dangerous, refused_target, dangerous_patterns, listed_paths.
  cbn [existsb].
  rewrite (match_exact "^/$" "/"), (match_exact "^\.\.$" ".."),
    (match_exact "^~$" "~"), (match_exact "^\*$" "*"),
    (match_exact "^/\*$" "/*"), (match_exact "^/home$" "/home"),
    (match_exact "^/usr$" "/usr"), (match_exact "^/etc$" "/etc"),
    (match_exact "^/var$" "/var"), (match_exact "^/bin$" "/bin"),
    (match_exact "^/lib$" "/lib"), (match_exact "^/opt$" "/opt")
    by reflexivity.
  rewrite match_parent_prefix.
  generalize (startswith token "../") as p.
  generalize (path_or_line token "/"), (path_or_line token ".."),
    (path_or_line token "~"), (path_or_line token "*"),
    (path_or_line token "/*"), (path_or_line token "/home"),
    (path_or_line token "/usr"), (path_or_line token "/etc"),
    (path_or_line token "/var"), (path_or_line token "/bin"),
    (path_or_line token "/lib"), (path_or_line token "/opt").
  intros. btauto.
Qed.

Lemma rm_scan_find (tokens : list string) :
  rm_scan tokens
  = find refused_target (filter (fun token => negb (is_flag token)) tokens).
Proof.
  induction tokens as [|token rest IH]; simpl; [reflexivity|].
  destruct (is_flag token); simpl; [exact IH|].
  rewrite rm_dangerous_refused.
  destruct (refused_target token); [reflexivity | exact IH].
Qed.

(** C3 (amended): for a command that parses to at least one token,
    [validate_rm_command] rejects exactly when some token after the
    first that is not a flag is a listed path, alone or followed by one
    newline, or begins with ../ ; the reason names the first such
    target, and every other command is allowed whatever its flags. *)
Theorem rm_rejects_refused_targets :
  (forall command_string tokens,
      Shlex.split command_string = Some tokens ->
      tokens <> [] ->
      validate_rm_command command_string
      = match find refused_target (targets tokens) with
        | Some token =>
            Returns false ("rm target '" ++ token ++ "' is not allowed for safety")
        | None => Returns true ""
        end)
  /\ (exists reason, validate_rm_command "rm -rf /" = Returns false reason)
  /\ validate_rm_command "rm -rf ./build" = Returns true "".
Proof.
  split; [|split].
  - intros command_string tokens Hsplit Hne. unfold validate_rm_command, targets.
    rewrite Hsplit. destruct tokens as [|t0 rest]; [contradiction|].
    simpl tl. rewrite rm_scan_find. reflexivity.
  - eexists. vm_compute. reflexivity.
  - vm_compute. reflexivity.
Qed.

Definition rm_newline_command : string := "rm '/" ++ newline ++ "'".

Lemma rm_rejects_refused_targets_witness :
  Shlex.split rm_newline_command = Some ["rm"; "/" ++ newline]
  /\ ["rm"; "/" ++ newline] <> []
  /\ validate_rm_command rm_newline_command
     = match find refused_target (targets ["rm"; "/" ++ newline]) with
       | Some token =>
           Returns false ("rm target '" ++ token ++ "' is not allowed for safety")
       | None => Returns true ""
       end.
Proof.
  split; [reflexivity|]. split; [discriminate|].
  apply (proj1 rm_rejects_refused_targets); [reflexivity | discriminate].
Defined.

Lemma rm_newline_target_counterexample :
  Shlex.split rm_newline_command = Some ["rm"; "/" ++ newline]
  /\ claimed_rm_allowed ["rm"; "/" ++ newline] = true
  /\ validate_rm_command rm_newline_command
     = Returns false ("rm target '/" ++ newline ++ "' is not allowed for safety").
Proof. vm_compute. repeat split. Qed.
End RmFacts.

(* ================================================================= *)
(** ** The review state *)

Module ReviewFacts.
Import Review ReviewExamples.

Lemma hexdigest_not_empty (data : list Byte.byte) :
  String.eqb (Md5.hexdigest data) "" = false.
Proof.
  unfold Md5.hexdigest.
  destruct (Md5.digest_state (Md5.of_bytes data)) as [[[a b] c] d].
  reflexivity.
Qed.

Lemma spec_hash_not_empty (d : SpecDir) :
  String.eqb (_compute_spec_hash d) "" = false.
Proof. apply hexdigest_not_empty. Qed.

(** C1 (amended): right after [approve] the approval is valid; later
    it is invalid when the recomputed hash differs from the one stored
    at approval, and still valid when the hash is the same; and
    [is_approval_valid] is: approved, and the stored hash is empty or
    equals the recomputed one. *)
Theorem approval_valid_until_hash_changes
    (self : ReviewState) (spec_dir later : SpecDir)
    (approver now : string) (auto_save : bool) :
  let approved_state := fst (approve self spec_dir approver now auto_save) in
  let saved_dir := snd (approve self spec_dir approver now auto_save) in
  is_approval_valid approved_state saved_dir = true
  /\ (_compute_spec_hash later <> _compute_spec_hash spec_dir ->
      is_approval_valid approved_state later = false)
  /\ (_compute_spec_hash later = _compute_spec_hash spec_dir ->
      is_approval_valid approved_state later = true)
  /\ (forall (st : ReviewState) (d : SpecDir),
         is_approval_valid st d
         = approved st
           && (String.eqb (spec_hash st) ""
               || String.eqb (spec_hash st) (_compute_spec_hash d))).
Proof.
  cbv zeta. repeat split.
  - unfold approve, save_if, is_approval_valid; simpl.
    rewrite spec_hash_not_empty.
    destruct auto_save; apply String.eqb_refl.
  - intros Hne. unfold approve, save_if, is_approval_valid; simpl.
    rewrite spec_hash_not_empty.
    apply String.eqb_neq. congruence.
  - intros Heq. unfold approve, save_if, is_approval_valid; simpl.
    rewrite spec_hash_not_empty, Heq. apply String.eqb_refl.
  - intros st d. unfold is_approval_valid.
    destruct (approved st); simpl; [|reflexivity].
    destruct (String.eqb (spec_hash st) ""); reflexivity.
Qed.

Lemma approval_valid_until_hash_changes_witness :
  let st := fst (approve default_state dir_a "alice" "2024-07-01T10:00:00" true) in
  _compute_spec_hash (write_spec_md (Md5.encode "changed") dir_a)
    <> _compute_spec_hash dir_a
  /\ is_approval_valid st (write_spec_md (Md5.encode "changed") dir_a) = false.
Proof.
  cbv zeta.
  assert (H : _compute_spec_hash (write_spec_md (Md5.encode "changed") dir_a)
              <> _compute_spec_hash dir_a).
  { vm_compute. discriminate. }
  split; [exact H|].
  exact (proj1 (proj2 (approval_valid_until_hash_changes default_state dir_a
           (write_spec_md (Md5.encode "changed") dir_a)
           "alice" "2024-07-01T10:00:00" true)) H).
Defined.

Lemma md5_collision_keeps_approval_valid :
  bytes_eqb collision_a collision_b = false
  /\ is_approval_valid
       (fst (approve default_state dir_a "alice" "2024-07-01T10:00:00" true))
       (write_spec_md collision_b dir_a) = true.
Proof. split; vm_compute; reflexivity. Qed.

(** C5: [reject] clears the approval, the approver, the date and the
    hash and adds one to the review count; [invalidate] clears the
    approval, the hash and the date and keeps the approver; both keep the
    feedback; [approve] adds one to the review count, [invalidate] and
    [add_feedback] leave it. *)
Theorem reject_clears_invalidate_preserves
    (self : ReviewState) (spec_dir : SpecDir) (approver now text : string)
    (auto_save : bool) :
  let rejected := fst (reject self spec_dir auto_save) in
  let invalidated := fst (invalidate self spec_dir auto_save) in
  (approved rejected = false /\ approved_by rejected = ""
   /\ approved_at rejected = "" /\ spec_hash rejected = ""
   /\ review_count rejected = review_count self + 1
   /\ feedback rejected = feedback self)
  /\ (approved invalidated = false /\ spec_hash invalidated = ""
      /\ approved_at invalidated = ""
      /\ approved_by invalidated = approved_by self
      /\ feedback invalidated = feedback self
      /\ review_count invalidated = review_count self)
  /\ review_count (fst (approve self spec_dir approver now auto_save))
     = review_count self + 1
  /\ review_count (fst (add_feedback self text spec_dir now auto_save))
     = review_count self.
Proof. cbv zeta. destruct auto_save; repeat split. Qed.
End ReviewFacts.

(* ================================================================= *)
(** ** The QA loop *)

Module QAFacts.
Import QA QAExamples.

Section Recurrence.
Variable key_similarity : string -> string -> Q.
Hypothesis similarity_refl : forall k, (key_similarity k k == 1)%Q.

Lemma same_issue_refl (x : Issue) : same_issue key_similarity x x = true.
Proof.
  unfold same_issue, _issue_similarity.
  destruct (Qle_bool _ _) eqn:E; [|reflexivity].
  apply Qle_bool_iff in E. rewrite similarity_refl in E.
  unfold ISSUE_SIMILARITY_THRESHOLD, Qle in E. simpl in E. lia.
Qed.

Lemma occurrence_count_repeated (x : Issue) (history : list IterationRecord) :
  Forall (fun r => issues r = [x]) history ->
  occurrence_count key_similarity x history = List.length history + 1.
Proof.
  unfold occurrence_count, historical_issues.
  induction 1 as [|r rest Hr _ IH]; simpl; [reflexivity|].
  rewrite Hr. simpl. rewrite same_issue_refl. simpl. simpl in IH. lia.
Qed.

(** C2 (amended): with a current issue and a history in which every
    iteration holds that issue, the occurrence count is the number of
    prior iterations plus one, and the issue recurs exactly when that
    count reaches the threshold: threshold minus one prior occurrences
    are enough. *)
Theorem recurrence_counts_current_occurrence
    (x : Issue) (history : list IterationRecord) (threshold : nat) :
  Forall (fun r => issues r = [x]) history ->
  has_recurring_issues key_similarity [x] history threshold
  = if threshold <=? List.length history + 1
    then (true, [(x, List.length history + 1)])
    else (false, []).
Proof.
  intros H. unfold has_recurring_issues. simpl.
  rewrite (occurrence_count_repeated x history H).
  destruct (threshold <=? List.length history + 1); reflexivity.
Qed.
End Recurrence.

Lemma exact_similarity_refl (k : string) : (exact_similarity k k == 1)%Q.
Proof. unfold exact_similarity. rewrite String.eqb_refl. reflexivity. Qed.

Lemma recurrence_counts_current_occurrence_witness :
  has_recurring_issues exact_similarity [same_error]
    [rejected_with same_error 1; rejected_with same_error 2]
    RECURRING_ISSUE_THRESHOLD
  = (true, [(same_error, 3)])
  /\ has_recurring_issues exact_similarity [same_error]
       [rejected_with same_error 1] RECURRING_ISSUE_THRESHOLD
     = (false, []).
Proof.
  split.
  - apply (recurrence_counts_current_occurrence exact_similarity
             exact_similarity_refl same_error
             [rejected_with same_error 1; rejected_with same_error 2] 3).
    repeat constructor.
  - apply (recurrence_counts_current_occurrence exact_similarity
             exact_similarity_refl same_error
             [rejected_with same_error 1] 3).
    repeat constructor.
Defined.

Lemma recurring_at_threshold_minus_one_counterexample :
  List.length [rejected_with same_error 1; rejected_with same_error 2]
  = RECURRING_ISSUE_THRESHOLD - 1
  /\ has_recurring_issues exact_similarity [same_error]
       [rejected_with same_error 1; rejected_with same_error 2]
       RECURRING_ISSUE_THRESHOLD
     = (true, [(same_error, RECURRING_ISSUE_THRESHOLD)]).
Proof. split; vm_compute; reflexivity. Qed.

Section Loop.
Variable Ext : Type.
Variable key_similarity : string -> string -> Q.
Variable is_build_complete : Disk Ext -> bool.
Variable is_no_test_project : Disk Ext -> bool.
Variable linear_task_id : Disk Ext -> option string.
Variable reviewer_agent : nat -> Disk Ext -> (string + string) * Disk Ext.
Variable fixer_agent : nat -> Disk Ext -> (string + string) * Disk Ext.

(** C9 (amended): when the sign-off is approved at entry, the loop
    returns at once, without a session and without a new history
    entry; it returns true when the build is complete and false when
    it is not. *)
Theorem approved_build_skips_qa_loop (w : World Ext) :
  fst (is_qa_approved Ext w) = true ->
  run_qa_validation_loop Ext key_similarity is_build_complete
    is_no_test_project linear_task_id reviewer_agent fixer_agent w
  = (is_build_complete (disk Ext w), w).
Proof.
  intros H. unfold run_qa_validation_loop, St.bind, St.get.
  cbv beta iota.
  destruct (is_build_complete (disk Ext w)); cbv beta iota delta [negb];
    [|reflexivity].
  destruct (is_qa_approved Ext w) as [a w'] eqn:E.
  cbv beta iota delta [fst] in H. subst a.
  unfold is_qa_approved, get_qa_signoff_status, St.bind, St.get, St.ret in E.
  injection E as _ <-. reflexivity.
Qed.
End Loop.

Lemma approved_build_skips_qa_loop_witness :
  fst (is_qa_approved unit approved_world) = true
  /\ run_qa_validation_loop unit exact_similarity (fun _ => true)
       (fun _ => false) (fun _ => None) silent_agent silent_agent
       approved_world
     = (true, approved_world).
Proof.
  split; [reflexivity|].
  apply (approved_build_skips_qa_loop unit exact_similarity (fun _ => true)
           (fun _ => false) (fun _ => None) silent_agent silent_agent
           approved_world).
  reflexivity.
Defined.

Lemma approved_but_incomplete_build_counterexample :
  fst (is_qa_approved unit approved_world) = true
  /\ run_qa_validation_loop unit exact_similarity (fun _ => false)
       (fun _ => false) (fun _ => None) silent_agent silent_agent
       approved_world
     = (false, approved_world).
Proof. split; vm_compute; reflexivity. Qed.
End QAFacts.

(* ================================================================= *)
(** ** The phases *)

Module PhaseFacts.
Import Phases PhaseSpec.

Ltac norm :=
  cbv beta iota;
  cbn [disk dir outside calls task_description fst snd andb negb].

Ltac mstep :=
  unfold agent, exists_, write_file, check,
    create_minimal_research, create_minimal_critique,
    create_minimal_context, create_minimal_plan, create_empty_hints,
    save_requirements, load_requirements, set_task_description;
  unfold invoke, write_file, with_dir;
  unfold St.when;
  unfold St.bind, St.ret, St.get, St.modify;
  norm.

Section Executor.
Variable Ext : Type.
Variable spec_dir : string.
Variable run_agent_fn : string -> Disk Ext -> (bool * string) * Disk Ext.
Variable script_exists : Ext -> string -> bool.
Variable run_script : string -> Disk Ext -> (bool * string) * Disk Ext.
Variable run_discovery_script : Disk Ext -> (bool * string) * Disk Ext.
Variable run_context_discovery :
  string -> list string -> Disk Ext -> (bool * string) * Disk Ext.
Variable is_graphiti_enabled : Ext -> bool.
Variable get_graph_hints :
  string -> Disk Ext -> (list string + string) * Disk Ext.
Variable gather_requirements_interactively :
  Disk Ext -> option (string * list (string * Json)) * Disk Ext.
Variable validate_spec_document : Dir -> ValidationResult.
Variable validate_implementation_plan : Dir -> ValidationResult.
Variable validate_all : Dir -> list ValidationResult.
Variable auto_fix_plan : Dir -> bool * Dir.

#[local] Abbreviation W := (World Ext).
#[local] Abbreviation here w name := (file_exists (dir Ext (disk Ext w)) name).
#[local] Abbreviation historical_context :=
  (phase_historical_context Ext spec_dir is_graphiti_enabled get_graph_hints).
#[local] Abbreviation requirements :=
  (phase_requirements Ext spec_dir gather_requirements_interactively).
#[local] Abbreviation quick_spec := (phase_quick_spec Ext spec_dir run_agent_fn).
#[local] Abbreviation research := (phase_research Ext spec_dir run_agent_fn).
#[local] Abbreviation context :=
  (phase_context Ext spec_dir run_context_discovery).
#[local] Abbreviation spec_writing :=
  (phase_spec_writing Ext spec_dir run_agent_fn validate_spec_document).
#[local] Abbreviation self_critique :=
  (phase_self_critique Ext spec_dir run_agent_fn validate_spec_document).
#[local] Abbreviation planning :=
  (phase_planning Ext spec_dir run_agent_fn script_exists run_script
     validate_implementation_plan auto_fix_plan).
#[local] Abbreviation validation :=
  (phase_validation Ext run_agent_fn validate_all).

(** A phase whose successful runs establish [P], and which skips
    with the same files when [P] holds, is re-entrant. *)
Lemma reentrant_from (run : St.M W PhaseResult) (name : string)
    (files : list string) (P : W -> Prop) :
  (forall w, success (fst (run w)) = true ->
             phase (fst (run w)) = name
             /\ output_files (fst (run w)) = files
             /\ P (snd (run w))) ->
  (forall w, P w -> run w = (result name true files [] 0, w)) ->
  reentrant run.
Proof.
  intros Hpost Hskip w Hok.
  destruct (Hpost w Hok) as (Hname & Hfiles & HP).
  rewrite (Hskip _ HP). unfold skipped, result.
  rewrite Hname, Hfiles. reflexivity.
Qed.

(** *** research *)

Definition research_post (r : PhaseResult) (w1 : W) : Prop :=
  success r = true /\ phase r = "research"
  /\ output_files r = [path spec_dir "research.json"]
  /\ here w1 "research.json" = true.

Lemma research_loop_post (attempts : list nat) :
  forall errors w,
    research_post
      (fst (research_loop Ext spec_dir run_agent_fn attempts errors w))
      (snd (research_loop Ext spec_dir run_agent_fn attempts errors w)).
Proof.
  induction attempts as [|attempt rest IH]; intros errors w.
  - repeat split.
  - cbn [research_loop]. mstep.
    destruct (run_agent_fn "spec_researcher.md" (disk Ext w)) as [[ok out] d].
    destruct ok; norm.
    + destruct (file_exists (dir Ext d) "research.json") eqn:E; norm;
        repeat split; norm; first [assumption | reflexivity].
    + apply IH.
Qed.

Lemma research_skips (w : W) :
  here w "research.json" = true ->
  research w = (result "research" true [path spec_dir "research.json"] [] 0, w).
Proof. intros H. unfold phase_research. mstep. rewrite H. reflexivity. Qed.

Lemma research_run_post (w : W) :
  research_post (fst (research w)) (snd (research w)).
Proof.
  unfold phase_research. mstep.
  destruct (here w "research.json") eqn:E; norm.
  - repeat split; assumption.
  - destruct (here w "requirements.json"); norm.
    + apply research_loop_post.
    + repeat split.
Qed.

Lemma research_reentrant : reentrant research.
Proof.
  apply (reentrant_from research "research"
           [path spec_dir "research.json"]
           (fun w => here w "research.json" = true)).
  - intros w _. destruct (research_run_post w) as (_ & H1 & H2 & H3). auto.
  - apply research_skips.
Qed.

(** When the agent reports a failure at every attempt, the phase
    still succeeds after [MAX_RETRIES] attempts and leaves the
    placeholder with its reason. *)
Lemma research_degrades (w : W) :
  (forall prompt d, fst (fst (run_agent_fn prompt d)) = false) ->
  here w "research.json" = false ->
  here w "requirements.json" = true ->
  success (fst (research w)) = true
  /\ retries (fst (research w)) = MAX_RETRIES
  /\ List.length (errors (fst (research w))) = MAX_RETRIES
  /\ dir Ext (disk Ext (snd (research w))) "research.json"
     = Some (Object [("reason", JStr "Research agent failed after retries")])
  /\ calls Ext (snd (research w))
     = (calls Ext w ++ repeat (Agent "spec_researcher.md") MAX_RETRIES)%list.
Proof.
  intros Hfail Hno Hreq. unfold phase_research. mstep.
  rewrite Hno, Hreq. norm. unfold attempts, MAX_RETRIES. cbn [seq research_loop].
  mstep.
  pose proof (Hfail "spec_researcher.md" (disk Ext w)) as H1.
  destruct (run_agent_fn "spec_researcher.md" (disk Ext w)) as [[ok1 o1] d1].
  cbn [fst] in H1. subst ok1. norm.
  pose proof (Hfail "spec_researcher.md" d1) as H2.
  destruct (run_agent_fn "spec_researcher.md" d1) as [[ok2 o2] d2].
  cbn [fst] in H2. subst ok2. norm.
  pose proof (Hfail "spec_researcher.md" d2) as H3.
  destruct (run_agent_fn "spec_researcher.md" d2) as [[ok3 o3] d3].
  cbn [fst] in H3. subst ok3. norm.
  repeat split. cbn. rewrite <- !app_assoc. reflexivity.
Qed.

(** *** context *)

Lemma context_loop_success (task : string) (services : list string)
    (attempts : list nat) :
  forall errors w,
    success (fst (context_loop Ext spec_dir run_context_discovery
                    task services attempts errors w)) = true.
Proof.
  induction attempts as [|attempt rest IH]; intros errors w.
  - reflexivity.
  - cbn [context_loop]. mstep.
    destruct (run_context_discovery (or_unknown task) services (disk Ext w))
      as [[ok out] d].
    destruct ok; norm; [reflexivity | apply IH].
Qed.

Lemma context_success (w : W) : success (fst (context w)) = true.
Proof.
  unfold phase_context. mstep.
  destruct (here w "context.json"); norm; [reflexivity|].
  destruct (dir Ext (disk Ext w) "requirements.json") as [[[|f fs]| |]|];
    apply context_loop_success.
Qed.

Lemma context_skips (w : W) :
  here w "context.json" = true ->
  context w = (result "context" true [path spec_dir "context.json"] [] 0, w).
Proof. intros H. unfold phase_context. mstep. rewrite H. reflexivity. Qed.

(** *** self_critique *)

Lemma self_critique_loop_success (attempts : list nat) :
  forall errors w,
    success (fst (self_critique_loop Ext spec_dir run_agent_fn
                    validate_spec_document attempts errors w)) = true.
Proof.
  induction attempts as [|attempt rest IH]; intros errors w.
  - reflexivity.
  - cbn [self_critique_loop]. mstep.
    destruct (run_agent_fn "spec_critic.md" (disk Ext w)) as [[ok out] d].
    destruct ok; norm; [|apply IH].
    destruct (file_exists (dir Ext d) "critique_report.json"); norm.
    + destruct (valid (validate_spec_document (dir Ext d)));
        [reflexivity | apply IH].
    + destruct (valid (validate_spec_document _)); [reflexivity | apply IH].
Qed.

Ltac loop_result :=
  match goal with
  | |- context [self_critique_loop ?a ?b ?c ?d ?e ?f ?g] =>
      pose proof (self_critique_loop_success e f g) as Hs;
      destruct (self_critique_loop a b c d e f g) as [r w'];
      exists r; split; [reflexivity | exact Hs]
  end.

Lemma self_critique_success (w : W) :
  here w "spec.md" = true ->
  (forall c, dir Ext (disk Ext w) "critique_report.json" = Some c ->
             exists fields, c = Object fields) ->
  exists r, fst (self_critique w) = Done r /\ success r = true.
Proof.
  intros Hspec Hobj. unfold phase_self_critique. mstep. rewrite Hspec. norm.
  destruct (dir Ext (disk Ext w) "critique_report.json") as [c|] eqn:E.
  - destruct (Hobj c eq_refl) as [fields ->].
    destruct (get_flag fields "issues_fixed" || get_flag fields "no_issues_found").
    + eexists; split; reflexivity.
    + loop_result.
  - loop_result.
Qed.

Lemma self_critique_needs_spec (w : W) :
  here w "spec.md" = false ->
  self_critique w
  = (Done (result "self_critique" false [] ["spec.md does not exist"] 0), w).
Proof. intros H. unfold phase_self_critique. mstep. rewrite H. reflexivity. Qed.

Lemma self_critique_skips (w : W) (critique : list (string * Json)) :
  here w "spec.md" = true ->
  dir Ext (disk Ext w) "critique_report.json" = Some (Object critique) ->
  get_flag critique "issues_fixed" || get_flag critique "no_issues_found" = true ->
  self_critique w
  = (Done (result "self_critique" true
             [path spec_dir "critique_report.json"] [] 0), w).
Proof.
  intros Hspec Hc Hflag. unfold phase_self_critique. mstep.
  rewrite Hspec, Hc. norm. rewrite Hflag. reflexivity.
Qed.

(** *** historical_context *)

Lemma historical_context_post (w : W) :
  success (fst (historical_context w)) = true
  /\ phase (fst (historical_context w)) = "historical_context"
  /\ output_files (fst (historical_context w))
     = [path spec_dir "graph_hints.json"]
  /\ here (snd (historical_context w)) "graph_hints.json" = true.
Proof.
  unfold phase_historical_context. mstep.
  destruct (here w "graph_hints.json") eqn:E; norm.
  { repeat split; assumption. }
  destruct (is_graphiti_enabled (outside Ext (disk Ext w))); norm.
  2: { repeat split. }
  match goal with
  | |- context [PyStr.truthy ?q] => destruct (PyStr.truthy q)
  end; norm.
  2: { repeat split. }
  match goal with
  | |- context [get_graph_hints ?q ?d] =>
      destruct (get_graph_hints q d) as [[hints|e] d']
  end; norm; repeat split.
Qed.

Lemma historical_context_skips (w : W) :
  here w "graph_hints.json" = true ->
  historical_context w
  = (result "historical_context" true [path spec_dir "graph_hints.json"] [] 0, w).
Proof.
  intros H. unfold phase_historical_context. mstep. rewrite H. reflexivity.
Qed.

Lemma historical_context_reentrant : reentrant historical_context.
Proof.
  apply (reentrant_from historical_context "historical_context"
           [path spec_dir "graph_hints.json"]
           (fun w => here w "graph_hints.json" = true)).
  - intros w _. destruct (historical_context_post w) as (_ & H1 & H2 & H3). auto.
  - apply historical_context_skips.
Qed.

(** *** requirements *)

Lemma requirements_skips (interactive : bool) (w : W) :
  here w "requirements.json" = true ->
  requirements interactive w
  = (result "requirements" true [path spec_dir "requirements.json"] [] 0, w).
Proof. intros H. unfold phase_requirements. mstep. rewrite H. reflexivity. Qed.

Lemma requirements_post (interactive : bool) (w : W) :
  success (fst (requirements interactive w)) = true ->
  phase (fst (requirements interactive w)) = "requirements"
  /\ output_files (fst (requirements interactive w))
     = [path spec_dir "requirements.json"]
  /\ here (snd (requirements interactive w)) "requirements.json" = true.
Proof.
  unfold phase_requirements. mstep.
  destruct (here w "requirements.json") eqn:E; norm.
  { intros _. repeat split; assumption. }
  destruct (PyStr.truthy (task_description Ext w)); destruct interactive; norm.
  - destruct (gather_requirements_interactively (disk Ext w))
      as [[[task fields]|] d]; norm; intros H;
      [repeat split | discriminate H].
  - intros _. repeat split.
  - destruct (gather_requirements_interactively (disk Ext w))
      as [[[task fields]|] d]; norm; intros H;
      [repeat split | discriminate H].
  - intros _. repeat split.
Qed.

Lemma requirements_reentrant (interactive : bool) :
  reentrant (requirements interactive).
Proof.
  apply (reentrant_from (requirements interactive) "requirements"
           [path spec_dir "requirements.json"]
           (fun w => here w "requirements.json" = true)).
  - apply requirements_post.
  - apply requirements_skips.
Qed.

(** *** quick_spec *)

Definition quick_spec_files : list string :=
  [path spec_dir "spec.md"; path spec_dir "implementation_plan.json"].

Lemma quick_spec_skips (w : W) :
  here w "spec.md" = true /\ here w "implementation_plan.json" = true ->
  quick_spec w = (result "quick_spec" true quick_spec_files [] 0, w).
Proof.
  intros [H1 H2]. unfold phase_quick_spec. mstep. rewrite H1, H2. reflexivity.
Qed.

Lemma quick_spec_loop_post (attempts : list nat) :
  forall errors w,
    let run := quick_spec_loop Ext spec_dir run_agent_fn attempts errors w in
    success (fst run) = true ->
    phase (fst run) = "quick_spec"
    /\ output_files (fst run) = quick_spec_files
    /\ here (snd run) "spec.md" = true
    /\ here (snd run) "implementation_plan.json" = true.
Proof.
  cbv zeta.
  induction attempts as [|attempt rest IH]; intros errors w.
  - intros H; discriminate H.
  - cbn [quick_spec_loop]. mstep.
    destruct (run_agent_fn "spec_quick.md" (disk Ext w)) as [[ok out] d].
    destruct ok; norm; [|apply IH].
    destruct (file_exists (dir Ext d) "spec.md") eqn:E1; norm; [|apply IH].
    destruct (file_exists (dir Ext d) "implementation_plan.json") eqn:E2;
      norm; intros _; repeat split; norm; assumption.
Qed.

Lemma quick_spec_reentrant : reentrant quick_spec.
Proof.
  apply (reentrant_from quick_spec "quick_spec" quick_spec_files
           (fun w => here w "spec.md" = true
                     /\ here w "implementation_plan.json" = true)).
  - intros w. unfold phase_quick_spec. mstep.
    destruct (here w "spec.md") eqn:E1; norm.
    + destruct (here w "implementation_plan.json") eqn:E2; norm.
      * intros _. repeat split; assumption.
      * intros H. destruct (quick_spec_loop_post attempts [] w H)
          as (? & ? & ? & ?). auto.
    + intros H. destruct (quick_spec_loop_post attempts [] w H)
        as (? & ? & ? & ?). auto.
  - apply quick_spec_skips.
Qed.

(** *** spec_writing *)

Definition spec_ready (w : W) : Prop :=
  here w "spec.md" = true
  /\ valid (validate_spec_document (dir Ext (disk Ext w))) = true.

Lemma spec_writing_skips (w : W) :
  spec_ready w ->
  spec_writing w
  = (result "spec_writing" true [path spec_dir "spec.md"] [] 0, w).
Proof.
  intros [H1 H2]. unfold phase_spec_writing. mstep. rewrite H1. norm.
  rewrite H2. reflexivity.
Qed.

Lemma spec_writing_loop_post (attempts : list nat) :
  forall errors w,
    let run := spec_writing_loop Ext spec_dir run_agent_fn
                 validate_spec_document attempts errors w in
    success (fst run) = true ->
    phase (fst run) = "spec_writing"
    /\ output_files (fst run) = [path spec_dir "spec.md"]
    /\ spec_ready (snd run).
Proof.
  cbv zeta.
  induction attempts as [|attempt rest IH]; intros errors w.
  - intros H; discriminate H.
  - cbn [spec_writing_loop]. mstep.
    destruct (run_agent_fn "spec_writer.md" (disk Ext w)) as [[ok out] d].
    destruct ok; norm; [|apply IH].
    destruct (file_exists (dir Ext d) "spec.md") eqn:E1; norm; [|apply IH].
    destruct (valid (validate_spec_document (dir Ext d))) eqn:E2; [|apply IH].
    intros _. repeat split; assumption.
Qed.

Lemma spec_writing_reentrant : reentrant spec_writing.
Proof.
  apply (reentrant_from spec_writing "spec_writing"
           [path spec_dir "spec.md"] spec_ready).
  - intros w. unfold phase_spec_writing. mstep.
    destruct (here w "spec.md") eqn:E1; norm.
    + destruct (valid (validate_spec_document (dir Ext (disk Ext w)))) eqn:E2.
      * intros _. repeat split; assumption.
      * apply spec_writing_loop_post.
    + apply spec_writing_loop_post.
  - apply spec_writing_skips.
Qed.

(** *** validation *)

Definition all_valid (w : W) : Prop :=
  forallb valid (validate_all (dir Ext (disk Ext w))) = true.

Lemma validation_skips (w : W) :
  all_valid w -> validation w = (result "validation" true [] [] 0, w).
Proof.
  intros H. unfold phase_validation, attempts, MAX_RETRIES.
  cbn [seq validation_loop]. mstep. rewrite H. reflexivity.
Qed.

Lemma validation_loop_post (attempts : list nat) :
  forall results w,
    let run := validation_loop Ext run_agent_fn validate_all
                 attempts results w in
    success (fst run) = true ->
    phase (fst run) = "validation" /\ output_files (fst run) = []
    /\ all_valid (snd run).
Proof.
  cbv zeta.
  induction attempts as [|attempt rest IH]; intros results w.
  - intros H; discriminate H.
  - cbn [validation_loop]. mstep.
    destruct (forallb valid (validate_all (dir Ext (disk Ext w)))) eqn:E.
    + intros _. repeat split. exact E.
    + destruct (attempt <? MAX_RETRIES - 1); norm.
      * destruct (run_agent_fn "validation_fixer.md" (disk Ext w))
          as [[ok out] d]. norm. apply IH.
      * apply IH.
Qed.

Lemma validation_reentrant : reentrant validation.
Proof.
  apply (reentrant_from validation "validation" [] all_valid).
  - intros w. apply validation_loop_post.
  - apply validation_skips.
Qed.

(** *** planning *)

Lemma planning_skips (w : W) :
  here w "implementation_plan.json" = true ->
  valid (validate_implementation_plan (dir Ext (disk Ext w))) = true ->
  planning w
  = (result "planning" true [path spec_dir "implementation_plan.json"] [] 0, w).
Proof.
  intros H1 H2. unfold phase_planning. mstep. rewrite H1. norm.
  rewrite H2. reflexivity.
Qed.

(** *** Attempts used up *)

Lemma append_length (errors : list string) (e : string) :
  List.length (PyList.append errors e) = S (List.length errors).
Proof. unfold PyList.append. rewrite length_app. simpl. lia. Qed.

Lemma calls_snoc (cs : list Call) (c : Call) (n : nat) :
  ((cs ++ [c]) ++ repeat c n = cs ++ repeat c (S n))%list.
Proof. rewrite <- app_assoc. reflexivity. Qed.

Lemma write_same (name : string) (c : Content) (d : Dir) :
  write name c d name = Some c.
Proof. unfold write. rewrite String.eqb_refl. reflexivity. Qed.

(** The outcome of a soft phase whose [n] attempts all failed: success
    with [MAX_RETRIES] retries, one error more per attempt, the
    placeholder on disk, and one call of the collaborator per
    attempt. *)
Definition exhausted (name file : string) (placeholder : Content) (c : Call)
    (n : nat) (errors0 : list string) (w : W) (res : PhaseResult * W) : Prop :=
  phase (fst res) = name
  /\ success (fst res) = true
  /\ output_files (fst res) = [path spec_dir file]
  /\ retries (fst res) = MAX_RETRIES
  /\ List.length (errors (fst res)) = List.length errors0 + n
  /\ dir Ext (disk Ext (snd res)) file = Some placeholder
  /\ calls Ext (snd res) = (calls Ext w ++ repeat c n)%list.

Lemma context_loop_exhausted (task : string) (services : list string)
    (attempts : list nat) :
  (forall t s d, fst (fst (run_context_discovery t s d)) = false) ->
  forall errors w,
    exhausted "context" "context.json"
      (Object [("task_description", JStr (or_unknown task));
               ("services_involved", JList services)])
      ContextDiscovery (List.length attempts) errors w
      (context_loop Ext spec_dir run_context_discovery
         task services attempts errors w).
Proof.
  intros Hfail.
  induction attempts as [|attempt rest IH]; intros errors w.
  - unfold exhausted. cbn [context_loop]. mstep. cbn [List.length repeat].
    rewrite write_same, Nat.add_0_r, app_nil_r. repeat split.
  - cbn [context_loop]. mstep.
    pose proof (Hfail (or_unknown task) services (disk Ext w)) as H.
    destruct (run_context_discovery (or_unknown task) services (disk Ext w))
      as [[ok out] d].
    cbn [fst] in H. subst ok. norm.
    match goal with
    | |- exhausted _ _ _ _ _ _ _ (context_loop _ _ _ _ _ _ ?e ?w1) =>
        destruct (IH e w1) as (H1 & H2 & H3 & H4 & H5 & H6 & H7)
    end.
    unfold exhausted. repeat split; try assumption.
    + rewrite H5, append_length. cbn [List.length]. lia.
    + rewrite H7. norm. cbn [List.length]. apply calls_snoc.
Qed.

Lemma context_degrades (w : W) :
  (forall t s d, fst (fst (run_context_discovery t s d)) = false) ->
  here w "context.json" = false ->
  exhausted "context" "context.json"
    (Object [("task_description", JStr (or_unknown (fst (context_request w))));
             ("services_involved", JList (snd (context_request w)))])
    ContextDiscovery MAX_RETRIES [] w (context w).
Proof.
  intros Hfail Hno. unfold phase_context, context_request. mstep.
  rewrite Hno. norm.
  destruct (dir Ext (disk Ext w) "requirements.json") as [[[|f fs]| |]|];
    apply (context_loop_exhausted _ _ attempts Hfail).
Qed.

Lemma self_critique_loop_exhausted (attempts : list nat) :
  (forall prompt d, fst (fst (run_agent_fn prompt d)) = false)
  \/ (forall d, valid (validate_spec_document d) = false) ->
  forall errors w,
    exhausted "self_critique" "critique_report.json"
      (Object [("reason", JStr "Critique failed after retries")])
      (Agent "spec_critic.md") (List.length attempts) errors w
      (self_critique_loop Ext spec_dir run_agent_fn validate_spec_document
         attempts errors w).
Proof.
  intros Hfail.
  induction attempts as [|attempt rest IH]; intros errors w.
  - unfold exhausted. cbn [self_critique_loop]. mstep. cbn [List.length repeat].
    rewrite write_same, Nat.add_0_r, app_nil_r. repeat split.
  - cbn [self_critique_loop]. mstep.
    assert (Hagent :
      (forall prompt d, fst (fst (run_agent_fn prompt d)) = false) ->
      fst (fst (run_agent_fn "spec_critic.md" (disk Ext w))) = false)
      by (intros H; apply H).
    destruct (run_agent_fn "spec_critic.md" (disk Ext w)) as [[ok out] d].
    cbn [fst] in Hagent.
    assert (Hstep : forall e w1,
      calls Ext w1 = (calls Ext w ++ [Agent "spec_critic.md"])%list ->
      exhausted "self_critique" "critique_report.json"
        (Object [("reason", JStr "Critique failed after retries")])
        (Agent "spec_critic.md") (S (List.length rest)) errors w
        (self_critique_loop Ext spec_dir run_agent_fn validate_spec_document
           rest (PyList.append errors e) w1)).
    { intros e w1 Hc.
      destruct (IH (PyList.append errors e) w1)
        as (H1 & H2 & H3 & H4 & H5 & H6 & H7).
      unfold exhausted. repeat split; try assumption.
      - rewrite H5, append_length. lia.
      - rewrite H7, Hc. apply calls_snoc. }
    destruct ok; norm.
    + destruct Hfail as [Hf|Hv]; [discriminate (Hagent Hf)|].
      destruct (file_exists (dir Ext d) "critique_report.json"); norm;
        rewrite Hv; apply Hstep; reflexivity.
    + apply Hstep. reflexivity.
Qed.

Lemma self_critique_degrades (w : W) :
  here w "spec.md" = true ->
  (forall c, dir Ext (disk Ext w) "critique_report.json" = Some c ->
             exists fields,
               c = Object fields
               /\ get_flag fields "issues_fixed"
                  || get_flag fields "no_issues_found" = false) ->
  (forall prompt d, fst (fst (run_agent_fn prompt d)) = false)
  \/ (forall d, valid (validate_spec_document d) = false) ->
  exists r,
    fst (self_critique w) = Done r
    /\ exhausted "self_critique" "critique_report.json"
         (Object [("reason", JStr "Critique failed after retries")])
         (Agent "spec_critic.md") MAX_RETRIES [] w
         (r, snd (self_critique w)).
Proof.
  intros Hspec Hobj Hfail. unfold phase_self_critique. mstep.
  rewrite Hspec. norm.
  pose proof (self_critique_loop_exhausted attempts Hfail [] w) as Hloop.
  destruct (dir Ext (disk Ext w) "critique_report.json") as [c|] eqn:E.
  - destruct (Hobj c eq_refl) as (fields & -> & Hflags). rewrite Hflags.
    destruct (self_critique_loop _ _ _ _ attempts [] w) as [r w1].
    exists r. split; [reflexivity | exact Hloop].
  - destruct (self_critique_loop _ _ _ _ attempts [] w) as [r w1].
    exists r. split; [reflexivity | exact Hloop].
Qed.

(** Whatever the attempts give, the loop leaves a critique report. *)
Lemma self_critique_loop_leaves_report (attempts : list nat) :
  forall errors w,
    here (snd (self_critique_loop Ext spec_dir run_agent_fn
                 validate_spec_document attempts errors w))
      "critique_report.json" = true.
Proof.
  induction attempts as [|attempt rest IH]; intros errors w.
  - cbn [self_critique_loop]. mstep. unfold file_exists.
    rewrite write_same. reflexivity.
  - cbn [self_critique_loop]. mstep.
    destruct (run_agent_fn "spec_critic.md" (disk Ext w)) as [[ok out] d].
    destruct ok; norm; [|apply IH].
    destruct (file_exists (dir Ext d) "critique_report.json") eqn:E; norm.
    + destruct (valid (validate_spec_document (dir Ext d)));
        [norm; exact E | apply IH].
    + destruct (valid (validate_spec_document _)); [|apply IH].
      norm. unfold file_exists. rewrite write_same. reflexivity.
Qed.

Lemma self_critique_leaves_report (w : W) :
  here w "spec.md" = true ->
  (forall c, dir Ext (disk Ext w) "critique_report.json" = Some c ->
             exists fields, c = Object fields) ->
  here (snd (self_critique w)) "critique_report.json" = true.
Proof.
  intros Hspec Hobj. unfold phase_self_critique. mstep. rewrite Hspec. norm.
  pose proof (self_critique_loop_leaves_report attempts [] w) as Hloop.
  destruct (dir Ext (disk Ext w) "critique_report.json") as [c|] eqn:E.
  - destruct (Hobj c eq_refl) as [fields ->].
    destruct (get_flag fields "issues_fixed" || get_flag fields "no_issues_found").
    + norm. unfold file_exists. rewrite E. reflexivity.
    + destruct (self_critique_loop _ _ _ _ attempts [] w) as [r w1]. exact Hloop.
  - destruct (self_critique_loop _ _ _ _ attempts [] w) as [r w1]. exact Hloop.
Qed.

Lemma research_without_requirements (w : W) :
  here w "research.json" = false ->
  here w "requirements.json" = false ->
  fst (research w) = result "research" true [path spec_dir "research.json"] [] 0
  /\ dir Ext (disk Ext (snd (research w))) "research.json"
     = Some (Object [("reason", JStr "No requirements file available")])
  /\ calls Ext (snd (research w)) = calls Ext w.
Proof.
  intros H1 H2. unfold phase_research. mstep. rewrite H1, H2. norm.
  rewrite write_same. repeat split.
Qed.

(** C7 (amended): [phase_research] and [phase_context] always report
    success.  [phase_self_critique] reports success when spec.md
    exists and critique_report.json is absent or a JSON object, and
    reports failure when spec.md does not exist.  When the research
    agent fails at every attempt, the phase ends after [MAX_RETRIES]
    attempts, with one error per attempt and the placeholder that
    carries the reason.

    Every soft phase degrades to its placeholder.  [phase_research]
    always leaves research.json, and without requirements.json it
    writes the placeholder with the reason of the skip.  When context
    discovery fails at every attempt, [phase_context] reports
    [MAX_RETRIES] retries and one error per attempt and writes the
    minimal context.json from the task (or unknown task) and the
    services it started from.  A successful [phase_self_critique]
    always leaves critique_report.json; when every attempt fails,
    because the agent fails or because the spec stays invalid, it
    reports success with [MAX_RETRIES] retries and one error per
    attempt and writes the placeholder with the reason
    Critique failed after retries. *)
Theorem soft_phases_degrade_to_success (w : W) :
  success (fst (research w)) = true
  /\ success (fst (context w)) = true
  /\ (here w "spec.md" = true ->
      (forall c, dir Ext (disk Ext w) "critique_report.json" = Some c ->
                 exists fields, c = Object fields) ->
      exists r, fst (self_critique w) = Done r /\ success r = true)
  /\ (here w "spec.md" = false ->
      self_critique w
      = (Done (result "self_critique" false [] ["spec.md does not exist"] 0), w))
  /\ ((forall prompt d, fst (fst (run_agent_fn prompt d)) = false) ->
      here w "research.json" = false ->
      here w "requirements.json" = true ->
      retries (fst (research w)) = MAX_RETRIES
      /\ List.length (errors (fst (research w))) = MAX_RETRIES
      /\ dir Ext (disk Ext (snd (research w))) "research.json"
         = Some (Object [("reason", JStr "Research agent failed after retries")]))
  /\ here (snd (research w)) "research.json" = true
  /\ (here w "research.json" = false ->
      here w "requirements.json" = false ->
      dir Ext (disk Ext (snd (research w))) "research.json"
      = Some (Object [("reason", JStr "No requirements file available")]))
  /\ ((forall task services d,
          fst (fst (run_context_discovery task services d)) = false) ->
      here w "context.json" = false ->
      retries (fst (context w)) = MAX_RETRIES
      /\ List.length (errors (fst (context w))) = MAX_RETRIES
      /\ output_files (fst (context w)) = [path spec_dir "context.json"]
      /\ dir Ext (disk Ext (snd (context w))) "context.json"
         = Some (Object
                   [("task_description",
                     JStr (or_unknown (fst (context_request w))));
                    ("services_involved", JList (snd (context_request w)))]))
  /\ (here w "spec.md" = true ->
      (forall c, dir Ext (disk Ext w) "critique_report.json" = Some c ->
                 exists fields, c = Object fields) ->
      here (snd (self_critique w)) "critique_report.json" = true)
  /\ (here w "spec.md" = true ->
      (forall c, dir Ext (disk Ext w) "critique_report.json" = Some c ->
                 exists fields,
                   c = Object fields
                   /\ get_flag fields "issues_fixed"
                      || get_flag fields "no_issues_found" = false) ->
      (forall prompt d, fst (fst (run_agent_fn prompt d)) = false)
      \/ (forall d, valid (validate_spec_document d) = false) ->
      exists r,
        fst (self_critique w) = Done r
        /\ success r = true
        /\ retries r = MAX_RETRIES
        /\ List.length (errors r) = MAX_RETRIES
        /\ output_files r = [path spec_dir "critique_report.json"]
        /\ dir Ext (disk Ext (snd (self_critique w))) "critique_report.json"
           = Some (Object [("reason", JStr "Critique failed after retries")])).
Proof.
  split; [apply research_run_post|].
  split; [apply context_success|].
  split; [apply self_critique_success|].
  split; [apply self_critique_needs_spec|].
  split.
  { intros Hfail Hno Hreq.
    destruct (research_degrades w Hfail Hno Hreq) as (_ & H1 & H2 & H3 & _).
    repeat split; assumption. }
  split; [apply research_run_post|].
  split.
  { intros Hno Hreq.
    apply (research_without_requirements w Hno Hreq). }
  split.
  { intros Hfail Hno.
    destruct (context_degrades w Hfail Hno)
      as (_ & _ & H3 & H4 & H5 & H6 & _).
    repeat split; assumption. }
  split; [apply self_critique_leaves_report|].
  intros Hspec Hobj Hfail.
  destruct (self_critique_degrades w Hspec Hobj Hfail)
    as (r & Hr & _ & H2 & H3 & H4 & H5 & H6 & _).
  exists r. repeat split; assumption.
Qed.

(** C8 (amended): historical_context, requirements, quick_spec,
    research, spec_writing and validation are re-entrant: after a run
    that succeeded, a second run invokes nothing and returns success
    with the same files and no retry.  context and planning skip when
    their artifact exists (and the plan validates); self_critique
    skips only when the critique report says that the issues were
    fixed or that none was found. *)
Theorem phases_skip_after_success (w : W) :
  reentrant historical_context
  /\ (forall interactive, reentrant (requirements interactive))
  /\ reentrant quick_spec
  /\ reentrant research
  /\ reentrant spec_writing
  /\ reentrant validation
  /\ (here w "context.json" = true ->
      context w
      = (result "context" true [path spec_dir "context.json"] [] 0, w))
  /\ (here w "implementation_plan.json" = true ->
      valid (validate_implementation_plan (dir Ext (disk Ext w))) = true ->
      planning w
      = (result "planning" true
           [path spec_dir "implementation_plan.json"] [] 0, w))
  /\ (forall critique,
         here w "spec.md" = true ->
         dir Ext (disk Ext w) "critique_report.json" = Some (Object critique) ->
         get_flag critique "issues_fixed"
         || get_flag critique "no_issues_found" = true ->
         self_critique w
         = (Done (result "self_critique" true
                    [path spec_dir "critique_report.json"] [] 0), w)).
Proof.
  split; [apply historical_context_reentrant|].
  split; [apply requirements_reentrant|].
  split; [apply quick_spec_reentrant|].
  split; [apply research_reentrant|].
  split; [apply spec_writing_reentrant|].
  split; [apply validation_reentrant|].
  split; [apply context_skips|].
  split; [apply planning_skips|].
  intros critique. apply self_critique_skips.
Qed.
End Executor.

Import PhaseExamples.

Lemma soft_phases_degrade_to_success_witness :
  file_exists spec_only "spec.md" = true
  /\ (forall c, spec_only "critique_report.json" = Some c ->
                exists fields,
                  c = Object fields
                  /\ get_flag fields "issues_fixed"
                     || get_flag fields "no_issues_found" = false)
  /\ (forall prompt d, fst (fst (failing_agent prompt d)) = false)
  /\ exists r,
       fst (phase_self_critique unit specs failing_agent always_valid
              (world_of spec_only)) = Done r
       /\ success r = true
       /\ retries r = MAX_RETRIES
       /\ List.length (errors r) = MAX_RETRIES
       /\ output_files r = [path specs "critique_report.json"]
       /\ dir unit (disk unit
                      (snd (phase_self_critique unit specs failing_agent
                              always_valid (world_of spec_only))))
            "critique_report.json"
          = Some (Object [("reason", JStr "Critique failed after retries")]).
Proof.
  assert (H1 : file_exists spec_only "spec.md" = true) by reflexivity.
  assert (H2 : forall c, spec_only "critique_report.json" = Some c ->
                         exists fields,
                           c = Object fields
                           /\ get_flag fields "issues_fixed"
                              || get_flag fields "no_issues_found" = false).
  { intros c H. discriminate H. }
  assert (H3 : forall prompt d, fst (fst (failing_agent prompt d)) = false).
  { intros prompt d. reflexivity. }
  split; [exact H1|]. split; [exact H2|]. split; [exact H3|].
  exact (proj2 (proj2 (proj2 (proj2 (proj2 (proj2 (proj2 (proj2 (proj2
           (soft_phases_degrade_to_success unit specs failing_agent
              (fun _ _ d => ((false, ""), d)) always_valid
              (world_of spec_only)))))))))) H1 H2 (or_introl H3)).
Defined.

Lemma self_critique_without_spec_counterexample :
  fst (phase_self_critique unit specs failing_agent always_valid
         (world_of empty_dir))
  = Done {| phase := "self_critique"; success := false; output_files := [];
            errors := ["spec.md does not exist"]; retries := 0 |}.
Proof. reflexivity. Qed.

Lemma phases_skip_after_success_witness :
  let run := phase_research unit specs failing_agent in
  success (fst (run (world_of requirements_only))) = true
  /\ run (snd (run (world_of requirements_only)))
     = (skipped (fst (run (world_of requirements_only))),
        snd (run (world_of requirements_only))).
Proof.
  cbv zeta.
  assert (H : success (fst (phase_research unit specs failing_agent
                              (world_of requirements_only))) = true)
    by reflexivity.
  split; [exact H|].
  exact (proj1 (proj2 (proj2 (proj2
           (phases_skip_after_success unit specs failing_agent
              (fun _ _ => false) (fun _ d => ((false, ""), d))
              (fun _ _ d => ((false, ""), d))
              (fun _ => false) (fun _ d => (inl [], d))
              (fun d => (None, d))
              always_valid always_valid (fun _ => []) (fun d => (false, d))
              (world_of requirements_only)))))
           (world_of requirements_only) H).
Defined.

Lemma self_critique_reruns_agent_counterexample :
  let run := phase_self_critique unit specs critic_agent always_valid in
  fst (run (world_of spec_only))
  = Done {| phase := "self_critique"; success := true;
            output_files := [path specs "critique_report.json"];
            errors := []; retries := 0 |}
  /\ calls unit (snd (run (world_of spec_only))) = [Agent "spec_critic.md"]
  /\ calls unit (snd (run (snd (run (world_of spec_only)))))
     = [Agent "spec_critic.md"; Agent "spec_critic.md"].
Proof. cbv zeta. repeat split. Qed.
End PhaseFacts.

(* ================================================================= *)
(** * Further properties of the code *)

(** ** The validators *)

Module ValidatorExtras.
Import PyStr Validator ValidatorSpec Re ValidatorProps.

(** *** pkill *)

Lemma split_ws_aux_nil (s cur : string) :
  split_ws_aux s cur = [] <-> cur = "" /\ forall c, contains_char c s = true -> isspace c = true.
Proof.
  revert cur. induction s as [|d r IH]; intros cur; simpl.
  - destruct cur; split.
    + intros _. split; [reflexivity | intros c H; discriminate H].
    + reflexivity.
    + intros H; discriminate H.
    + intros [H _]; discriminate H.
  - destruct (isspace d) eqn:Ed.
    + destruct cur as [|c0 cur'].
      * rewrite IH. split.
        -- intros [_ H]. split; [reflexivity|]. intros c Hc.
           apply orb_true_iff in Hc as [Hc|Hc]; [|auto].
           apply Ascii.eqb_eq in Hc. subst c. exact Ed.
        -- intros [_ H]. split; [reflexivity|]. intros c Hc. apply H.
           rewrite Hc. apply orb_true_r.
      * split; [intros H; discriminate H | intros [H _]; discriminate H].
    + rewrite IH. split.
      * intros [H _]; discriminate H.
      * intros [_ H]. specialize (H d). rewrite Ascii.eqb_refl in H.
        simpl in H. rewrite Ed in H. discriminate (H eq_refl).
Qed.

(** [s.split()] is empty exactly for a string of blanks. *)
Lemma split_nil_iff_blank (s : string) :
  PyStr.split s = [] <-> forall c, contains_char c s = true -> isspace c = true.
Proof.
  unfold PyStr.split. rewrite split_ws_aux_nil. tauto.
Qed.




(** *** chmod *)

Lemma chmod_scan_spec (tokens : list string) :
  forall mode files,
    chmod_scan tokens mode files false
    = match find chmod_bad_flag tokens with
      | Some token => inl ("chmod flag '" ++ token ++ "' is not allowed")
      | None =>
          inr match mode with
              | Some m => (Some m, (files ++ positional tokens)%list)
              | None => (hd_error (positional tokens),
                         (files ++ tl (positional tokens))%list)
              end
      end.
Proof.
  induction tokens as [|token rest IH]; intros mode files; cbn [chmod_scan find].
  - unfold positional. simpl. destruct mode; rewrite app_nil_r; reflexivity.
  - unfold chmod_bad_flag at 1.
    destruct (eqs token "-R" || eqs token "--recursive") eqn:ER; cbn [negb andb].
    + rewrite IH. destruct (find chmod_bad_flag rest); [reflexivity|].
      assert (Hf : is_flag token = true).
      { apply orb_true_iff in ER as [E|E]; apply String.eqb_eq in E; subst;
          reflexivity. }
      unfold positional. cbn [filter]. rewrite Hf. reflexivity.
    + destruct (is_flag token) eqn:Hf; [reflexivity|].
      destruct mode as [m|]; rewrite IH;
        (destruct (find chmod_bad_flag rest); [reflexivity|]);
        unfold positional; cbn [filter]; rewrite Hf; cbn [negb hd_error tl].
      * unfold PyList.append || idtac. rewrite <- app_assoc. reflexivity.
      * reflexivity.
Qed.

Lemma run_star (r1 : regex) (fuel : nat) (prev : option ascii) (s : string)
    (k : option ascii -> string -> option string) :
  run false (Star r1) fuel prev s k = star_loop r1 fuel k fuel prev s.
Proof. reflexivity. Qed.

(** A repetition of a class followed by [k] succeeds when [k] succeeds
    after some run of characters of the class. *)
Lemma star_class_some (set : string) (fuel : nat)
    (k : option ascii -> string -> option string) (ok : string -> bool) :
  (forall prev s, is_some (k prev s) = ok s) ->
  forall n prev s,
    String.length s <= n ->
    is_some (star_loop (Cls (fun c => contains_char c set)) fuel k n prev s) = true
    <-> exists who rest, s = who ++ rest /\ all_in set who = true /\ ok rest = true.
Proof.
  intros Hk. induction n as [|n IH]; intros prev s Hlen.
  - destruct s; [|simpl in Hlen; lia]. cbn [star_loop]. rewrite Hk. split.
    + intros H. exists "", "". auto.
    + intros (who & rest & Hs & _ & Hok).
      destruct who; [|discriminate Hs]. simpl in Hs. subst rest. exact Hok.
  - cbn [star_loop run].
    destruct s as [|d r].
    + rewrite Hk. split.
      * intros H. exists "", "". auto.
      * intros (who & rest & Hs & _ & Hok).
        destruct who; [|discriminate Hs]. simpl in Hs. subst rest. exact Hok.
    + destruct (contains_char d set) eqn:Ed.
      * replace (String.length r <? String.length (String d r)) with true
          by (symmetry; apply Nat.ltb_lt; simpl; lia).
        simpl in Hlen.
        specialize (IH (Some d) r ltac:(lia)).
        destruct (star_loop (Cls (fun c => contains_char c set)) fuel k n (Some d) r)
          as [e|] eqn:El.
        -- split; [|reflexivity]. intros _.
           destruct (proj1 IH eq_refl) as (who & rest & Hs & Hall & Hok).
           exists (String d who), rest. subst r. simpl. rewrite Ed, Hall. auto.
        -- rewrite Hk. split.
           ++ intros H. exists "", (String d r). auto.
           ++ intros (who & rest & Hs & Hall & Hok).
              destruct who as [|c who'].
              ** simpl in Hs. subst rest. exact Hok.
              ** simpl in Hs. injection Hs as <- ->. simpl in Hall.
                 apply andb_true_iff in Hall as [_ Hall].
                 assert (Hsome : is_some (@None string) = true).
                 { apply IH. exists who', rest. auto. }
                 discriminate Hsome.
      * rewrite Hk. split.
        -- intros H. exists "", (String d r). auto.
        -- intros (who & rest & Hs & Hall & Hok).
           destruct who as [|c who'].
           ++ simpl in Hs. subst rest. exact Hok.
           ++ simpl in Hs. injection Hs as <- ->. simpl in Hall.
              rewrite Ed in Hall. discriminate Hall.
Qed.

Lemma chmod_pattern (mode : string) :
  is_some (re_match false "^[ugoa]*\+x$" mode) = true <-> who_plus_x mode.
Proof.
  unfold re_match, match_here, who_plus_x.
  change (compile "^[ugoa]*\+x$")
    with (Some (Seq Bol (Seq (Star (Cls (fun c => contains_char c "ugoa")))
                           (lit_seq "+x" Eol)))).
  cbv beta iota.
  set (k := fun (prev' : option ascii) (s' : string) =>
              run false (lit_seq "+x" Eol) (S (String.length mode)) prev' s'
                (fun _ rest => Some rest)).
  change (run false
            (Seq Bol (Seq (Star (Cls (fun c => contains_char c "ugoa")))
                        (lit_seq "+x" Eol)))
            (S (String.length mode)) None mode (fun _ rest => Some rest))
    with (star_loop (Cls (fun c => contains_char c "ugoa"))
            (S (String.length mode)) k (S (String.length mode)) None mode).
  assert (Hk : forall prev s, is_some (k prev s) = path_or_line s "+x").
  { intros prev s. unfold k. rewrite RmFacts.run_lit_seq.
    rewrite <- (RmFacts.strip_eol "+x" prev s).
    destruct (strip "+x" prev s) as [[p rest]|]; simpl; [|reflexivity].
    destruct (at_eol rest); reflexivity. }
  pose proof (star_class_some "ugoa" (S (String.length mode)) k
                (fun s => path_or_line s "+x") Hk (S (String.length mode)) None
                mode ltac:(lia)) as H.
  destruct (star_loop _ _ k _ None mode); cbn [option_map is_some] in *; exact H.
Qed.

Lemma mem_In (x : string) (xs : list string) : mem x xs = true <-> In x xs.
Proof.
  unfold mem. rewrite existsb_exists. split.
  - intros (y & Hy & E). apply String.eqb_eq in E. subst. exact Hy.
  - intros H. exists x. split; [exact H | apply String.eqb_refl].
Qed.

Lemma chmod_no_bad_flag (rest : list string) :
  find chmod_bad_flag rest = None
  <-> forall token, In token rest -> is_flag token = true ->
                    token = "-R" \/ token = "--recursive".
Proof.
  split.
  - intros H token Hin Hf. pose proof (find_none _ _ H token Hin) as Hb.
    unfold chmod_bad_flag in Hb. rewrite Hf, andb_true_r in Hb.
    apply negb_false_iff, orb_true_iff in Hb.
    destruct Hb as [E|E]; apply String.eqb_eq in E; auto.
  - intros H. destruct (find chmod_bad_flag rest) as [token|] eqn:E; [|reflexivity].
    apply find_some in E as [Hin Hb]. unfold chmod_bad_flag in Hb.
    apply andb_true_iff in Hb as [Hn Hf]. apply negb_true_iff in Hn.
    destruct (H token Hin Hf) as [-> | ->]; discriminate Hn.
Qed.


(** *** git commit *)


(** *** The grouping of the matches by file *)

Lemma group_add_keys (m : SecretMatch) (groups : list (string * list SecretMatch)) :
  forall f, In f (map fst (group_add m groups))
            <-> In f (map fst groups) \/ f = file_path m.
Proof.
  induction groups as [|[g ms] rest IH]; intros f; simpl.
  - split; [intros [H|[]]; auto | intros [[]|H]; auto].
  - destruct (eqs g (file_path m)) eqn:E; simpl.
    + apply String.eqb_eq in E. subst g.
      split; [tauto|]. intros [H|H]; [exact H | left; symmetry; exact H].
    + rewrite IH. tauto.
Qed.

Lemma group_add_well (m : SecretMatch) (groups : list (string * list SecretMatch)) :
  well_grouped groups -> well_grouped (group_add m groups).
Proof.
  unfold well_grouped.
  induction groups as [|[g ms] rest IH]; intros [Hnd Hall]; simpl.
  - split.
    + constructor; [intros [] | constructor].
    + constructor; [|constructor]. simpl. split; [discriminate|].
      constructor; [reflexivity | constructor].
  - inversion Hnd as [|? ? Hnotin Hnd']. inversion Hall as [|? ? [Hne Hfiles] Hall'].
    subst. simpl in *.
    destruct (eqs g (file_path m)) eqn:E; simpl.
    + apply String.eqb_eq in E. split.
      * constructor; assumption.
      * constructor; [|assumption]. simpl. split.
        -- destruct ms; discriminate.
        -- apply Forall_app. split; [assumption|].
           constructor; [symmetry; exact E | constructor].
    + destruct (IH (conj Hnd' Hall')) as [Hnd1 Hall1]. split.
      * constructor; [|assumption]. rewrite group_add_keys.
        intros [H|H]; [contradiction|]. subst g.
        unfold eqs in E. rewrite String.eqb_refl in E. discriminate E.
      * constructor; [|assumption]. simpl. split; assumption.
Qed.

Lemma group_add_matches (m : SecretMatch) (groups : list (string * list SecretMatch)) :
  Permutation (flat_map snd (group_add m groups)) (flat_map snd groups ++ [m]).
Proof.
  induction groups as [|[g ms] rest IH]; simpl.
  - apply Permutation_refl.
  - destruct (eqs g (file_path m)); simpl.
    + rewrite <- !app_assoc. apply Permutation_app_head.
      apply Permutation_app_comm.
    + rewrite <- app_assoc. apply Permutation_app_head. exact IH.
Qed.

Lemma group_fold (matches : list SecretMatch) :
  forall groups,
    well_grouped groups ->
    well_grouped (fold_left (fun gs m => group_add m gs) matches groups)
    /\ Permutation
         (flat_map snd (fold_left (fun gs m => group_add m gs) matches groups))
         (flat_map snd groups ++ matches).
Proof.
  induction matches as [|m ms IH]; intros groups Hw; simpl.
  - rewrite app_nil_r. split; [exact Hw | apply Permutation_refl].
  - destruct (IH (group_add m groups) (group_add_well m groups Hw)) as [H1 H2].
    split; [exact H1|].
    eapply Permutation_trans; [exact H2|].
    eapply Permutation_trans;
      [apply Permutation_app_tail, group_add_matches|].
    rewrite <- app_assoc. apply Permutation_refl.
Qed.


(** *** psql and mysql: the first inline SQL decides *)

Lemma psql_first_flag (pre : list string) (sql : string) (post : list string) :
  forallb (fun token => negb (startswith token "-c")) pre = true ->
  psql_sql_command (pre ++ "-c" :: sql :: post)%list = Some sql.
Proof.
  induction pre as [|token rest IH]; intros H.
  - reflexivity.
  - simpl in H. apply andb_true_iff in H as [Hc Hrest]. apply negb_true_iff in Hc.
    change ((token :: rest) ++ "-c" :: sql :: post)%list
      with (token :: (rest ++ "-c" :: sql :: post)%list).
    cbn [psql_sql_command].
    assert (Heq : eqs token "-c" = false).
    { unfold eqs. destruct (String.eqb_spec token "-c") as [->|];
        [discriminate Hc | reflexivity]. }
    rewrite Hc, Heq.
    destruct (rest ++ "-c" :: sql :: post)%list as [|next more] eqn:E.
    { destruct rest; discriminate E. }
    exact (IH Hrest).
Qed.

Lemma mysql_first_flag (pre : list string) (sql : string) (post : list string) :
  forallb (fun token => negb (startswith token "-e")
                        && negb (eqs token "--execute")) pre = true ->
  mysql_sql_command (pre ++ "-e" :: sql :: post)%list = Some sql.
Proof.
  induction pre as [|token rest IH]; intros H.
  - reflexivity.
  - simpl in H. apply andb_true_iff in H as [Hc Hrest].
    apply andb_true_iff in Hc as [He Hx].
    apply negb_true_iff in He, Hx.
    change ((token :: rest) ++ "-e" :: sql :: post)%list
      with (token :: (rest ++ "-e" :: sql :: post)%list).
    cbn [mysql_sql_command].
    assert (Heq : eqs token "-e" = false).
    { unfold eqs. destruct (String.eqb_spec token "-e") as [->|];
        [discriminate He | reflexivity]. }
    rewrite He, Heq, Hx.
    destruct (rest ++ "-e" :: sql :: post)%list as [|next more] eqn:E.
    { destruct rest; discriminate E. }
    exact (IH Hrest).
Qed.


End ValidatorExtras.

(** ** Safe names of databases and users *)

Module NameFacts.
Import PyStr Validator ValidatorSpec Re NameProps.

Lemma search_bol_none (r : regex) (fuel : nat) :
  forall s c0, search_from false (Seq Bol r) fuel (Some c0) s = None.
Proof.
  induction s as [|c rest IH]; intros c0; cbn [search_from]; unfold match_here;
    cbn [run is_start option_map]; [reflexivity | apply IH].
Qed.

(** A pattern [^prefix] is found in the names that begin with the
    prefix. *)
Lemma search_prefix (pattern l : string) (c : ascii) (s : string) :
  compile pattern = Some (Seq Bol (lit_seq l (Chr c))) ->
  is_some (re_search false pattern s) = startswith s (l ++ String c "").
Proof.
  intros Hc.
  rewrite <- (RmFacts.match_prefix pattern l c s Hc).
  unfold re_search, re_match. rewrite Hc.
  destruct s as [|d rest]; cbn [search_from].
  - destruct (match_here false _ _ None ""); reflexivity.
  - destruct (match_here false _ _ None (String d rest)); [reflexivity|].
    rewrite search_bol_none. reflexivity.
Qed.

Lemma match_here_suffix (l : string) (fuel : nat) (prev : option ascii)
    (s : string) :
  is_some (match_here false (lit_seq l Eol) fuel prev s) = path_or_line s l.
Proof.
  unfold match_here. rewrite RmFacts.run_lit_seq.
  rewrite <- (RmFacts.strip_eol l prev s).
  destruct (strip l prev s) as [[p rest]|]; [|reflexivity].
  cbn [run]. destruct (at_eol rest); reflexivity.
Qed.

Lemma search_from_suffix (l : string) (fuel : nat) :
  forall s prev,
    is_some (search_from false (lit_seq l Eol) fuel prev s)
    = has_suffix_line l s.
Proof.
  induction s as [|c rest IH]; intros prev; cbn [search_from has_suffix_line];
    rewrite <- (match_here_suffix l fuel prev);
    destruct (match_here false (lit_seq l Eol) fuel prev _);
    cbn [is_some orb]; [reflexivity | reflexivity | reflexivity | apply IH].
Qed.

(** A pattern [suffix$] is found in the names that end with the
    suffix, or with the suffix and one newline. *)
Lemma search_suffix (pattern l s : string) :
  compile pattern = Some (lit_seq l Eol) ->
  is_some (re_search false pattern s) = has_suffix_line l s.
Proof.
  intros Hc. unfold re_search. rewrite Hc. apply search_from_suffix.
Qed.

Lemma has_suffix_line_spec (l : string) :
  forall s, has_suffix_line l s = true <-> ends_with_line s l.
Proof.
  unfold ends_with_line.
  induction s as [|c rest IH]; cbn [has_suffix_line].
  - rewrite orb_false_r. unfold path_or_line, eqs. rewrite orb_true_iff.
    rewrite !String.eqb_eq. split.
    + intros [H|H]; exists ""; [left | right]; exact H.
    + intros [[|d pre] [H|H]]; try discriminate H; [left | right]; exact H.
  - rewrite orb_true_iff, IH. unfold path_or_line, eqs. rewrite orb_true_iff.
    rewrite !String.eqb_eq. split.
    + intros [[H|H]|[pre [H|H]]].
      * exists "". left. exact H.
      * exists "". right. exact H.
      * exists (String c pre). left. cbn. rewrite H. reflexivity.
      * exists (String c pre). right. cbn. rewrite H. reflexivity.
    + intros [[|d pre] [H|H]].
      * left. left. exact H.
      * left. right. exact H.
      * right. exists pre. left. cbn in H. injection H as _ H. exact H.
      * right. exists pre. right. cbn in H. injection H as _ H. exact H.
Qed.

Lemma exists_in_prefixes (prefixes : list string) (s : string) :
  existsb (startswith s) prefixes = true
  <-> exists p, In p prefixes /\ startswith s p = true.
Proof. apply existsb_exists. Qed.

Lemma exists_in_suffixes (suffixes : list string) (s : string) :
  existsb (fun q => has_suffix_line q s) suffixes = true
  <-> exists q, In q suffixes /\ ends_with_line s q.
Proof.
  rewrite existsb_exists. split; intros (q & Hin & H); exists q;
    (split; [exact Hin | apply has_suffix_line_spec; exact H]).
Qed.

Lemma safe_name_bool (prefixes suffixes : list string) (name : string) :
  existsb (startswith (lower name)) prefixes
  || existsb (fun q => has_suffix_line q (lower name)) suffixes = true
  <-> safe_name prefixes suffixes name.
Proof.
  unfold safe_name.
  rewrite orb_true_iff, exists_in_prefixes, exists_in_suffixes. reflexivity.
Qed.

(** The patterns of the safe database names, read as prefixes and
    suffixes. *)
Lemma safe_database_name_spec (db_name : string) :
  _is_safe_database_name db_name = true
  <-> safe_name database_prefixes database_suffixes db_name.
Proof.
  rewrite <- safe_name_bool.
  unfold _is_safe_database_name, SAFE_DATABASE_PATTERNS,
    database_prefixes, database_suffixes.
  cbv zeta. cbn [existsb].
  rewrite (search_prefix "^test" "tes" "t" _ eq_refl).
  rewrite (search_prefix "^dev" "de" "v" _ eq_refl).
  rewrite (search_prefix "^local" "loca" "l" _ eq_refl).
  rewrite (search_prefix "^tmp" "tm" "p" _ eq_refl).
  rewrite (search_prefix "^temp" "tem" "p" _ eq_refl).
  rewrite (search_prefix "^scratch" "scratc" "h" _ eq_refl).
  rewrite (search_prefix "^sandbox" "sandbo" "x" _ eq_refl).
  rewrite (search_prefix "^mock" "moc" "k" _ eq_refl).
  rewrite (search_suffix "_test$" "_test" _ eq_refl).
  rewrite (search_suffix "_dev$" "_dev" _ eq_refl).
  rewrite (search_suffix "_local$" "_local" _ eq_refl).
  rewrite (search_suffix "_tmp$" "_tmp" _ eq_refl).
  rewrite (search_suffix "_temp$" "_temp" _ eq_refl).
  rewrite (search_suffix "_mock$" "_mock" _ eq_refl).
  cbn [append].
  match goal with
  | |- ?a = true <-> ?b = true => replace a with b; [reflexivity | btauto]
  end.
Qed.


Lemma safe_user_name_iff (username : string) :
  existsb (fun pattern => is_some (re_search false pattern (lower username)))
    safe_user_patterns = true
  <-> safe_name user_prefixes user_suffixes username.
Proof.
  rewrite <- safe_name_bool.
  unfold safe_user_patterns, user_prefixes, user_suffixes.
  cbn [existsb].
  rewrite (search_prefix "^test" "tes" "t" _ eq_refl).
  rewrite (search_prefix "^dev" "de" "v" _ eq_refl).
  rewrite (search_prefix "^tmp" "tm" "p" _ eq_refl).
  rewrite (search_prefix "^temp" "tem" "p" _ eq_refl).
  rewrite (search_prefix "^mock" "moc" "k" _ eq_refl).
  rewrite (search_suffix "_test$" "_test" _ eq_refl).
  rewrite (search_suffix "_dev$" "_dev" _ eq_refl).
  cbn [append].
  match goal with
  | |- ?a = true <-> ?b = true => replace a with b; [reflexivity | btauto]
  end.
Qed.

(** The name the loop ends with is the one it started with, or a
    token that is not a flag. *)
Lemma last_name_in (with_arg tokens : list string) :
  forall name skip_next n,
    last_name with_arg tokens name skip_next = Some n ->
    name = Some n \/ (In n tokens /\ is_flag n = false).
Proof.
  induction tokens as [|token rest IH]; intros name skip_next n;
    cbn [last_name].
  - intros H. left. exact H.
  - assert (Hrest : forall name' skip',
      last_name with_arg rest name' skip' = Some n ->
      name' = name ->
      name = Some n \/ (In n (token :: rest) /\ is_flag n = false)).
    { intros name' skip' H ->. destruct (IH _ _ _ H) as [H1|[H1 H2]].
      - left. exact H1.
      - right. split; [right; exact H1 | exact H2]. }
    destruct skip_next; [intros H; exact (Hrest _ _ H eq_refl)|].
    destruct (mem token with_arg); [intros H; exact (Hrest _ _ H eq_refl)|].
    destruct (is_flag token) eqn:Ef; [intros H; exact (Hrest _ _ H eq_refl)|].
    intros H. destruct (IH _ _ _ H) as [H1|[H1 H2]].
    + injection H1 as <-. right. split; [left; reflexivity | exact Ef].
    + right. split; [right; exact H1 | exact H2].
Qed.


End NameFacts.

(** ** The phases *)

Module PhaseExtras.
Import Phases PhaseSpec PhaseFacts.

Section Executor.
Variable Ext : Type.
Variable spec_dir : string.
Variable run_agent_fn : string -> Disk Ext -> (bool * string) * Disk Ext.
Variable script_exists : Ext -> string -> bool.
Variable run_script : string -> Disk Ext -> (bool * string) * Disk Ext.
Variable run_discovery_script : Disk Ext -> (bool * string) * Disk Ext.
Variable is_graphiti_enabled : Ext -> bool.
Variable get_graph_hints :
  string -> Disk Ext -> (list string + string) * Disk Ext.
Variable gather_requirements_interactively :
  Disk Ext -> option (string * list (string * Json)) * Disk Ext.
Variable validate_spec_document : Dir -> ValidationResult.
Variable validate_implementation_plan : Dir -> ValidationResult.
Variable validate_all : Dir -> list ValidationResult.
Variable auto_fix_plan : Dir -> bool * Dir.

#[local] Abbreviation W := (World Ext).
#[local] Abbreviation here w name := (file_exists (dir Ext (disk Ext w)) name).
#[local] Abbreviation discovery :=
  (phase_discovery Ext spec_dir run_discovery_script).
#[local] Abbreviation historical_context :=
  (phase_historical_context Ext spec_dir is_graphiti_enabled get_graph_hints).
#[local] Abbreviation requirements :=
  (phase_requirements Ext spec_dir gather_requirements_interactively).
#[local] Abbreviation quick_spec := (phase_quick_spec Ext spec_dir run_agent_fn).
#[local] Abbreviation spec_writing :=
  (phase_spec_writing Ext spec_dir run_agent_fn validate_spec_document).
#[local] Abbreviation planning :=
  (phase_planning Ext spec_dir run_agent_fn script_exists run_script
     validate_implementation_plan auto_fix_plan).
#[local] Abbreviation validation :=
  (phase_validation Ext run_agent_fn validate_all).

Ltac fin :=
  repeat split; intros; try lia; try assumption; try discriminate;
  try reflexivity.

(** *** discovery *)


(** *** requirements *)


(** *** validation *)


(** *** historical_context *)


(** *** The phases that can fail *)

(** What a loop that gave up after [n] attempts leaves: failure with
    [MAX_RETRIES] retries, no output file, one error more per attempt
    and one call of the agent per attempt. *)
Definition gave_up (prompt_file : string) (n : nat) (errors0 : list string)
    (w : W) (res : PhaseResult * W) : Prop :=
  retries (fst res) = MAX_RETRIES
  /\ output_files (fst res) = []
  /\ List.length (errors (fst res)) = List.length errors0 + n
  /\ calls Ext (snd res) = (calls Ext w ++ repeat (Agent prompt_file) n)%list.

Lemma gave_up_step (prompt_file : string) (n : nat) (errors0 : list string)
    (e : string) (w w1 : W) (res : PhaseResult * W) :
  calls Ext w1 = (calls Ext w ++ [Agent prompt_file])%list ->
  gave_up prompt_file n (PyList.append errors0 e) w1 res ->
  gave_up prompt_file (S n) errors0 w res.
Proof.
  intros Hc (H1 & H2 & H3 & H4). unfold gave_up. repeat split; try assumption.
  - rewrite H3, append_length. lia.
  - rewrite H4, Hc. apply calls_snoc.
Qed.

Lemma quick_spec_loop_fails (attempts : list nat) :
  forall errors w,
    let run := quick_spec_loop Ext spec_dir run_agent_fn attempts errors w in
    success (fst run) = false ->
    gave_up "spec_quick.md" (List.length attempts) errors w run.
Proof.
  cbv zeta.
  induction attempts as [|attempt rest IH]; intros errors w.
  - intros _. unfold gave_up. cbn. rewrite Nat.add_0_r, app_nil_r.
    repeat split.
  - cbn [quick_spec_loop List.length]. mstep.
    destruct (run_agent_fn "spec_quick.md" (disk Ext w)) as [[ok out] d].
    destruct ok; norm.
    + destruct (file_exists (dir Ext d) "spec.md") eqn:E1; norm.
      * destruct (file_exists (dir Ext d) "implementation_plan.json");
          norm; intros H; discriminate H.
      * intros H. eapply gave_up_step; [|apply IH; exact H]. reflexivity.
    + intros H. eapply gave_up_step; [|apply IH; exact H]. reflexivity.
Qed.

Lemma spec_writing_loop_fails (attempts : list nat) :
  forall errors w,
    let run := spec_writing_loop Ext spec_dir run_agent_fn
                 validate_spec_document attempts errors w in
    success (fst run) = false ->
    gave_up "spec_writer.md" (List.length attempts) errors w run.
Proof.
  cbv zeta.
  induction attempts as [|attempt rest IH]; intros errors w.
  - intros _. unfold gave_up. cbn. rewrite Nat.add_0_r, app_nil_r.
    repeat split.
  - cbn [spec_writing_loop List.length]. mstep.
    destruct (run_agent_fn "spec_writer.md" (disk Ext w)) as [[ok out] d].
    destruct ok; norm.
    + destruct (file_exists (dir Ext d) "spec.md") eqn:E1; norm.
      * destruct (valid (validate_spec_document (dir Ext d))) eqn:E2.
        -- intros H; discriminate H.
        -- intros H. eapply gave_up_step; [|apply IH; exact H]. reflexivity.
      * intros H. eapply gave_up_step; [|apply IH; exact H]. reflexivity.
    + intros H. eapply gave_up_step; [|apply IH; exact H]. reflexivity.
Qed.

Ltac pstep :=
  unfold accept_plan, run_auto_fix_plan, _run_script; mstep.

Lemma planning_loop_fails (attempts : list nat) :
  forall errors w,
    let run := planning_loop Ext spec_dir run_agent_fn
                 validate_implementation_plan auto_fix_plan
                 attempts errors w in
    success (fst run) = false ->
    gave_up "planner.md" (List.length attempts) errors w run.
Proof.
  cbv zeta.
  induction attempts as [|attempt rest IH]; intros errors w.
  - intros _. unfold gave_up. cbn. rewrite Nat.add_0_r, app_nil_r.
    repeat split.
  - cbn [planning_loop List.length]. pstep.
    destruct (run_agent_fn "planner.md" (disk Ext w)) as [[ok out] d].
    destruct ok; norm.
    + destruct (file_exists (dir Ext d) "implementation_plan.json") eqn:E1; norm.
      * destruct (valid (validate_implementation_plan (dir Ext d))) eqn:E2; norm.
        { intros H; discriminate H. }
        destruct (auto_fix_plan (dir Ext d)) as [fixed d'] eqn:Ef. norm.
        destruct fixed; norm.
        -- destruct (valid (validate_implementation_plan d')) eqn:E3; norm.
           ++ intros H; discriminate H.
           ++ intros H. eapply gave_up_step; [|apply IH; exact H]. reflexivity.
        -- intros H. eapply gave_up_step; [|apply IH; exact H]. reflexivity.
      * intros H. eapply gave_up_step; [|apply IH; exact H]. reflexivity.
    + intros H. eapply gave_up_step; [|apply IH; exact H]. reflexivity.
Qed.


(** *** What a success guarantees *)

Lemma quick_spec_loop_leaves (attempts : list nat) :
  forall errors w,
    let run := quick_spec_loop Ext spec_dir run_agent_fn attempts errors w in
    success (fst run) = true ->
    here (snd run) "spec.md" = true
    /\ here (snd run) "implementation_plan.json" = true.
Proof.
  cbv zeta.
  induction attempts as [|attempt rest IH]; intros errors w.
  - intros H; discriminate H.
  - cbn [quick_spec_loop]. mstep.
    destruct (run_agent_fn "spec_quick.md" (disk Ext w)) as [[ok out] d].
    destruct ok; norm; [|apply IH].
    destruct (file_exists (dir Ext d) "spec.md") eqn:E1; norm; [|apply IH].
    destruct (file_exists (dir Ext d) "implementation_plan.json") eqn:E2;
      norm; intros _; split; norm; try assumption.
    unfold file_exists. rewrite write_same. reflexivity.
Qed.

Lemma spec_writing_loop_leaves (attempts : list nat) :
  forall errors w,
    let run := spec_writing_loop Ext spec_dir run_agent_fn
                 validate_spec_document attempts errors w in
    success (fst run) = true ->
    here (snd run) "spec.md" = true
    /\ valid (validate_spec_document (dir Ext (disk Ext (snd run)))) = true.
Proof.
  cbv zeta.
  induction attempts as [|attempt rest IH]; intros errors w.
  - intros H; discriminate H.
  - cbn [spec_writing_loop]. mstep.
    destruct (run_agent_fn "spec_writer.md" (disk Ext w)) as [[ok out] d].
    destruct ok; norm; [|apply IH].
    destruct (file_exists (dir Ext d) "spec.md") eqn:E1; norm; [|apply IH].
    destruct (valid (validate_spec_document (dir Ext d))) eqn:E2; [|apply IH].
    intros _. split; assumption.
Qed.

Lemma planning_loop_leaves (attempts : list nat) :
  forall errors w,
    let run := planning_loop Ext spec_dir run_agent_fn
                 validate_implementation_plan auto_fix_plan
                 attempts errors w in
    success (fst run) = true ->
    valid (validate_implementation_plan (dir Ext (disk Ext (snd run)))) = true.
Proof.
  cbv zeta.
  induction attempts as [|attempt rest IH]; intros errors w.
  - intros H; discriminate H.
  - cbn [planning_loop]. pstep.
    destruct (run_agent_fn "planner.md" (disk Ext w)) as [[ok out] d].
    destruct ok; norm; [|apply IH].
    destruct (file_exists (dir Ext d) "implementation_plan.json"); norm;
      [|apply IH].
    destruct (valid (validate_implementation_plan (dir Ext d))) eqn:E2; norm.
    { intros _. exact E2. }
    destruct (auto_fix_plan (dir Ext d)) as [fixed d'] eqn:Ef. norm.
    destruct fixed; norm; [|apply IH].
    destruct (valid (validate_implementation_plan d')) eqn:E3; norm;
      [|apply IH].
    intros _. exact E3.
Qed.

End Executor.

Import PhaseExamples PhaseExtraExamples.


End PhaseExtras.

(** ** The QA loop *)

Module QAExtras.
Import QA QAExamples QAProps.

Section Loop.
Variable Ext : Type.
Variable key_similarity : string -> string -> Q.
Variable is_build_complete : Disk Ext -> bool.
Variable is_no_test_project : Disk Ext -> bool.
Variable linear_task_id : Disk Ext -> option string.
Variable reviewer_agent : nat -> Disk Ext -> (string + string) * Disk Ext.
Variable fixer_agent : nat -> Disk Ext -> (string + string) * Disk Ext.

#[local] Abbreviation W := (World Ext).
#[local] Abbreviation loop :=
  (qa_loop Ext key_similarity reviewer_agent fixer_agent).
#[local] Abbreviation run :=
  (run_qa_validation_loop Ext key_similarity is_build_complete
     is_no_test_project linear_task_id reviewer_agent fixer_agent).

Lemma reviewer_sessions_app (a b : list Event) :
  reviewer_sessions (a ++ b) = (reviewer_sessions a ++ reviewer_sessions b)%list.
Proof.
  induction a as [|e a IH]; [reflexivity|].
  destruct e; cbn [reviewer_sessions app]; rewrite IH; reflexivity.
Qed.

(** What a run of the loop from iteration [n] leaves. *)
Definition loop_post (fuel n : nat) (w : W) (res : bool * W) : Prop :=
  (exists k,
      reviewer_sessions (events Ext (snd res))
      = (reviewer_sessions (events Ext w) ++ seq (S n) k)%list
      /\ k <= fuel /\ k <= MAX_QA_ITERATIONS - n)
  /\ (fst res = true -> signed_off (snd res)).

Lemma loop_post_none (fuel n : nat) (w w1 : W) :
  reviewer_sessions (events Ext w1) = reviewer_sessions (events Ext w) ->
  loop_post fuel n w (false, w1).
Proof.
  intros H. split.
  - exists 0. cbn [seq]. rewrite app_nil_r. repeat split; try lia. exact H.
  - intros E; discriminate E.
Qed.

Lemma loop_post_one (fuel n : nat) (w w1 : W) (b : bool) :
  n < MAX_QA_ITERATIONS ->
  reviewer_sessions (events Ext w1)
  = (reviewer_sessions (events Ext w) ++ [S n])%list ->
  (b = true -> signed_off w1) ->
  loop_post (S fuel) n w (b, w1).
Proof.
  intros Hn H Hb. split.
  - exists 1. cbn [seq]. repeat split; try lia. exact H.
  - exact Hb.
Qed.

Lemma loop_post_more (fuel n : nat) (w w1 : W) (res : bool * W) :
  n < MAX_QA_ITERATIONS ->
  reviewer_sessions (events Ext w1)
  = (reviewer_sessions (events Ext w) ++ [S n])%list ->
  loop_post fuel (S n) w1 res ->
  loop_post (S fuel) n w res.
Proof.
  intros Hn H [(k & Hk & Hf & Hm) Hb]. split; [|exact Hb].
  exists (S k). cbn [seq]. repeat split; try lia.
  rewrite Hk, H, <- app_assoc. reflexivity.
Qed.

Ltac qstep :=
  unfold run_qa_agent_session, run_qa_fixer_session, run_agent,
    get_qa_signoff_status, get_iteration_history, record_iteration,
    escalate_to_human, create_manual_test_plan, incomplete, with_plan, emit;
  unfold St.when; unfold St.bind, St.ret, St.get, St.modify;
  cbv beta iota; cbn [disk plan events fst snd negb qa_signoff].

Ltac sessions :=
  cbn [events disk]; rewrite ?reviewer_sessions_app;
  cbn [reviewer_sessions]; rewrite ?app_nil_r; reflexivity.

Lemma qa_loop_post (fuel : nat) :
  forall linear n w, loop_post fuel n w (loop fuel linear n w).
Proof.
  induction fuel as [|fuel IH]; intros linear n w.
  - cbn [qa_loop]. qstep.
    destruct linear; cbv beta iota; apply loop_post_none; sessions.
  - cbn [qa_loop].
    destruct (n <? MAX_QA_ITERATIONS) eqn:Hn; cbn [negb]; cbv beta iota.
    2: { qstep. destruct linear; cbv beta iota; apply loop_post_none; sessions. }
    apply Nat.ltb_lt in Hn.
    rewrite Nat.add_1_r.
    remember (loop fuel) as again eqn:Hagain.
    assert (IH' : forall linear n w, loop_post fuel n w (again linear n w))
      by (subst again; exact IH).
    clear IH Hagain.
    qstep.
    destruct (reviewer_agent (S n) (disk Ext w)) as [[text|e] d].
    + (* the session ended *)
      cbv beta iota. cbn [disk plan events fst snd].
      destruct (qa_signoff (plan Ext d)) as [s|] eqn:Es.
      * destruct (String.eqb (signoff_status s) "approved") eqn:Ea.
        -- (* approved *)
           change (String.eqb "approved" "approved") with true.
           cbv beta iota.
           destruct linear; cbv beta iota; cbn [disk plan events fst snd];
             (apply loop_post_one; [exact Hn | sessions |]);
             intros _; exists s; cbn [disk plan qa_signoff];
             (split; [exact Es | apply String.eqb_eq; exact Ea]).
        -- destruct (String.eqb (signoff_status s) "rejected") eqn:Er.
           ++ (* rejected *)
              change (String.eqb "rejected" "approved") with false.
              change (String.eqb "rejected" "rejected") with true.
              cbv beta iota. cbn [disk plan events fst snd qa_signoff].
              rewrite Es.
              match goal with
              | |- context [has_recurring_issues ?a ?b ?c ?d] =>
                  destruct (has_recurring_issues a b c d) as [hr recurring]
              end.
              destruct hr; cbv beta iota.
              { destruct linear; cbv beta iota; cbn [disk plan events fst snd];
                  (apply loop_post_one; [exact Hn | sessions |]);
                  intros E; discriminate E. }
              destruct (MAX_QA_ITERATIONS <=? S n) eqn:Hmax.
              { destruct linear; cbv beta iota; cbn [disk plan events fst snd];
                  (apply loop_post_one; [exact Hn | sessions |]);
                  intros E; discriminate E. }
              destruct linear; cbv beta iota;
                cbn [disk plan events fst snd fix_request_file];
                (destruct (fix_request_file Ext d); cbn [negb]; cbv beta iota;
                 [ match goal with
                   | |- context [fixer_agent ?a ?b] =>
                       destruct (fixer_agent a b) as [[ftext|fe] fd]
                   end; cbv beta iota;
                   [ change (String.eqb "fixed" "error") with false;
                     cbv beta iota;
                     eapply loop_post_more; [exact Hn | | apply IH']; sessions
                   | change (String.eqb "error" "error") with true;
                     cbv beta iota; cbn [disk plan events fst snd];
                     (apply loop_post_one; [exact Hn | sessions |]);
                     intros E; discriminate E ]
                 | change (String.eqb "error" "error") with true;
                   cbv beta iota; cbn [disk plan events fst snd];
                   (apply loop_post_one; [exact Hn | sessions |]);
                   intros E; discriminate E ]).
           ++ (* the plan was not updated *)
              change (String.eqb "error" "approved") with false.
              change (String.eqb "error" "rejected") with false.
              change (String.eqb "error" "error") with true.
              cbv beta iota.
              eapply loop_post_more; [exact Hn | | apply IH']; sessions.
      * change (String.eqb "error" "approved") with false.
        change (String.eqb "error" "rejected") with false.
        change (String.eqb "error" "error") with true.
        cbv beta iota.
        eapply loop_post_more; [exact Hn | | apply IH']; sessions.
    + (* the session raised *)
      cbv beta iota.
      change (String.eqb "error" "approved") with false.
      change (String.eqb "error" "rejected") with false.
      change (String.eqb "error" "error") with true.
      cbv beta iota.
      eapply loop_post_more; [exact Hn | | apply IH']; sessions.
Qed.

Lemma run_post (w : W) :
  let n0 := fst (get_qa_iteration_count Ext w) in
  (exists k,
      reviewer_sessions (events Ext (snd (run w)))
      = (reviewer_sessions (events Ext w) ++ seq (S n0) k)%list
      /\ k <= MAX_QA_ITERATIONS - n0)
  /\ (fst (run w) = true ->
      is_build_complete (disk Ext w) = true /\ signed_off (snd (run w))).
Proof.
  cbv zeta. unfold run_qa_validation_loop, is_qa_approved, get_qa_iteration_count.
  qstep.
  assert (Hnone : exists k,
    reviewer_sessions (events Ext w)
    = (reviewer_sessions (events Ext w)
       ++ seq (S match qa_signoff (plan Ext (disk Ext w)) with
                 | Some s => qa_session s
                 | None => 0
                 end) k)%list
    /\ k <= MAX_QA_ITERATIONS
            - match qa_signoff (plan Ext (disk Ext w)) with
              | Some s => qa_session s
              | None => 0
              end).
  { exists 0. cbn [seq]. rewrite app_nil_r. split; [reflexivity | lia]. }
  destruct (is_build_complete (disk Ext w)) eqn:Eb; cbn [negb]; cbv beta iota.
  2: { cbn [fst snd]. split; [exact Hnone | intros E; discriminate E]. }
  destruct (match qa_signoff (plan Ext (disk Ext w)) with
            | Some s => String.eqb (signoff_status s) "approved"
            | None => false
            end) eqn:Ea; cbv beta iota.
  { cbn [fst snd]. split; [exact Hnone|]. intros _. split; [reflexivity|].
    destruct (qa_signoff (plan Ext (disk Ext w))) as [s|] eqn:Es;
      [|discriminate Ea].
    exists s. split; [exact Es | apply String.eqb_eq; exact Ea]. }
  clear Hnone.
  destruct (is_no_test_project (disk Ext w));
    destruct (match linear_task_id (disk Ext w) with
              | Some task_id => PyStr.truthy task_id
              | None => false
              end); cbv beta iota; cbn [disk plan events fst snd];
    match goal with
    | |- context [loop ?f ?l ?n ?w1] =>
        destruct (qa_loop_post f l n w1) as [(k & Hk & _ & Hm) Hb];
        (split; [exists k; split; [rewrite Hk; sessions | exact Hm]
                | intros E; split; [reflexivity | exact (Hb E)]])
    end.
Qed.



(** *** Escalation *)

Lemma filter_one {A} (f : A -> bool) (a : A) (l : list A) :
  In a l -> f a = true -> 1 <= List.length (filter f l).
Proof.
  intros Hin Hf.
  assert (H : In a (filter f l)) by (apply filter_In; split; assumption).
  destruct (filter f l); [destruct H | cbn; lia].
Qed.

Lemma historical_issues_app (h1 h2 : list IterationRecord) :
  historical_issues (h1 ++ h2)
  = (historical_issues h1 ++ historical_issues h2)%list.
Proof. unfold historical_issues. apply flat_map_app. Qed.

(** An issue of the current list that the recorded history holds
    twice over is reported as recurring. *)
Lemma recorded_rejection_recurs (x y : Issue) (current : list Issue)
    (history : list IterationRecord) (n : nat) :
  In x current ->
  same_issue key_similarity x x = true ->
  In y (historical_issues history) ->
  same_issue key_similarity x y = true ->
  let recorded :=
    (history ++ [{| iteration := n; status := "rejected";
                    issues := current |}])%list in
  fst (has_recurring_issues key_similarity current recorded
         RECURRING_ISSUE_THRESHOLD) = true
  /\ In (x, occurrence_count key_similarity x recorded)
        (snd (has_recurring_issues key_similarity current recorded
                RECURRING_ISSUE_THRESHOLD))
  /\ RECURRING_ISSUE_THRESHOLD <= occurrence_count key_similarity x recorded.
Proof.
  intros Hx Hxx Hy Hxy. cbv zeta.
  set (recorded := (history ++ _)%list).
  assert (Hcount : RECURRING_ISSUE_THRESHOLD
                   <= occurrence_count key_similarity x recorded).
  { unfold occurrence_count, recorded, RECURRING_ISSUE_THRESHOLD.
    rewrite historical_issues_app, filter_app, length_app.
    pose proof (filter_one (same_issue key_similarity x) y _ Hy Hxy) as H1.
    assert (H2 : 1 <= List.length
                        (filter (same_issue key_similarity x)
                           (historical_issues
                              [{| iteration := n; status := "rejected";
                                  issues := current |}]))).
    { apply (filter_one _ x); [|exact Hxx].
      unfold historical_issues. cbn [flat_map issues].
      rewrite app_nil_r. exact Hx. }
    lia. }
  assert (Hin : In (x, occurrence_count key_similarity x recorded)
                   (snd (has_recurring_issues key_similarity current recorded
                           RECURRING_ISSUE_THRESHOLD))).
  { unfold has_recurring_issues. cbn [snd]. apply in_flat_map.
    exists x. split; [exact Hx|]. cbv zeta.
    apply Nat.leb_le in Hcount. rewrite Hcount. left. reflexivity. }
  split; [|split; assumption].
  unfold has_recurring_issues in *. cbn [fst snd] in *.
  destruct (flat_map _ current); [destruct Hin | reflexivity].
Qed.

End Loop.

Import QAExtraExamples.


End QAExtras.

(** ** The name and the directory of a spec *)

Module PipelineFacts.
Import PyStr Pipeline PipelineProps.

(** *** The name of a spec *)

Lemma lower_char_idempotent (c : ascii) :
  lower_char (lower_char c) = lower_char c.
Proof.
  destruct c as [[] [] [] [] [] [] [] []]; vm_compute; reflexivity.
Qed.

Lemma space_not_alnum (c : ascii) : isspace c = true -> isalnum c = false.
Proof.
  destruct c as [[] [] [] [] [] [] [] []]; vm_compute;
    intros H; first [reflexivity | discriminate H].
Qed.

Lemma contains_char_rev (c : ascii) (s : string) :
  forall acc,
    contains_char c (rev s acc) = contains_char c s || contains_char c acc.
Proof.
  induction s as [|d r IH]; intros acc; cbn [rev contains_char].
  - reflexivity.
  - rewrite IH. cbn [contains_char]. btauto.
Qed.

Lemma rev_empty (s : string) : forall acc, rev s acc = "" -> s = "" /\ acc = "".
Proof.
  induction s as [|d r IH]; intros acc H; cbn [rev] in H.
  - split; [reflexivity | exact H].
  - destruct (IH _ H) as [_ H']. discriminate H'.
Qed.

Lemma split_words (p : ascii -> Prop) :
  forall s cur,
    chars_in p cur ->
    (forall c, contains_char c s = true -> isspace c = false -> p c) ->
    Forall (fun w => w <> "" /\ chars_in p w) (split_ws_aux s cur).
Proof.
  induction s as [|d r IH]; intros cur Hcur Hs; cbn [split_ws_aux].
  - destruct cur as [|e cur']; [constructor|].
    constructor; [|constructor]. split.
    + intros H. apply rev_empty in H as [H _]. discriminate H.
    + intros c Hc. rewrite contains_char_rev in Hc.
      change (contains_char c "") with false in Hc.
      rewrite orb_false_r in Hc.
      apply Hcur. exact Hc.
  - assert (Hr : forall c, contains_char c r = true -> isspace c = false -> p c).
    { intros c Hc. apply Hs. cbn [contains_char]. rewrite Hc. apply orb_true_r. }
    assert (Hnil : chars_in p "") by (intros c Hc; discriminate Hc).
    destruct (isspace d) eqn:Ed.
    + destruct cur as [|e cur']; [apply IH; assumption|].
      constructor; [|apply IH; assumption]. split.
      * intros H. apply rev_empty in H as [H _]. discriminate H.
      * intros c Hc. rewrite contains_char_rev in Hc.
        change (contains_char c "") with false in Hc.
      rewrite orb_false_r in Hc.
        apply Hcur. exact Hc.
    + apply IH; [|exact Hr].
      intros c Hc. cbn [contains_char] in Hc.
      apply orb_true_iff in Hc as [Hc|Hc]; [|apply Hcur; exact Hc].
      apply Ascii.eqb_eq in Hc. subst c. apply Hs; [|exact Ed].
      cbn [contains_char]. rewrite Ascii.eqb_refl. reflexivity.
Qed.

Lemma clean_lower_chars (task : string) :
  forall c, contains_char c (clean (lower task)) = true ->
            isspace c = false -> name_char c.
Proof.
  induction task as [|d r IH]; intros c Hc Hsp; cbn [lower clean] in Hc.
  - discriminate Hc.
  - cbn [contains_char] in Hc. apply orb_true_iff in Hc as [Hc|Hc];
      [|apply IH; assumption].
    apply Ascii.eqb_eq in Hc. subst c.
    destruct (isalnum (lower_char d)) eqn:Ea; cbn [orb] in *.
    + split; [exact Ea | apply lower_char_idempotent].
    + destruct (Ascii.eqb (lower_char d) " ") eqn:Es.
      * apply Ascii.eqb_eq in Es. rewrite Es in Hsp. discriminate Hsp.
      * discriminate Hsp.
Qed.

Lemma words_of_task (task : string) :
  Forall word (split (clean (lower task))).
Proof.
  apply split_words.
  - intros c Hc. discriminate Hc.
  - apply clean_lower_chars.
Qed.

Lemma Forall_filter {A} (P : A -> Prop) (f : A -> bool) (l : list A) :
  Forall P l -> Forall P (filter f l).
Proof.
  induction 1 as [|a l Ha _ IH]; cbn [filter]; [constructor|].
  destruct (f a); [constructor; assumption | exact IH].
Qed.

Lemma Forall_firstn {A} (P : A -> Prop) (n : nat) (l : list A) :
  Forall P l -> Forall P (firstn n l).
Proof.
  revert l. induction n as [|n IH]; intros l H; cbn [firstn]; [constructor|].
  destruct H as [|a l Ha Hl]; constructor; [exact Ha | apply IH; exact Hl].
Qed.

Lemma contains_char_app (c : ascii) (a b : string) :
  contains_char c (a ++ b) = contains_char c a || contains_char c b.
Proof.
  induction a as [|d r IH]; cbn [append contains_char]; [reflexivity|].
  rewrite IH. btauto.
Qed.

Lemma concat_chars (c : ascii) (parts : list string) :
  contains_char c (String.concat "-" parts) = true ->
  c = "-"%char \/ exists w, In w parts /\ contains_char c w = true.
Proof.
  induction parts as [|w rest IH]; cbn [String.concat]; [discriminate|].
  destruct rest as [|w' rest'].
  - intros H. right. exists w. split; [left; reflexivity | exact H].
  - rewrite !contains_char_app. cbn [contains_char].
    rewrite orb_false_r. intros H.
    apply orb_true_iff in H as [H|H].
    + right. exists w. split; [left; reflexivity | exact H].
    + apply orb_true_iff in H as [H|H].
      * left. apply Ascii.eqb_eq in H. exact H.
      * destruct (IH H) as [H1|(w1 & Hin & H1)]; [left; exact H1|].
        right. exists w1. split; [right; exact Hin | exact H1].
Qed.

Lemma concat_nonempty (parts : list string) :
  parts <> [] -> Forall word parts -> String.concat "-" parts <> "".
Proof.
  intros Hne Hall. destruct parts as [|w rest]; [contradiction|].
  inversion Hall as [|? ? [Hw _] _]. subst.
  cbn [String.concat]. destruct rest; [exact Hw|].
  destruct w; [contradiction | discriminate].
Qed.

Lemma name_parts_spec (task_description : string) :
  _generate_spec_name task_description
  = String.concat "-" (name_parts task_description)
  /\ 1 <= List.length (name_parts task_description) <= 4
  /\ Forall word (name_parts task_description).
Proof.
  unfold _generate_spec_name, name_parts. cbv zeta.
  pose proof (words_of_task task_description) as Hw.
  set (words := split (clean (lower task_description))) in *.
  set (meaningful := filter _ words).
  assert (Hm : Forall word (firstn 4 meaningful))
    by (apply Forall_firstn, Forall_filter, Hw).
  assert (Hf : Forall word (firstn 4 words)) by (apply Forall_firstn, Hw).
  pose proof (firstn_le_length 4 meaningful) as Lm.
  pose proof (firstn_le_length 4 words) as Lf.
  destruct (firstn 4 meaningful) as [|m ms].
  - destruct (firstn 4 words) as [|f fs].
    + split; [reflexivity|]. split; [cbn; lia|].
      constructor; [|constructor]. split; [discriminate|].
      intros c Hc. cbn in Hc.
      repeat (apply orb_true_iff in Hc as [Hc|Hc];
              [apply Ascii.eqb_eq in Hc; subst c; split; reflexivity|]).
      discriminate Hc.
    + split; [reflexivity|]. split; [cbn [List.length] in *; lia | exact Hf].
  - split; [reflexivity|]. split; [cbn [List.length] in *; lia | exact Hm].
Qed.


(** *** The directory of a spec *)

Lemma below (P : nat -> bool) (bound : nat) :
  forallb P (seq 0 bound) = true -> forall n, n < bound -> P n = true.
Proof.
  intros H n Hn. rewrite forallb_forall in H. apply H, in_seq. lia.
Qed.

(** Three digits and the placeholder read back as the number. *)
Lemma numbered_placeholder (n : nat) :
  n < 1000 ->
  matches_numbered (format_03d n ++ "-pending") = true
  /\ number_of (format_03d n ++ "-pending") = n.
Proof.
  intros Hn.
  pose proof (below
    (fun n => matches_numbered (format_03d n ++ "-pending")
              && (number_of (format_03d n ++ "-pending") =? n))
    1000) as H.
  cbv beta in H. specialize (H ltac:(vm_compute; reflexivity) n Hn).
  apply andb_true_iff in H as [H1 H2]. apply Nat.eqb_eq in H2.
  split; assumption.
Qed.

Lemma digit_value_le (c : ascii) : is_digit c = true -> digit_value c <= 9.
Proof.
  unfold is_digit, in_range, digit_value. intros H.
  apply andb_true_iff in H as [_ H]. apply Nat.leb_le in H. lia.
Qed.

Lemma number_of_le (name : string) :
  matches_numbered name = true -> number_of name <= 999.
Proof.
  destruct name as [|a [|b [|c [|d rest]]]]; try discriminate.
  cbn [matches_numbered number_of]. intros H.
  apply andb_true_iff in H as [H _].
  apply andb_true_iff in H as [H Hc].
  apply andb_true_iff in H as [Ha Hb].
  apply digit_value_le in Ha, Hb, Hc. lia.
Qed.

Lemma create_spec_dir_next (entries : list string) :
  _create_spec_dir entries
  = format_03d (match numbers entries with
                | [] => 1
                | _ => list_max (numbers entries) + 1
                end) ++ "-pending".
Proof.
  unfold _create_spec_dir, numbers. cbv zeta.
  destruct (filter matches_numbered entries); reflexivity.
Qed.

Lemma number_in (entries : list string) (name : string) :
  In name entries -> matches_numbered name = true ->
  In (number_of name) (numbers entries).
Proof.
  intros Hin Hm. unfold numbers. apply in_map, filter_In. split; assumption.
Qed.

Lemma list_max_in (l : list nat) (n : nat) : In n l -> n <= list_max l.
Proof.
  intros H. pose proof (proj1 (list_max_le l (list_max l)) (le_n _)) as Hall.
  rewrite Forall_forall in Hall. apply Hall. exact H.
Qed.

Lemma numbers_le (entries : list string) :
  Forall (fun k => k <= 999) (numbers entries).
Proof.
  unfold numbers. apply Forall_forall. intros k Hk.
  apply in_map_iff in Hk as (name & <- & Hin).
  apply filter_In in Hin as [_ Hm]. apply number_of_le. exact Hm.
Qed.




End PipelineFacts.
